(** * QuizzBot: the game session of src/class/quizzbot.js

    A shallow embedding of the [QuizzBot] class: its option handling
    (constructor), the question-bank loader (loadQuestions), the message
    listener (init), the command dispatcher (handleCommand and the commands)
    and the question cycle with its three timers (game, clearGame,
    handleAnswer, stopCommand).

    Conventions of the embedding.
    - A JavaScript number that holds a count or a duration in milliseconds
      is a [Z]; [undefined] options are [None].
    - A string is a [string] whose characters are code units below 256.
    - The object's fields are the record [Bot]; what the runtime holds for it
      (the event loop's pending timers and clock, the user registry, the
      text sent to the transport) is the record [World].
    - A closure handed to [setTimeout] is a constructor of [Callback]; the
      event loop runs it with [fire].
    - A method either returns or throws: [M A] is a state monad over
      [Session] with exceptions, and a thrown error keeps the mutations made
      before it. *)

From Stdlib Require Import ZArith String Ascii List Bool Lia.
From stdpp Require Import base option gmap strings list.
Import ListNotations.
Open Scope string_scope.
Open Scope Z_scope.

(** ** Strings as JavaScript uses them *)

Module Js.

Definition chars (s : string) : list ascii := list_ascii_of_string s.
Definition str (l : list ascii) : string := string_of_list_ascii l.

(** [s.split(c)] for a one-character separator: never empty. *)
Fixpoint split_chars (sep : ascii) (l : list ascii) : list (list ascii) :=
  match l with
  | [] => [[]]
  | c :: l' =>
      if Ascii.eqb c sep then [] :: split_chars sep l'
      else match split_chars sep l' with
           | seg :: rest => (c :: seg) :: rest
           | [] => [[c]]
           end
  end.

Definition split (sep : ascii) (s : string) : list string :=
  map str (split_chars sep (chars s)).

Definition LF : ascii := ascii_of_nat 10.
Definition CR : ascii := ascii_of_nat 13.

(** Drops one trailing carriage return: the optional [\r] of [/\r?\n/]. *)
Fixpoint chop_cr (l : list ascii) : list ascii :=
  match l with
  | [] => []
  | [c] => if Ascii.eqb c CR then [] else [c]
  | c :: l' => c :: chop_cr l'
  end.

(** The pieces between line feeds; every piece that a line feed ends loses
    the carriage return before it, the last piece is kept as it is. *)
Fixpoint chop_all_but_last (pieces : list (list ascii)) : list (list ascii) :=
  match pieces with
  | [] => []
  | [p] => [p]
  | p :: rest => chop_cr p :: chop_all_but_last rest
  end.

(** [s.split(/\r?\n/)]. *)
Definition split_lines (s : string) : list string :=
  map str (chop_all_but_last (split_chars LF (chars s))).

(** White space and line terminators below 256, as [trim] strips them. *)
Definition is_space (c : ascii) : bool :=
  let n := nat_of_ascii c in
  (Nat.leb 9 n && Nat.leb n 13) || Nat.eqb n 32 || Nat.eqb n 160.

Fixpoint trim_left (l : list ascii) : list ascii :=
  match l with
  | c :: l' => if is_space c then trim_left l' else l
  | [] => []
  end.

Definition trim (s : string) : string :=
  str (rev (trim_left (rev (trim_left (chars s))))).

(** [s.lastIndexOf(c)], -1 when [c] does not occur. *)
Fixpoint lastIndexOf_from (c : ascii) (l : list ascii) (i : Z) (found : Z) : Z :=
  match l with
  | [] => found
  | d :: l' => lastIndexOf_from c l' (i + 1) (if Ascii.eqb d c then i else found)
  end.

Definition lastIndexOf (c : ascii) (s : string) : Z :=
  lastIndexOf_from c (chars s) 0 (-1).

(** [s.substr(start)] for a start that is not negative. *)
Definition substr (start : Z) (s : string) : string :=
  str (drop (Z.to_nat start) (chars s)).

(** [x >>> 0]: the number as an unsigned 32-bit integer. *)
Definition to_uint32 (x : Z) : Z := x mod 2 ^ 32.

(** [a || b] on a number that may be undefined: 0 and undefined are falsy. *)
Definition or_default (a : option Z) (b : Z) : Z :=
  match a with
  | Some n => if n =? 0 then b else n
  | None => b
  end.

(** What array indexing tells apart in the result of ToNumber. *)
Inductive number :=
| Int (n : Z)
| NotInt.

(** [arr[n - 1]] where [n] is a number: an element only at an integer
    index inside the array. *)
Definition index_minus_one {A} (arr : list A) (n : number) : option A :=
  match n with
  | Int k => if 0 <=? k - 1 then arr !! Z.to_nat (k - 1) else None
  | NotInt => None
  end.

(** *** ToNumber on a string

    White space around the word is dropped and the empty word is 0. A
    decimal literal may have a sign, a fraction and an exponent; a literal
    with the prefix 0x, 0o or 0b has neither. The value is rounded to the
    nearest double, ties to even. Infinity and every other word, which is
    NaN, are no integer. *)

Definition digit_of (base : Z) (c : ascii) : option Z :=
  let n := Z.of_nat (nat_of_ascii c) in
  let v :=
    if (48 <=? n) && (n <=? 57) then n - 48
    else if (97 <=? n) && (n <=? 102) then n - 87
    else if (65 <=? n) && (n <=? 70) then n - 55
    else 16 in
  if v <? base then Some v else None.

(** The digits in [base] that [l] starts with, read after the [len] digits
    of value [acc]: the value, the number of digits, and what follows. *)
Fixpoint numeral (base : Z) (l : list ascii) (acc len : Z)
    : Z * Z * list ascii :=
  match l with
  | c :: l' =>
      match digit_of base c with
      | Some v => numeral base l' (base * acc + v) (len + 1)
      | None => (acc, len, l)
      end
  | [] => (acc, len, [])
  end.

(** [num / den] rounded to the nearest integer, ties to even. *)
Definition round_half_even (num den : Z) : Z :=
  let q := num / den in
  let r := num mod den in
  if (den <? 2 * r) || ((den =? 2 * r) && Z.odd q) then q + 1 else q.

(** [p / (q * 2^e)] as a fraction of integers. *)
Definition scaled (p q e : Z) : Z * Z :=
  if e <? 0 then (p * 2 ^ (- e), q) else (p, q * 2 ^ e).

(** The double nearest to [p / q], for [0 <= p] and [0 < q]: a significand
    of 53 bits, no exponent below -1074, and infinite from 2^1024. *)
Definition double_of (p q : Z) : number :=
  if p =? 0 then Int 0
  else
    let e0 := Z.log2 p - Z.log2 q - 52 in
    let e1 := if fst (scaled p q e0) / snd (scaled p q e0) <? 2 ^ 52
              then e0 - 1 else e0 in
    let e := Z.max e1 (-1074) in
    let m := round_half_even (fst (scaled p q e)) (snd (scaled p q e)) in
    if 0 <=? e then
      if 2 ^ 1024 <=? m * 2 ^ e then NotInt else Int (m * 2 ^ e)
    else if m mod 2 ^ (- e) =? 0 then Int (m / 2 ^ (- e))
    else NotInt.

(** The double nearest to [mantissa * 10^scale], where [mantissa] is
    written with [len] digits: beyond 10^310 it is infinite, and below
    10^-330 it is 0. *)
Definition decimal_value (mantissa len scale : Z) : number :=
  if mantissa =? 0 then Int 0
  else if 310 <? scale then NotInt
  else if len + scale <? -330 then Int 0
  else if 0 <=? scale then double_of (mantissa * 10 ^ scale) 1
  else double_of mantissa (10 ^ (- scale)).

(** What follows the mantissa: nothing, or e or E and a signed integer. *)
Definition exponent_part (l : list ascii) : option Z :=
  match l with
  | [] => Some 0
  | c :: l' =>
      if Ascii.eqb c "e" || Ascii.eqb c "E" then
        let signed :=
          match l' with
          | s :: l'' =>
              if Ascii.eqb s "+" then (1, l'')
              else if Ascii.eqb s "-" then (-1, l'')
              else (1, l')
          | [] => (1, l')
          end in
        match numeral 10 (snd signed) 0 0 with
        | (v, len, []) => if len =? 0 then None else Some (fst signed * v)
        | _ => None
        end
      else None
  end.

(** Digits, then a point and digits, then an exponent; there is a digit
    before or after the point. *)
Definition unsigned_decimal (l : list ascii) : number :=
  match numeral 10 l 0 0 with
  | (i, ilen, rest) =>
      match rest with
      | c :: after =>
          if Ascii.eqb c "." then
            match numeral 10 after i ilen with
            | (m, len, rest') =>
                if len =? 0 then NotInt
                else
                  match exponent_part rest' with
                  | Some e => decimal_value m len (e - (len - ilen))
                  | None => NotInt
                  end
            end
          else if ilen =? 0 then NotInt
          else
            match exponent_part rest with
            | Some e => decimal_value i ilen e
            | None => NotInt
            end
      | [] => if ilen =? 0 then NotInt else decimal_value i ilen 0
      end
  end.

(** The digits in [base] after a prefix: at least one, and nothing else. *)
Definition prefixed (base : Z) (l : list ascii) : number :=
  match numeral base l 0 0 with
  | (v, len, []) => if len =? 0 then NotInt else double_of v 1
  | _ => NotInt
  end.

Definition negate (n : number) : number :=
  match n with
  | Int k => Int (- k)
  | NotInt => NotInt
  end.

Definition to_number (s : string) : number :=
  match chars (trim s) with
  | [] => Int 0
  | c :: l =>
      if Ascii.eqb c "+" then unsigned_decimal l
      else if Ascii.eqb c "-" then negate (unsigned_decimal l)
      else
        match l with
        | p :: l' =>
            if Ascii.eqb c "0" && (Ascii.eqb p "x" || Ascii.eqb p "X")
            then prefixed 16 l'
            else if Ascii.eqb c "0" && (Ascii.eqb p "o" || Ascii.eqb p "O")
            then prefixed 8 l'
            else if Ascii.eqb c "0" && (Ascii.eqb p "b" || Ascii.eqb p "B")
            then prefixed 2 l'
            else unsigned_decimal (c :: l)
        | [] => unsigned_decimal (c :: l)
        end
  end.

End Js.

(** ** Options (constructor, lines 22-28) *)

(** The [options] object as the caller passes it. *)
Record RawOptions := mkRawOptions {
  raw_questionDuration : option Z;
  raw_timeBetweenQuestion : option Z;
  raw_timeBeforeTip : option Z;
  raw_nickServPassword : option string;
  raw_continuousNoAnswer : option Z
}.

(** [this.options] once the constructor has filled it in. *)
Record Options := mkOptions {
  questionDuration : Z;
  timeBetweenQuestion : Z;
  timeBeforeTip : Z;
  nickServPassword : option string;
  continuousNoAnswer : Z
}.

(** [a < b] and [a > b] where [a] may be undefined: a comparison with
    undefined is false. *)
Definition lt_number (a : option Z) (b : Z) : bool :=
  match a with Some n => n <? b | None => false end.

Definition gt_number (a : option Z) (b : Z) : bool :=
  match a with Some n => b <? n | None => false end.

(** [options.questionDuration < 10000 ? 10000 : options.questionDuration || 25000] *)
Definition effective_questionDuration (raw : RawOptions) : Z :=
  if lt_number (raw_questionDuration raw) 10000 then 10000
  else Js.or_default (raw_questionDuration raw) 25000.

(** [(options.timeBeforeTip > this.options.questionDuration
      ? Math.floor(this.options.questionDuration / 2)
      : options.timeBeforeTip) || 10000] *)
Definition effective_timeBeforeTip (raw : RawOptions) : Z :=
  let qd := effective_questionDuration raw in
  Js.or_default
    (if gt_number (raw_timeBeforeTip raw) qd then Some (qd / 2)
     else raw_timeBeforeTip raw)
    10000.

Definition effective_options (raw : RawOptions) : Options :=
  {| questionDuration := effective_questionDuration raw;
     timeBetweenQuestion := Js.or_default (raw_timeBetweenQuestion raw) 15000;
     timeBeforeTip := effective_timeBeforeTip raw;
     nickServPassword :=
       match raw_nickServPassword raw with
       | Some "" | None => None
       | Some pw => Some pw
       end;
     continuousNoAnswer := Js.or_default (raw_continuousNoAnswer raw) 8 |}.

(** ** Questions and users *)

(** Modelled from the spec: class Question (question.js is not in src/). A
    question is an immutable record of a prompt, its accepted answers and an
    optional tip; [new Question(data)] keeps the fields of [data]. An answer
    is [None] where the loader passed [undefined]. *)
Record Question := mkQuestion {
  question : string;
  answers : list (option string);
  tip : option string
}.

Definition new_Question (data : Question) : Question := data.

(** Modelled from the spec: class User (user.js is not in src/), the
    per-player counters of the scoreboard. *)
Record User := mkUser {
  name : string;
  points : Z;
  answers_given : Z;
  goodAnswers : Z;
  quizzStarted : Z;
  quizzStopped : Z
}.

Definition new_User (n : string) : User :=
  {| name := n; points := 0; answers_given := 0; goodAnswers := 0;
     quizzStarted := 0; quizzStopped := 0 |}.

(** Modelled from the spec: User#incrementPoints, recordCorrect's point. *)
Definition incrementPoints (u : User) : User :=
  {| name := name u; points := points u + 1; answers_given := answers_given u;
     goodAnswers := goodAnswers u; quizzStarted := quizzStarted u;
     quizzStopped := quizzStopped u |}.

(** Modelled from the spec: User#plusAnswer, recordIncorrect: the total of
    answers only. *)
Definition plusAnswer (u : User) : User :=
  {| name := name u; points := points u; answers_given := answers_given u + 1;
     goodAnswers := goodAnswers u; quizzStarted := quizzStarted u;
     quizzStopped := quizzStopped u |}.

(** Modelled from the spec: User#plusGoodAnswer, recordCorrect's credit: one
    correct answer, which is also one answer (Scenario C, and correct answers
    never exceed the total). *)
Definition plusGoodAnswer (u : User) : User :=
  {| name := name u; points := points u; answers_given := answers_given u + 1;
     goodAnswers := goodAnswers u + 1; quizzStarted := quizzStarted u;
     quizzStopped := quizzStopped u |}.

(** [user.quizzStarted++] and [user.quizzStopped++]. *)
Definition started (u : User) : User :=
  {| name := name u; points := points u; answers_given := answers_given u;
     goodAnswers := goodAnswers u; quizzStarted := quizzStarted u + 1;
     quizzStopped := quizzStopped u |}.

Definition stopped (u : User) : User :=
  {| name := name u; points := points u; answers_given := answers_given u;
     goodAnswers := goodAnswers u; quizzStarted := quizzStarted u;
     quizzStopped := quizzStopped u + 1 |}.

(** ** What the bot sends *)

(** A localized message: the key given to [i18n.__] and its arguments. A
    duration is kept in milliseconds (the source divides it by 1000 for
    display). *)
Inductive Text :=
| nextQuestionIn (ms : Z)
| noGoodAnswer
| questionEndingIn (ms : Z)
| goodAnswer (who : string) (pts : Z)
| requestedStartQuizz (who : string)
| startingQuizz
| requestedStopQuizz (who : string)
| stoppingQuizzForInactivity
| stoppingQuizz
| langSet
| standBy
| questionInQuizz (n : nat)
| startCommandMessage
| help_lang
| langList
| userStats (who : string)
| userDoesNotExists (who : string)
| topUsers (limit : option string)
| help
| help_header (cmd : string)
| requiresToBeOp
| help_of (cmd : string)
| identify (password : string)
| verbatim (s : string).

(** One observable action, in the order the bot performs them. *)
Inductive Effect :=
| Say (target : string) (t : Text)
| AskQuestion (q : Question) (to : string)
| DisplayAnswer (q : Question) (to : string)
| DisplayTip (q : Question) (to : string)
| SaveUserlist
| SetLocale (lang : string)
| ConsoleLog (s : string).

(** ** Timers *)

Definition TimerId := nat.

(** The three closures of [game] that are handed to [setTimeout], with the
    variables they capture. *)
Inductive Callback :=
| NextQuestion (user : option string) (to message : string) (nextQuestion : Question)
| TotalTime (user : option string) (to message : string)
| EndingSoon (to : string).

Record Timer := mkTimer {
  tid : TimerId;
  deadline : Z;
  callback : Callback
}.

(** ** The collaborators of the session *)

(** What quizzbot.js takes from modules that are not in src/ and from the
    runtime: the selection policy of question.js (it may keep a cursor or a
    random seed, the state of type [Sel]), the matching of an answer, the operator
    status the transport reports, ToNumber on an argument, and the files. *)
Class Env (Sel : Type) := {
  getNextQuestion : list Question -> Sel -> option Question * Sel;
  isGoodAnswer : Question -> string -> bool;
  isOp : string -> string -> bool;
  toNumber : string -> Js.number;
  readFileSync : string -> option string;
  require : string -> option (list Question)
}.

(** ** The session state *)

(** The fields of the [QuizzBot] object (constructor, lines 30-37), with the
    bot's name and channels that [init] captures. A timer field holds the
    handle [setTimeout] returned, [None] while it is still null. *)
Record Bot := mkBot {
  botName : string;
  channels : list string;
  options : Options;
  questionFiles : list string;
  running : bool;
  currentQuestion : option Question;
  currentTotalTimer : option TimerId;
  currentEndingSoonTimer : option TimerId;
  nextQuestionTimer : option TimerId;
  questions : list Question;
  continuousNoAnswerCount : Z
}.

Definition set_questionFiles (v : list string) (b : Bot) : Bot :=
  mkBot (botName b) (channels b) (options b) v (running b)
    (currentQuestion b) (currentTotalTimer b) (currentEndingSoonTimer b)
    (nextQuestionTimer b) (questions b) (continuousNoAnswerCount b).

Definition set_running (v : bool) (b : Bot) : Bot :=
  mkBot (botName b) (channels b) (options b) (questionFiles b) v
    (currentQuestion b) (currentTotalTimer b) (currentEndingSoonTimer b)
    (nextQuestionTimer b) (questions b) (continuousNoAnswerCount b).

Definition set_currentQuestion (v : option Question) (b : Bot) : Bot :=
  mkBot (botName b) (channels b) (options b) (questionFiles b) (running b)
    v (currentTotalTimer b) (currentEndingSoonTimer b)
    (nextQuestionTimer b) (questions b) (continuousNoAnswerCount b).

Definition set_currentTotalTimer (v : option TimerId) (b : Bot) : Bot :=
  mkBot (botName b) (channels b) (options b) (questionFiles b) (running b)
    (currentQuestion b) v (currentEndingSoonTimer b)
    (nextQuestionTimer b) (questions b) (continuousNoAnswerCount b).

Definition set_currentEndingSoonTimer (v : option TimerId) (b : Bot) : Bot :=
  mkBot (botName b) (channels b) (options b) (questionFiles b) (running b)
    (currentQuestion b) (currentTotalTimer b) v
    (nextQuestionTimer b) (questions b) (continuousNoAnswerCount b).

Definition set_nextQuestionTimer (v : option TimerId) (b : Bot) : Bot :=
  mkBot (botName b) (channels b) (options b) (questionFiles b) (running b)
    (currentQuestion b) (currentTotalTimer b) (currentEndingSoonTimer b)
    v (questions b) (continuousNoAnswerCount b).

Definition set_questions (v : list Question) (b : Bot) : Bot :=
  mkBot (botName b) (channels b) (options b) (questionFiles b) (running b)
    (currentQuestion b) (currentTotalTimer b) (currentEndingSoonTimer b)
    (nextQuestionTimer b) v (continuousNoAnswerCount b).

Definition set_continuousNoAnswerCount (v : Z) (b : Bot) : Bot :=
  mkBot (botName b) (channels b) (options b) (questionFiles b) (running b)
    (currentQuestion b) (currentTotalTimer b) (currentEndingSoonTimer b)
    (nextQuestionTimer b) (questions b) v.

Section Session.

Context {Sel : Type} `{E : Env Sel}.

(** What the runtime and the other modules hold: the event loop's clock
    (milliseconds) and pending timers in the order they were armed, the
    next timer handle, the user registry of user.js keyed by name, the
    state of the selection policy, and everything sent so far. *)
Record World := mkWorld {
  clock : Z;
  timers : list Timer;
  nextTimerId : TimerId;
  users : gmap string User;
  sel : Sel;
  sent : list Effect
}.

Definition set_clock (v : Z) (w : World) : World :=
  mkWorld v (timers w) (nextTimerId w) (users w) (sel w) (sent w).
Definition set_timers (v : list Timer) (w : World) : World :=
  mkWorld (clock w) v (nextTimerId w) (users w) (sel w) (sent w).
Definition set_nextTimerId (v : TimerId) (w : World) : World :=
  mkWorld (clock w) (timers w) v (users w) (sel w) (sent w).
Definition set_users (v : gmap string User) (w : World) : World :=
  mkWorld (clock w) (timers w) (nextTimerId w) v (sel w) (sent w).
Definition set_sel (v : Sel) (w : World) : World :=
  mkWorld (clock w) (timers w) (nextTimerId w) (users w) v (sent w).
Definition set_sent (v : list Effect) (w : World) : World :=
  mkWorld (clock w) (timers w) (nextTimerId w) (users w) (sel w) v.

Record Session := mkSession {
  bot : Bot;
  world : World
}.

(** ** The monad of methods *)

(** What a method can throw: reading a property of null, and a file or
    module that cannot be read. *)
Inductive JsError :=
| TypeError (reading : string)
| CannotRead (file : string).

Inductive Outcome (A : Type) :=
| Ret (a : A) (s : Session)
| Throw (e : JsError) (s : Session).
Arguments Ret {A} a s.
Arguments Throw {A} e s.

Definition M (A : Type) : Type := Session -> Outcome A.

#[global] Instance M_ret : MRet M := fun A a s => Ret a s.

#[global] Instance M_bind : MBind M := fun A B f m s =>
  match m s with
  | Ret a s' => f a s'
  | Throw e s' => Throw e s'
  end.

Definition throw {A} (e : JsError) : M A := fun s => Throw e s.
Definition self : M Bot := fun s => Ret (bot s) s.
Definition the_world : M World := fun s => Ret (world s) s.
Definition update (f : Bot -> Bot) : M unit :=
  fun s => Ret tt (mkSession (f (bot s)) (world s)).
Definition update_world (f : World -> World) : M unit :=
  fun s => Ret tt (mkSession (bot s) (f (world s))).

(** [l.forEach(f)] *)
Fixpoint forEach {A} (l : list A) (f : A -> M unit) : M unit :=
  match l with
  | [] => mret tt
  | x :: l' => f x ;; forEach l' f
  end.

(** One action on the outside world, appended to what was sent. *)
Definition emit (e : Effect) : M unit :=
  update_world (fun w => set_sent (sent w ++ [e]) w).

Definition ircBot_say (target : string) (t : Text) : M unit :=
  emit (Say target t).

(** ** Timers of the event loop *)

(** Node arms a timer whose delay is below 1 or above 2^31-1 with a delay
    of 1. *)
Definition timer_delay (ms : Z) : Z :=
  if (1 <=? ms) && (ms <=? 2147483647) then ms else 1.

Definition setTimeout (cb : Callback) (ms : Z) : M TimerId :=
  w ← the_world;
  let id := nextTimerId w in
  update_world (fun w =>
    set_nextTimerId (S id)
      (set_timers (timers w ++ [mkTimer id (clock w + timer_delay ms) cb]) w)) ;;
  mret id.

Definition without (id : TimerId) (l : list Timer) : list Timer :=
  filter (fun t => tid t ≠ id) l.

(** The pending timers once [clearTimeout(h)] has run. *)
Definition cancel (h : option TimerId) (l : list Timer) : list Timer :=
  match h with
  | Some id => without id l
  | None => l
  end.

(** [clearTimeout(h)]: nothing happens for null or for a timer that is no
    longer pending. *)
Definition clearTimeout (h : option TimerId) : M unit :=
  match h with
  | Some id => update_world (fun w => set_timers (without id (timers w)) w)
  | None => mret tt
  end.

(** ** The user registry *)

(** Modelled from the spec: User.getUser of user.js, getOrCreate(name,
    channel): the record of that name, created with zero counters when
    absent. The result is the reference through which the record is read
    and updated, its key. *)
Definition User_getUser (from to : string) : M string :=
  update_world (fun w =>
    match users w !! from with
    | Some _ => w
    | None => set_users (<[from := new_User from]> (users w)) w
    end) ;;
  mret from.

(** Following a reference that may be null; reading a property of null
    throws. *)
Definition deref (user : option string) (property : string) : M string :=
  match user with
  | Some u => mret u
  | None => throw (TypeError property)
  end.

Definition the_user (u : string) : M User :=
  w ← the_world; mret (default (new_User u) (users w !! u)).

(** A method of class User that updates the record in place. *)
Definition user_update (u : string) (f : User -> User) : M unit :=
  update_world (fun w =>
    set_users (<[u := f (default (new_User u) (users w !! u))]> (users w)) w).

Definition User_saveUserlist : M unit := emit SaveUserlist.

(** [user !== null && !user.isOp(self, to)] *)
Definition not_an_operator (user : option string) (to : string) : bool :=
  match user with
  | Some u => negb (isOp u to)
  | None => false
  end.

(** ** loadQuestions (lines 86-111) *)

(** [file.substr((~-file.lastIndexOf(".") >>> 0) + 2)]: what follows the
    last dot, and the empty string when there is no dot or the name starts
    with its only dot. *)
Definition extension (file : string) : string :=
  Js.substr (Js.to_uint32 (Z.lnot (- Js.lastIndexOf "." file)) + 2) file.

(** The body of [array.forEach] for a text bank: the line is split at
    backslashes, the second piece is trimmed when there is one, and a
    question is built from the first two pieces either way. *)
Definition question_of_line (line : string) : Question :=
  let splitedLine := Js.split "\" line in
  let answer :=
    match splitedLine !! 1%nat with
    | Some a => Some (Js.trim a)
    | None => None
    end in
  new_Question
    {| question := default "" (splitedLine !! 0%nat);
       answers := [answer];
       tip := None |}.

Definition push_question (q : Question) : M unit :=
  update (fun b => set_questions (questions b ++ [q]) b).

Definition load_file (file : string) : M unit :=
  let ext := extension file in
  if String.eqb ext "json" then
    match require file with
    | Some db => forEach db (fun q => push_question (new_Question q))
    | None => throw (CannotRead file)
    end
  else if String.eqb ext "txt" then
    match readFileSync file with
    | Some content =>
        forEach (Js.split_lines content)
          (fun line => push_question (question_of_line line))
    | None => throw (CannotRead file)
    end
  else mret tt.

Definition loadQuestions : M unit :=
  update (set_questions []) ;;
  b ← self;
  forEach (questionFiles b) load_file.

(** ** clearGame (lines 148-153) *)

Definition clearGame : M unit :=
  update (set_currentQuestion None) ;;
  b ← self;
  clearTimeout (currentEndingSoonTimer b) ;;
  clearTimeout (currentTotalTimer b).

(** The pending timers once clearGame has cancelled the two timers of the
    current question, and once a stop has cancelled the next-question
    timer as well. *)
Definition after_clearGame (b : Bot) (l : list Timer) : list Timer :=
  cancel (currentTotalTimer b) (cancel (currentEndingSoonTimer b) l).

Definition after_stop (b : Bot) (l : list Timer) : list Timer :=
  cancel (nextQuestionTimer b) (after_clearGame b l).

(** ** stopCommand (lines 304-324) *)

Definition stopCommand (user : option string) (to message : string) : M unit :=
  b ← self;
  if running b then
    if not_an_operator user to then mret tt
    else
      update (set_running false) ;;
      clearGame ;;
      b ← self;
      clearTimeout (nextQuestionTimer b) ;;
      match user with
      | Some u =>
          user_update u stopped ;;
          r ← the_user u;
          ircBot_say to (requestedStopQuizz (name r))
      | None => mret tt
      end ;;
      b ← self;
      (if continuousNoAnswer (options b) <=? continuousNoAnswerCount b
       then ircBot_say to stoppingQuizzForInactivity
       else ircBot_say to stoppingQuizz) ;;
      User_saveUserlist
  else mret tt.

(** ** game (lines 113-146) *)

(** [Question.getNextQuestion(self.questions)]: the policy's answer, [None]
    for null, and the policy's new state. *)
Definition Question_getNextQuestion : M (option Question) :=
  b ← self;
  w ← the_world;
  let r := getNextQuestion (questions b) (sel w) in
  update_world (set_sel (snd r)) ;;
  mret (fst r).

(** The first statement of [game]: the forced question when there is one,
    else the policy's choice. *)
Definition select (forcedQuestion : option Question) : M (option Question) :=
  match forcedQuestion with
  | None => Question_getNextQuestion
  | Some q => mret (Some q)
  end.

(** What [select] returns in the state [s]. *)
Definition selected (forcedQuestion : option Question) (s : Session)
    : option Question :=
  match forcedQuestion with
  | Some q => Some q
  | None => fst (getNextQuestion (questions (bot s)) (sel (world s)))
  end.

Definition game (user : option string) (to message : string)
    (forcedQuestion : option Question) : M unit :=
  nextQuestion ← select forcedQuestion;
  b ← self;
  match nextQuestion with
  | Some q =>
      if continuousNoAnswerCount b <? continuousNoAnswer (options b) then
        ircBot_say to (nextQuestionIn (timeBetweenQuestion (options b))) ;;
        t ← setTimeout (NextQuestion user to message q)
              (timeBetweenQuestion (options b));
        update (set_nextQuestionTimer (Some t))
      else stopCommand None to message
  | None => stopCommand None to message
  end.

(** [self.currentQuestion.m(...)]: throws while currentQuestion is null. *)
Definition current_question (method : string) : M Question :=
  b ← self;
  match currentQuestion b with
  | Some q => mret q
  | None => throw (TypeError method)
  end.

(** The event loop runs a timer's closure. *)
Definition fire (cb : Callback) : M unit :=
  match cb with
  | NextQuestion user to message nextQuestion =>
      update (set_currentQuestion (Some nextQuestion)) ;;
      emit (AskQuestion nextQuestion to) ;;
      b ← self;
      t ← setTimeout (TotalTime user to message) (questionDuration (options b));
      update (set_currentTotalTimer (Some t)) ;;
      e ← setTimeout (EndingSoon to)
            (questionDuration (options b) - timeBeforeTip (options b));
      update (set_currentEndingSoonTimer (Some e))
  | TotalTime user to message =>
      ircBot_say to noGoodAnswer ;;
      q ← current_question "displayAnswer";
      emit (DisplayAnswer q to) ;;
      update (fun b =>
        set_continuousNoAnswerCount (continuousNoAnswerCount b + 1) b) ;;
      clearGame ;;
      User_saveUserlist ;;
      game user to message None
  | EndingSoon to =>
      b ← self;
      ircBot_say to (questionEndingIn (timeBeforeTip (options b))) ;;
      q ← current_question "displayTip";
      emit (DisplayTip q to)
  end.

(** ** handleAnswer (lines 251-270) *)

(** Question#isGoodAnswer calls its callback before it returns. *)
Definition handleAnswer (user : option string) (to message : string) : M unit :=
  b ← self;
  match currentQuestion b with
  | Some q =>
      if isGoodAnswer q message then
        u ← deref user "incrementPoints";
        user_update u incrementPoints ;;
        user_update u plusGoodAnswer ;;
        r ← the_user u;
        ircBot_say to (goodAnswer (name r) (points r)) ;;
        q' ← current_question "displayAnswer";
        emit (DisplayAnswer q' to) ;;
        update (set_continuousNoAnswerCount 0) ;;
        clearGame ;;
        User_saveUserlist ;;
        game user to message None
      else
        u ← deref user "plusAnswer";
        user_update u plusAnswer
  | None => mret tt
  end.

(** ** startCommand (lines 281-293) *)

Definition startCommand (user : option string) (to message : string)
    (noGame : bool) : M unit :=
  b ← self;
  if negb (running b) then
    update (set_running true) ;;
    u ← deref user "name";
    r ← the_user u;
    ircBot_say to (requestedStartQuizz (name r)) ;;
    ircBot_say to startingQuizz ;;
    user_update u started ;;
    update (set_continuousNoAnswerCount 0) ;;
    if noGame then mret tt else game user to message None
  else mret tt.

(** ** askQuestionCommand (lines 375-385) *)

(** [self.questions[args[0] - 1]]: undefined minus one is not a number. *)
Definition forced_question (pool : list Question) (args : list string)
    : option Question :=
  Js.index_minus_one pool
    match args with
    | a :: _ => toNumber a
    | [] => Js.NotInt
    end.

Definition askQuestionCommand (user : option string) (to message : string)
    (args : list string) : M unit :=
  if not_an_operator user to then mret tt
  else
    b ← self;
    (if negb (running b) then startCommand user to message true
     else mret tt) ;;
    clearGame ;;
    b ← self;
    game user to message (forced_question (questions b) args).

(** ** The other commands (lines 179-189 and 337-532)

    None of them writes a field of the session. The texts that top.js,
    database.js and the locale files compute are kept as their keys. *)

Definition setLang (lang : string) (chan : option string) : M unit :=
  emit (SetLocale lang) ;;
  match chan with
  | Some c => ircBot_say c langSet
  | None =>
      b ← self;
      forEach (channels b) (fun c => ircBot_say c langSet)
  end.

Definition langCommand (user : option string) (to message : string)
    (args : list string) : M unit :=
  if not_an_operator user to then mret tt
  else
    match args with
    | a :: _ => setLang a None
    | [] => ircBot_say to help_lang ;; ircBot_say to langList
    end.

Definition statsCommand (user : option string) (to message : string)
    (args : list string) : M unit :=
  match args with
  | a :: _ =>
      if String.eqb a "" then
        u ← deref user "name"; r ← the_user u;
        ircBot_say (name r) (userStats (name r))
      else
        w ← the_world;
        match users w !! a with
        | Some found =>
            u ← deref user "name"; r ← the_user u;
            who ← User_getUser (name found) to;
            ircBot_say (name r) (userStats who)
        | None =>
            u ← deref user "name"; r ← the_user u;
            ircBot_say (name r) (userDoesNotExists a)
        end
  | [] =>
      u ← deref user "name"; r ← the_user u;
      ircBot_say (name r) (userStats (name r))
  end.

Definition topCommand (user : option string) (to message : string)
    (args : list string) : M unit :=
  let topString := topUsers (head args) in
  if not_an_operator user to then
    u ← deref user "name"; r ← the_user u;
    ircBot_say (name r) topString
  else
    u ← deref user "isOp";
    if isOp u to then ircBot_say to topString else mret tt.

Definition helpCommand (user : option string) (to message : string)
    (args : list string) : M unit :=
  u ← deref user "name"; r ← the_user u;
  let header cmd := ircBot_say (name r) (help_header cmd) in
  match args with
  | [] => ircBot_say (name r) help
  | a :: _ =>
      if String.eqb a "start" then
        header a ;; ircBot_say (name r) (help_of a)
      else if String.eqb a "stop" || String.eqb a "ask" || String.eqb a "say" then
        header a ;; ircBot_say (name r) requiresToBeOp ;;
        ircBot_say (name r) (help_of a)
      else if String.eqb a "lang" then
        header a ;; ircBot_say (name r) requiresToBeOp ;;
        ircBot_say (name r) help_lang ;; ircBot_say (name r) langList
      else if String.eqb a "top" || String.eqb a "stats" then
        header a ;; ircBot_say (name r) (help_of a)
      else ircBot_say (name r) help
  end.

(** [args.join(' ')] *)
Fixpoint join (args : list string) : string :=
  match args with
  | [] => ""
  | [a] => a
  | a :: rest => a +:+ " " +:+ join rest
  end.

Definition sayCommand (user : option string) (to message : string)
    (args : list string) : M unit :=
  if not_an_operator user to then mret tt
  else ircBot_say to (verbatim (join args)).

Definition testCommand (user : option string) (to message : string)
    (args : list string) : M unit :=
  if not_an_operator user to then mret tt
  else
    u ← deref user "name"; r ← the_user u;
    who ← User_getUser (name r) to;
    emit (ConsoleLog who).

(** ** handleCommand (lines 209-243) *)

Definition handleCommand (user : option string) (to message : string) : M unit :=
  let command := default "" (head (Js.split " " message)) in
  let args := tail (Js.split " " message) in
  if String.eqb command "!start" then startCommand user to message false
  else if String.eqb command "!stop" then stopCommand user to message
  else if String.eqb command "!lang" then langCommand user to message args
  else if String.eqb command "!ask" then askQuestionCommand user to message args
  else if String.eqb command "!stats" then statsCommand user to message args
  else if String.eqb command "!top" then topCommand user to message args
  else if String.eqb command "!help" then helpCommand user to message args
  else if String.eqb command "!say" then sayCommand user to message args
  else if String.eqb command "!test" then testCommand user to message args
  else mret tt.

(** ** The message listener (init, lines 70-78) *)

Inductive Route :=
| ToCommand
| ToAnswer
| Dropped.

(** [message.length > 1 && message.charAt(0) === '!'] *)
Definition is_command (message : string) : bool :=
  match message with
  | String c (String _ _) => Ascii.eqb c "!"
  | _ => false
  end.

(** [x !== null] *)
Definition not_null {A} (x : option A) : bool :=
  match x with Some _ => true | None => false end.

(** The two conditions of the listener, in their order. *)
Definition route (b : Bot) (from message : string) : Route :=
  if negb (String.eqb from (botName b)) && is_command message then ToCommand
  else if running b && not_null (currentQuestion b)
          && negb (String.eqb from (botName b)) then ToAnswer
  else Dropped.

Definition on_message (from to message : string) : M unit :=
  user ← User_getUser from to;
  b ← self;
  match route b from message with
  | ToCommand => handleCommand (Some user) to message
  | ToAnswer => handleAnswer (Some user) to message
  | Dropped => mret tt
  end.

(** ** Construction and start-up (lines 21-81, 159-201) *)

Definition new_QuizzBot (botName : string) (channels questionDatabases : list string)
    (raw : RawOptions) : Bot :=
  {| botName := botName;
     channels := channels;
     options := effective_options raw;
     questionFiles := questionDatabases;
     running := false;
     currentQuestion := None;
     currentTotalTimer := None;
     currentEndingSoonTimer := None;
     nextQuestionTimer := None;
     questions := [];
     continuousNoAnswerCount := 0 |}.

Definition standByMessage : M unit :=
  b ← self;
  forEach (channels b) (fun chan =>
    ircBot_say chan standBy ;;
    ircBot_say chan (questionInQuizz (length (questions b))) ;;
    ircBot_say chan startCommandMessage).

(** What [init] does once the bot is connected, before it listens. *)
Definition connected : M unit :=
  b ← self;
  match nickServPassword (options b) with
  | Some pw => ircBot_say "NickServ" (identify pw)
  | None => mret tt
  end ;;
  emit (ConsoleLog (botName b)) ;;
  loadQuestions ;;
  standByMessage.

Definition addFile (file : string) : M unit :=
  update (fun b => set_questionFiles (questionFiles b ++ [file]) b) ;;
  loadQuestions.

Definition changeFiles (files : list string) : M unit :=
  update (set_questionFiles files) ;;
  loadQuestions.

(** ** The event loop *)

(** A chat line that arrives [elapsed] milliseconds after the previous
    event, or the expiry of a pending timer. *)
Inductive Event :=
| Message (elapsed : Z) (from to message : string)
| Expire (id : TimerId).

Definition pending (id : TimerId) (w : World) : option Timer :=
  List.find (fun t => Nat.eqb (tid t) id) (timers w).

(** No pending timer is due strictly before [time]. *)
Definition none_due_before (time : Z) (w : World) : bool :=
  forallb (fun t => time <=? deadline t) (timers w).

(** One turn of the loop; [None] when the event cannot happen now: a line
    does not arrive after the deadline of a timer that is still pending,
    and a timer expires only when none is due before it. The timer that
    expires leaves the pending ones before its closure runs. *)
Definition step (ev : Event) (s : Session) : option (Outcome unit) :=
  let w := world s in
  match ev with
  | Message elapsed from to message =>
      if (0 <=? elapsed) && none_due_before (clock w + elapsed) w then
        Some ((update_world (set_clock (clock w + elapsed)) ;;
               on_message from to message) s)
      else None
  | Expire id =>
      match pending id w with
      | Some t =>
          if none_due_before (deadline t) w then
            Some ((update_world (fun w =>
                     set_clock (Z.max (clock w) (deadline t))
                       (set_timers (without id (timers w)) w)) ;;
                   fire (callback t)) s)
          else None
      | None => None
      end
  end.

(** Where a sequence of events leaves the session. An uncaught error ends
    the process. *)
Inductive Status :=
| Alive (s : Session)
| Crashed (e : JsError) (s : Session)
| Impossible.

Fixpoint run (evs : list Event) (s : Session) : Status :=
  match evs with
  | [] => Alive s
  | ev :: rest =>
      match step ev s with
      | Some (Ret _ s') => run rest s'
      | Some (Throw e s') => Crashed e s'
      | None => Impossible
      end
  end.

(** The states the event loop can reach from [s]. *)
Inductive reaches (s : Session) : Session -> Prop :=
| reaches_here : reaches s s
| reaches_step ev s1 s2 :
    reaches s s1 -> step ev s1 = Some (Ret tt s2) -> reaches s s2.

(** ** The states of the session

    The pending timers that go with the fields of the bot: none while it is
    idle, the next-question timer while the next question is awaited, the
    total timer and the tip timer while a question is current, and the total
    timer alone once the tip has been given. *)
Inductive shape (b : Bot) : list Timer -> Prop :=
| shape_idle :
    running b = false -> currentQuestion b = None -> shape b []
| shape_awaiting t user to message q :
    running b = true -> currentQuestion b = None ->
    nextQuestionTimer b = Some (tid t) ->
    callback t = NextQuestion user to message q ->
    shape b [t]
| shape_active total soon q user to message to' :
    running b = true -> currentQuestion b = Some q ->
    currentTotalTimer b = Some (tid total) ->
    currentEndingSoonTimer b = Some (tid soon) ->
    tid total <> tid soon ->
    callback total = TotalTime user to message ->
    callback soon = EndingSoon to' ->
    shape b [total; soon]
| shape_tipped total q user to message :
    running b = true -> currentQuestion b = Some q ->
    currentTotalTimer b = Some (tid total) ->
    callback total = TotalTime user to message ->
    shape b [total].

Definition consistent (s : Session) : Prop :=
  shape (bot s) (timers (world s)).

(** A method that writes no field of the bot and neither arms nor cancels
    a timer. *)
Definition keeps {A} (m : M A) : Prop :=
  forall s a s', m s = Ret a s' ->
    bot s' = bot s /\ timers (world s') = timers (world s).

(** An ask of an operator that arrives while the next question is awaited:
    the session is running and no question is current. *)
Definition early_ask (ev : Event) (s : Session) : bool :=
  match ev with
  | Message _ from to message =>
      negb (String.eqb from (botName (bot s)))
      && is_command message
      && String.eqb (default "" (head (Js.split " " message))) "!ask"
      && isOp from to
      && running (bot s)
      && negb (not_null (currentQuestion (bot s)))
  | Expire _ => false
  end.

(** The states the event loop reaches from [s] with no such ask. *)
Inductive reaches_without_early_ask (s : Session) : Session -> Prop :=
| without_early_ask_here : reaches_without_early_ask s s
| without_early_ask_step ev s1 s2 :
    reaches_without_early_ask s s1 ->
    early_ask ev s1 = false ->
    step ev s1 = Some (Ret tt s2) ->
    reaches_without_early_ask s s2.

(** ** The pool as a function of the files

    What one file contributes to the pool: its records or its lines, nothing
    for an extension that is neither json nor txt, and [None] when the file
    cannot be read. *)
Definition bank_of (file : string) : option (list Question) :=
  if String.eqb (extension file) "json" then
    option_map (map new_Question) (require file)
  else if String.eqb (extension file) "txt" then
    option_map (fun content => map question_of_line (Js.split_lines content))
      (readFileSync file)
  else Some [].

(** The banks of the files one after the other, [None] when one of them
    cannot be read. *)
Fixpoint pool_of (files : list string) : option (list Question) :=
  match files with
  | [] => Some []
  | file :: rest =>
      match bank_of file, pool_of rest with
      | Some bank, Some others => Some (bank ++ others)%list
      | _, _ => None
      end
  end.

(** What the bot says on one channel when it stands by with a pool of [n]
    questions. *)
Definition stand_by_on (n : nat) (chan : string) : list Effect :=
  [Say chan standBy; Say chan (questionInQuizz n); Say chan startCommandMessage].

(** The count of unanswered questions is not negative, and it is below the
    limit while the session is running. *)
Definition within_limit (b : Bot) : Prop :=
  0 <= continuousNoAnswerCount b
  /\ (running b = true ->
      continuousNoAnswerCount b < continuousNoAnswer (options b)).

(** What a command that only answers [u] in private makes of the session
    [s]: no field of the bot and no timer changes, and it sends at least
    one message, each of them to the name of [u]'s record. *)
Definition replied_in_private (u : string) (s s' : Session) : Prop :=
  bot s' = bot s
  /\ timers (world s') = timers (world s)
  /\ exists said,
       sent (world s') = (sent (world s) ++ said)%list
       /\ said <> []
       /\ Forall
            (fun e => exists t,
               e = Say (name (default (new_User u) (users (world s) !! u))) t)
            said.

End Session.

Arguments World Sel : clear implicits.
Arguments Session Sel : clear implicits.
Arguments Outcome Sel A : clear implicits.
Arguments Status Sel : clear implicits.
Arguments Ret {Sel A} a s.
Arguments Throw {Sel A} e s.

(** The text of a file whose lines end with [eol]; the last line has no
    line ending. *)
Fixpoint unlines (eol : list ascii) (lines : list (list ascii)) : list ascii :=
  match lines with
  | [] => []
  | [line] => line
  | line :: rest => line ++ eol ++ unlines eol rest
  end.

(** ** A concrete session *)

Module Demo.

(** Modelled from the spec: Question#isGoodAnswer of question.js, the
    contract matches(candidateText): case and surrounding white space are
    normalized on the candidate and on each accepted answer, and the
    candidate matches when it equals one of them. *)
Definition lower (c : ascii) : ascii :=
  let n := nat_of_ascii c in
  if Nat.leb 65 n && Nat.leb n 90 then ascii_of_nat (n + 32) else c.

Definition normalize (s : string) : string :=
  Js.str (map lower (Js.chars (Js.trim s))).

Definition matches (q : Question) (candidateText : string) : bool :=
  existsb
    (fun a =>
       match a with
       | Some accepted => String.eqb (normalize accepted) (normalize candidateText)
       | None => false
       end)
    (answers q).

(** Modelled from the spec: Question.getNextQuestion of question.js with
    the sequential policy: a cursor into the pool, and no question (null)
    once the pool is exhausted. *)
Definition sequential (pool : list Question) (cursor : nat)
    : option Question * nat :=
  (pool !! cursor, S cursor).

Definition q1 : Question := mkQuestion "2+2?" [Some "4"] None.
Definition q2 : Question := mkQuestion "Capital of France?" [Some "Paris"] None.
Definition q3 : Question := mkQuestion "3+3?" [Some "6"] None.

(** A text bank whose second line has no backslash. *)
Definition bank_txt : string :=
  "2+2?\4" +:+ String Js.LF "no delimiter here" +:+ String Js.LF "3+3?\ 6 ".

(** alice is the operator of the channel; the files are bank.json (q1, q2,
    q3), one.json (q1) and bank.txt. *)
#[global] Instance env : Env nat := {|
  getNextQuestion := sequential;
  isGoodAnswer := matches;
  isOp := fun user chan => String.eqb user "alice";
  toNumber := Js.to_number;
  readFileSync := fun file =>
    if String.eqb file "bank.txt" then Some bank_txt else None;
  require := fun file =>
    if String.eqb file "bank.json" then Some [q1; q2; q3]
    else if String.eqb file "one.json" then Some [q1]
    else None
|}.

Definition chan : string := "#quizz".

Definition boot (files : list string) (raw : RawOptions) : Session nat :=
  mkSession (new_QuizzBot "QuizzBot" [chan] files raw)
    (mkWorld 0 [] 0%nat ∅ 0%nat []).

Definition defaults : RawOptions := mkRawOptions None None None None None.

(** The session once connected, or the session as it was when start-up
    threw. *)
Definition started_up (files : list string) (raw : RawOptions) : Session nat :=
  match connected (boot files raw) with
  | Ret _ s => s
  | Throw _ s => s
  end.

(** Where a sequence of events leaves a session (the session itself when
    the events cannot happen). *)
Definition after (evs : list Event) (s : Session nat) : Session nat :=
  match run evs s with
  | Alive s' => s'
  | Crashed _ s' => s'
  | Impossible => s
  end.

(** The bank of one question; bob starts the quizz and the question is
    asked. *)
Definition one_asked : Session nat :=
  after [Message 0 "bob" chan "!start"; Expire 0%nat]
    (started_up ["one.json"] defaults).

(** The session of the bank of three questions, connected and idle. *)
Definition idle : Session nat := started_up ["bank.json"] defaults.

(** bob starts the quizz; then the first question is asked. *)
Definition bob_started : Session nat :=
  after [Message 0 "bob" chan "!start"] idle.

Definition bank_asked : Session nat := after [Expire 0%nat] bob_started.

(** alice, an operator, asks for question 7 of the three; then the timer
    that this ask armed expires. *)
Definition seven_asked : Session nat :=
  after [Message 1000 "alice" chan "!ask 7"] bank_asked.

Definition seven_expired : Session nat := after [Expire 3%nat] seven_asked.

(** alice gives the answer of the only question of one.json. *)
Definition one_answered : Session nat :=
  after [Message 1000 "alice" chan " 4 "] one_asked.

(** The session of bank.txt once connected. *)
Definition text_loaded : Session nat := started_up ["bank.txt"] defaults.

(** bob starts the quizz and alice, an operator, asks for question 3 before
    the first question has been asked. *)
Definition asked_early : Session nat :=
  after [Message 1000 "bob" chan "!start"; Message 5000 "alice" chan "!ask 3"]
    idle.

(** Both next-question timers expire, the one of the start and the one of
    the ask. *)
Definition asked_twice : Session nat :=
  after [Expire 0%nat; Expire 1%nat] asked_early.

(** Nobody answers: the timers run out in the order of their deadlines. *)
Definition resolved_early : Session nat :=
  after [Expire 3%nat; Expire 5%nat; Expire 2%nat] asked_twice.

(** Or carol gives the answer of question 3, and then the tip timer armed
    for question 1 expires. *)
Definition carol_answered : Session nat :=
  after [Message 1000 "carol" chan "6"] asked_twice.

Definition tip_after_answer : Session nat :=
  after [Expire 3%nat] carol_answered.

(** Or alice stops the quizz right after her ask, and then the
    next-question timer of the start expires. *)
Definition stopped_early : Session nat :=
  after [Message 1000 "alice" chan "!stop"] asked_early.

Definition asked_while_stopped : Session nat :=
  after [Expire 0%nat] stopped_early.

(** The same on the bank of one question: bob starts the quizz, alice asks
    for question 1 before it has been asked and stops the quizz right
    after; the next-question timer of the start expires all the same, and
    then the tip timer of the question it asked. *)
Definition one_asked_while_stopped : Session nat :=
  after [Message 1000 "bob" chan "!start"; Message 5000 "alice" chan "!ask 1";
         Message 1000 "alice" chan "!stop"; Expire 0%nat; Expire 3%nat]
    (started_up ["one.json"] defaults).

(** Nobody answers, and the total timer of that question expires at 41000.
    Its closure says that there was no good answer, displays the answer,
    counts the question, clears it and saves: the state in which the closure
    then calls game. *)
Definition one_resolved_while_stopped : Session nat :=
  mkSession
    (set_currentQuestion None
       (set_continuousNoAnswerCount 1 (bot one_asked_while_stopped)))
    (set_clock 41000
       (set_timers []
          (set_sent
             (sent (world one_asked_while_stopped) ++
                [Say chan noGoodAnswer; DisplayAnswer q1 chan; SaveUserlist])
             (world one_asked_while_stopped)))).

Definition one_unanswered_while_stopped : Session nat :=
  after [Expire 2%nat] one_asked_while_stopped.

(** bob asks for help about stop while question 1 is current. *)
Definition bob_helped : Session nat :=
  match helpCommand (Some "bob") chan "!help stop" ["stop"] bank_asked with
  | Ret _ s => s
  | Throw _ s => s
  end.

(** Nobody answers question 1 of the bank of three: the tip is given, the
    question is resolved and question 2 is scheduled. *)
Definition unanswered_once : Session nat :=
  after [Expire 2%nat; Expire 1%nat] bank_asked.

(** The bank of three questions with a limit of -1 unanswered questions. *)
Definition no_patience : Session nat :=
  started_up ["bank.json"] (mkRawOptions None None None None (Some (-1))).

End Demo.

(** * Properties *)

(** Unfolds the plumbing of the monad and the record projections it leaves
    behind. *)
Ltac monad :=
  repeat (progress (
    unfold mbind, M_bind, mret, M_ret, throw, self, the_world, update,
      update_world, emit, ircBot_say, User_saveUserlist in *;
    cbn beta iota delta [bot world] in *)).

Ltac monad_in H :=
  repeat (progress (
    unfold mbind, M_bind, mret, M_ret, throw, self, the_world, update,
      update_world, emit, ircBot_say, User_saveUserlist in H;
    cbn beta iota delta [bot world] in H)).

(** ** Options *)

Lemma effective_questionDuration_floor (raw : RawOptions) :
  10000 <= effective_questionDuration raw.
Proof.
  unfold effective_questionDuration, lt_number, Js.or_default.
  destruct (raw_questionDuration raw) as [n|]; [|lia].
  destruct (Z.ltb_spec n 10000); [lia|].
  destruct (Z.eqb_spec n 0); lia.
Qed.

(** C8: a configured questionDuration strictly below 10000 milliseconds
    gives the session an effective question duration of exactly 10000. *)
Theorem questionDuration_clamped_to_floor
    (botName : string) (channels files : list string)
    (raw : RawOptions) (configured : Z) :
  raw_questionDuration raw = Some configured ->
  configured < 10000 ->
  questionDuration (options (new_QuizzBot botName channels files raw)) = 10000.
Proof.
  intros Hraw Hlt. cbn.
  unfold effective_questionDuration, lt_number. rewrite Hraw.
  destruct (Z.ltb_spec configured 10000); [reflexivity | lia].
Qed.

Lemma questionDuration_clamped_to_floor_witness :
  questionDuration
    (options (new_QuizzBot "QuizzBot" [Demo.chan] ["bank.json"]
                (mkRawOptions (Some 5000) None None None None))) = 10000.
Proof.
  apply (questionDuration_clamped_to_floor "QuizzBot" [Demo.chan] ["bank.json"]
           (mkRawOptions (Some 5000) None None None None) 5000).
  - reflexivity.
  - reflexivity.
Defined.

(** C7, as stated, fails: with questionDuration 25000 and timeBeforeTip
    20000 the configured lead is kept, and it is more than half the
    duration. *)
Lemma timeBeforeTip_above_half :
  timeBeforeTip (effective_options (mkRawOptions (Some 25000) None (Some 20000) None None))
    = 20000
  /\ ~ 2 * timeBeforeTip (effective_options (mkRawOptions (Some 25000) None (Some 20000) None None))
       <= questionDuration (effective_options (mkRawOptions (Some 25000) None (Some 20000) None None)).
Proof. split; [reflexivity | vm_compute; intros H; apply H; reflexivity]. Qed.

(** C7, amended: a configured timeBeforeTip above the effective
    questionDuration is replaced by floor(questionDuration/2), which is at
    most half the duration; a configured value that is not above the
    duration is kept, and 10000 stands in for an absent or zero value; in
    every case the effective lead is at most the effective duration, so the
    delay of the tip timer is never negative. *)
Theorem timeBeforeTip_clamped (raw : RawOptions) :
  let o := effective_options raw in
  (forall t, raw_timeBeforeTip raw = Some t -> questionDuration o < t ->
     timeBeforeTip o = questionDuration o / 2
     /\ 2 * timeBeforeTip o <= questionDuration o)
  /\ (forall t, raw_timeBeforeTip raw = Some t -> t <= questionDuration o ->
        t <> 0 -> timeBeforeTip o = t)
  /\ (raw_timeBeforeTip raw = None \/ raw_timeBeforeTip raw = Some 0 ->
        timeBeforeTip o = 10000)
  /\ timeBeforeTip o <= questionDuration o
  /\ 0 <= questionDuration o - timeBeforeTip o.
Proof.
  cbn. pose proof (effective_questionDuration_floor raw) as Hqd.
  unfold effective_timeBeforeTip, gt_number, Js.or_default.
  set (qd := effective_questionDuration raw) in *.
  assert (Hhalf : 0 < qd / 2) by (apply Z.div_str_pos; lia).
  assert (Hle : 2 * (qd / 2) <= qd) by (apply Z.mul_div_le; lia).
  repeat split.
  - rewrite H. destruct (Z.ltb_spec qd t); [|lia].
    destruct (Z.eqb_spec (qd / 2) 0); lia.
  - rewrite H. destruct (Z.ltb_spec qd t); [|lia].
    destruct (Z.eqb_spec (qd / 2) 0); lia.
  - intros t Ht Hle' Hnz. rewrite Ht.
    destruct (Z.ltb_spec qd t); [lia|].
    destruct (Z.eqb_spec t 0); [lia | reflexivity].
  - intros [Ht | Ht]; rewrite Ht; [reflexivity|].
    destruct (Z.ltb_spec qd 0); [lia | reflexivity].
  - destruct (raw_timeBeforeTip raw) as [t|]; [|lia].
    destruct (Z.ltb_spec qd t).
    + destruct (Z.eqb_spec (qd / 2) 0); lia.
    + destruct (Z.eqb_spec t 0); lia.
  - destruct (raw_timeBeforeTip raw) as [t|]; [|lia].
    destruct (Z.ltb_spec qd t).
    + destruct (Z.eqb_spec (qd / 2) 0); lia.
    + destruct (Z.eqb_spec t 0); lia.
Qed.

Lemma timeBeforeTip_clamped_witness :
  timeBeforeTip (effective_options (mkRawOptions (Some 20000) None (Some 30000) None None))
    = 10000.
Proof.
  destruct (timeBeforeTip_clamped (mkRawOptions (Some 20000) None (Some 30000) None None))
    as [Habove _].
  destruct (Habove 30000) as [Heq _].
  - reflexivity.
  - reflexivity.
  - exact Heq.
Defined.

(** ** The listener *)

Section Listener.

Context {Sel : Type} `{E : Env Sel}.

Lemma route_own_message (b : Bot) (message : string) :
  route b (botName b) message = Dropped.
Proof.
  unfold route. rewrite String.eqb_refl. cbn.
  rewrite andb_false_r. reflexivity.
Qed.

Lemma route_not_command (b : Bot) (from message : string) :
  is_command message = false -> route b from message <> ToCommand.
Proof.
  unfold route. intros ->. rewrite andb_false_r.
  destruct (running b && not_null (currentQuestion b)
            && negb (String.eqb from (botName b))); discriminate.
Qed.

Lemma route_answer (b : Bot) (from message : string) :
  is_command message = false ->
  route b from message = ToAnswer <->
  running b = true /\ currentQuestion b <> None /\ from <> botName b.
Proof.
  unfold route. intros ->. rewrite andb_false_r.
  destruct (String.eqb_spec from (botName b)) as [Heq | Hne];
    destruct (running b); destruct (currentQuestion b); cbn;
    split; try discriminate; try (intros (? & ? & ?); congruence);
    intros _; repeat split; congruence.
Qed.

(** C10: a message whose sender is the bot itself is dropped, whatever its
    content and the state of the session: it reaches neither
    handleCommand nor handleAnswer, and the listener only looks the
    sender up; a message that does not start with the marker, or that is
    no longer than one character, is never routed to handleCommand, and
    it is routed to handleAnswer exactly when the session is running, a
    question is current and the sender is not the bot. *)
Theorem listener_routes (s : Session Sel) (from to message : string) :
  (from = botName (bot s) ->
     route (bot s) from message = Dropped
     /\ on_message from to message s = (User_getUser from to ;; mret tt) s)
  /\ (is_command message = false ->
        route (bot s) from message <> ToCommand
        /\ (route (bot s) from message = ToAnswer <->
            running (bot s) = true /\ currentQuestion (bot s) <> None
            /\ from <> botName (bot s))
        /\ on_message from to message s =
             (user ← User_getUser from to;
              if running (bot s) && not_null (currentQuestion (bot s))
                 && negb (String.eqb from (botName (bot s)))
              then handleAnswer (Some user) to message
              else mret tt) s).
Proof.
  split.
  - intros ->. split; [apply route_own_message|].
    unfold on_message, User_getUser. monad.
    rewrite route_own_message. reflexivity.
  - intros Hcmd. split; [now apply route_not_command|].
    split; [now apply route_answer|].
    unfold on_message, User_getUser. monad.
    unfold route. rewrite Hcmd, andb_false_r.
    destruct (running (bot s) && not_null (currentQuestion (bot s))
              && negb (String.eqb from (botName (bot s)))); reflexivity.
Qed.

End Listener.

(** The bot's own line, even one that spells a command, changes nothing but
    the registry entry of its name; a plain line from a player while no
    question is current is not evaluated. *)
Lemma listener_routes_witness :
  on_message "QuizzBot" Demo.chan "!stop" Demo.idle
    = (User_getUser "QuizzBot" Demo.chan ;; mret tt)
        Demo.idle
  /\ route (bot Demo.idle) "bob" "4" <> ToCommand.
Proof.
  split.
  - destruct (listener_routes Demo.idle
                "QuizzBot" Demo.chan "!stop") as [Hown _].
    destruct Hown as [_ Hsame]; [reflexivity | exact Hsame].
  - destruct (listener_routes Demo.idle
                "bob" Demo.chan "4") as [_ Hplain].
    destruct Hplain as [Hno _]; [reflexivity | exact Hno].
Defined.

(** ** The question cycle *)

Section Cycle.

Context {Sel : Type} `{E : Env Sel}.

Lemma clearGame_returns (s : Session Sel) :
  exists s', clearGame s = Ret tt s'
    /\ bot s' = set_currentQuestion None (bot s)
    /\ timers (world s') = after_clearGame (bot s) (timers (world s))
    /\ clock (world s') = clock (world s)
    /\ nextTimerId (world s') = nextTimerId (world s)
    /\ users (world s') = users (world s)
    /\ sel (world s') = sel (world s)
    /\ sent (world s') = sent (world s).
Proof.
  destruct s as [b w]. destruct b, w.
  unfold clearGame, clearTimeout. monad. cbn.
  destruct currentEndingSoonTimer0, currentTotalTimer0; monad; cbn;
    eexists; (split; [reflexivity|]); cbn; repeat split.
Qed.

Lemma stop_by_the_session (s : Session Sel) (to message : string) :
  running (bot s) = true ->
  exists s', stopCommand None to message s = Ret tt s'
    /\ bot s' = set_currentQuestion None (set_running false (bot s))
    /\ timers (world s') = after_stop (bot s) (timers (world s))
    /\ sent (world s') =
         (sent (world s) ++
            [Say to (if continuousNoAnswer (options (bot s))
                          <=? continuousNoAnswerCount (bot s)
                     then stoppingQuizzForInactivity else stoppingQuizz);
             SaveUserlist])%list
    /\ clock (world s') = clock (world s)
    /\ nextTimerId (world s') = nextTimerId (world s)
    /\ users (world s') = users (world s)
    /\ sel (world s') = sel (world s).
Proof.
  destruct s as [b w]. destruct b, w. cbn. intros ->.
  unfold stopCommand, clearGame, clearTimeout, not_an_operator. monad. cbn.
  destruct currentEndingSoonTimer0, currentTotalTimer0, nextQuestionTimer0;
    monad; cbn;
    destruct (continuousNoAnswer options0 <=? continuousNoAnswerCount0);
    monad; cbn;
    eexists; (split; [reflexivity|]); cbn; rewrite <- ?app_assoc;
    repeat split.
Qed.

Lemma select_returns (forced : option Question) (s : Session Sel) :
  exists s', select forced s = Ret (selected forced s) s'
    /\ bot s' = bot s
    /\ timers (world s') = timers (world s)
    /\ sent (world s') = sent (world s)
    /\ clock (world s') = clock (world s)
    /\ nextTimerId (world s') = nextTimerId (world s)
    /\ users (world s') = users (world s).
Proof.
  destruct s as [b w]. destruct w.
  unfold select, selected, Question_getNextQuestion.
  destruct forced; monad; cbn; eexists; (split; [reflexivity|]);
    cbn; repeat split.
Qed.

Lemma game_as_stop (s : Session Sel) (user : option string) (to message : string)
    (forced : option Question) :
  selected forced s = None
  \/ continuousNoAnswer (options (bot s)) <= continuousNoAnswerCount (bot s) ->
  game user to message forced s
    = (select forced ;; stopCommand None to message) s.
Proof.
  intros Hcond. unfold game. monad.
  destruct (select_returns forced s) as (s1 & Hsel & Hbot & _).
  rewrite Hsel. rewrite Hbot.
  destruct Hcond as [Hnone | Hlimit].
  - rewrite Hnone. reflexivity.
  - destruct (selected forced s); [|reflexivity].
    destruct (Z.ltb_spec (continuousNoAnswerCount (bot s))
                (continuousNoAnswer (options (bot s)))); [lia | reflexivity].
Qed.

(** The cycle arms the next-question timer, and only that, when it has a
    question and the limit is not reached. *)
Lemma game_arms (s : Session Sel) (user : option string) (to message : string)
    (forced : option Question) (q : Question) :
  selected forced s = Some q ->
  continuousNoAnswerCount (bot s) < continuousNoAnswer (options (bot s)) ->
  exists s', game user to message forced s = Ret tt s'
    /\ bot s' = set_nextQuestionTimer (Some (nextTimerId (world s))) (bot s)
    /\ timers (world s') =
         (timers (world s) ++
            [mkTimer (nextTimerId (world s))
               (clock (world s) + timer_delay (timeBetweenQuestion (options (bot s))))
               (NextQuestion user to message q)])%list
    /\ sent (world s') =
         (sent (world s) ++
            [Say to (nextQuestionIn (timeBetweenQuestion (options (bot s))))])%list
    /\ clock (world s') = clock (world s)
    /\ nextTimerId (world s') = S (nextTimerId (world s))
    /\ users (world s') = users (world s).
Proof.
  intros Hsel Hlt. destruct s as [b w]. destruct b, w.
  unfold game, select, selected, Question_getNextQuestion, setTimeout in *.
  cbn in *.
  apply Z.ltb_lt in Hlt.
  destruct forced as [f|]; monad; cbn in *.
  - injection Hsel as ->. rewrite Hlt. monad. cbn.
    eexists. split; [reflexivity|]. cbn. repeat split.
  - rewrite Hsel, Hlt. monad. cbn.
    eexists. split; [reflexivity|]. cbn. repeat split.
Qed.

(** C3, amended: when the cycle runs and there is no next question (no
    forced question and the policy returns null) or the count of unanswered
    questions has reached the limit, the cycle calls stop with a null
    requester and arms no timer; when the session is running at that
    point, that stop sets running to false, clears the current question,
    cancels the three timers and announces the inactivity message exactly
    when the count has reached the limit, the normal message otherwise,
    then saves. *)
Theorem cycle_without_question_stops (s : Session Sel)
    (user : option string) (to message : string) (forced : option Question) :
  selected forced s = None
  \/ continuousNoAnswer (options (bot s)) <= continuousNoAnswerCount (bot s) ->
  game user to message forced s
    = (select forced ;; stopCommand None to message) s
  /\ (running (bot s) = true ->
      exists s', game user to message forced s = Ret tt s'
        /\ running (bot s') = false
        /\ currentQuestion (bot s') = None
        /\ timers (world s') = after_stop (bot s) (timers (world s))
        /\ sent (world s') =
             (sent (world s) ++
                [Say to (if continuousNoAnswer (options (bot s))
                              <=? continuousNoAnswerCount (bot s)
                         then stoppingQuizzForInactivity else stoppingQuizz);
                 SaveUserlist])%list).
Proof.
  intros Hcond.
  pose proof (game_as_stop s user to message forced Hcond) as Hgame.
  split; [exact Hgame|].
  intros Hrun. rewrite Hgame. monad.
  destruct (select_returns forced s)
    as (s1 & Hsel & Hbot & Htimers & Hsent & _).
  rewrite Hsel.
  destruct (stop_by_the_session s1 to message) as
    (s' & Hstop & Hbot' & Htimers' & Hsent' & _);
    [rewrite Hbot; exact Hrun|].
  exists s'. rewrite Hstop, Hbot', Htimers', Hsent', Hbot, Htimers, Hsent.
  repeat split.
Qed.

End Cycle.

(** C3, as stated, fails where the cycle runs in a session that is not
    running. On the bank of one question bob starts the quizz, alice asks
    for question 1 before it has been asked and stops the quizz; the
    next-question timer of the start is still pending and asks question 1
    in the stopped session. When the total timer of that question expires,
    its closure calls game; no question is left, game calls stop with a
    null requester, and that stop announces neither message: the event
    sends what the closure itself sends and nothing more. *)
Lemma cycle_in_stopped_session_announces_nothing :
  run [Message 1000 "bob" Demo.chan "!start";
       Message 5000 "alice" Demo.chan "!ask 1";
       Message 1000 "alice" Demo.chan "!stop";
       Expire 0%nat; Expire 3%nat]
      (Demo.started_up ["one.json"] Demo.defaults)
    = Alive Demo.one_asked_while_stopped
  /\ timers (world Demo.one_asked_while_stopped)
       = [mkTimer 2%nat 41000 (TotalTime (Some "bob") Demo.chan "!start")]
  /\ run [Expire 2%nat] Demo.one_asked_while_stopped
       = Alive Demo.one_unanswered_while_stopped
  /\ sent (world Demo.one_unanswered_while_stopped)
       = (sent (world Demo.one_asked_while_stopped) ++
            [Say Demo.chan noGoodAnswer; DisplayAnswer Demo.q1 Demo.chan;
             SaveUserlist])%list
  /\ running (bot Demo.one_resolved_while_stopped) = false
  /\ continuousNoAnswerCount (bot Demo.one_resolved_while_stopped) = 1
  /\ continuousNoAnswer (options (bot Demo.one_resolved_while_stopped)) = 8
  /\ selected None Demo.one_resolved_while_stopped = None
  /\ game (Some "bob") Demo.chan "!start" None Demo.one_resolved_while_stopped
       = Ret tt Demo.one_unanswered_while_stopped
  /\ sent (world Demo.one_unanswered_while_stopped)
       = sent (world Demo.one_resolved_while_stopped).
Proof. vm_compute. repeat split. Qed.

(** A pool of one question that has been asked: the cycle that follows finds
    the pool exhausted and stops with the normal message. *)
Lemma cycle_without_question_stops_witness :
  game (Some "bob") Demo.chan "!start" None Demo.one_asked
    = (select None ;; stopCommand None Demo.chan "!start") Demo.one_asked
  /\ exists s', game (Some "bob") Demo.chan "!start" None Demo.one_asked = Ret tt s'
       /\ running (bot s') = false
       /\ currentQuestion (bot s') = None
       /\ timers (world s') = after_stop (bot Demo.one_asked) (timers (world Demo.one_asked))
       /\ sent (world s') =
            (sent (world Demo.one_asked) ++
               [Say Demo.chan
                  (if continuousNoAnswer (options (bot Demo.one_asked))
                        <=? continuousNoAnswerCount (bot Demo.one_asked)
                   then stoppingQuizzForInactivity else stoppingQuizz);
                SaveUserlist])%list.
Proof.
  destruct (cycle_without_question_stops Demo.one_asked (Some "bob") Demo.chan
              "!start" None) as [Hstop Hrunning].
  - left. vm_compute. reflexivity.
  - split; [exact Hstop|]. apply Hrunning. vm_compute. reflexivity.
Defined.

(** ** start *)

(** C4, as stated, fails: bob is not an operator of the channel, and his
    start sets running, announces the quizz and arms the next-question
    timer. *)
Lemma start_by_non_operator :
  isOp "bob" Demo.chan = false
  /\ run [Message 0 "bob" Demo.chan "!start"] Demo.idle = Alive Demo.bob_started
  /\ running (bot Demo.idle) = false
  /\ running (bot Demo.bob_started) = true
  /\ sent (world Demo.bob_started) =
       (sent (world Demo.idle) ++
          [Say Demo.chan (requestedStartQuizz "bob");
           Say Demo.chan startingQuizz;
           Say Demo.chan (nextQuestionIn 15000)])%list
  /\ timers (world Demo.bob_started) =
       [mkTimer 0%nat 15000 (NextQuestion (Some "bob") Demo.chan "!start" Demo.q1)].
Proof. vm_compute. repeat split. Qed.

Section Start.

Context {Sel : Type} `{E : Env Sel}.

(** C4, amended: start has an effect only while running is false, and it
    checks no operator status: for every requester that is not null,
    operator or not, it sets running, announces the start in the
    requester's name, counts the start for the requester, resets the count
    of unanswered questions to 0 and enters the question cycle; while
    running is true it changes nothing. *)
Theorem start_only_from_idle (s : Session Sel) (u to message : string) :
  (running (bot s) = true ->
     forall (user : option string) (noGame : bool),
       startCommand user to message noGame s = Ret tt s)
  /\ (running (bot s) = false ->
      let r := default (new_User u) (users (world s) !! u) in
      exists s1,
        startCommand (Some u) to message false s
          = game (Some u) to message None s1
        /\ bot s1 = set_continuousNoAnswerCount 0 (set_running true (bot s))
        /\ sent (world s1) =
             (sent (world s) ++
                [Say to (requestedStartQuizz (name r)); Say to startingQuizz])%list
        /\ users (world s1) = <[u := started r]> (users (world s))
        /\ timers (world s1) = timers (world s)
        /\ clock (world s1) = clock (world s)
        /\ nextTimerId (world s1) = nextTimerId (world s)
        /\ sel (world s1) = sel (world s)).
Proof.
  split.
  - intros Hrun user noGame. unfold startCommand. monad. rewrite Hrun.
    reflexivity.
  - intros Hidle r. subst r. destruct s as [b w]. destruct b, w.
    cbn in Hidle. subst.
    unfold startCommand, deref, the_user, user_update. monad. cbn.
    eexists. split; [reflexivity|]. cbn. rewrite <- app_assoc.
    repeat split.
Qed.

End Start.

(** bob, who is no operator, starts the idle session. *)
Lemma start_only_from_idle_witness :
  exists s1,
    startCommand (Some "bob") Demo.chan "!start" false
      Demo.idle
      = game (Some "bob") Demo.chan "!start" None s1
    /\ running (bot s1) = true
    /\ continuousNoAnswerCount (bot s1) = 0.
Proof.
  destruct (start_only_from_idle Demo.idle
              "bob" Demo.chan "!start") as [_ Hidle].
  destruct Hidle as (s1 & Hstart & Hbot & _); [reflexivity|].
  exists s1. rewrite Hbot. split; [exact Hstart|]. split; reflexivity.
Defined.

(** ** ask *)

(** C5, as stated, fails: the pool has three questions and alice, an
    operator, asks for question 7 while question 1 is current. The session
    does not stop: the policy's next question of the pool is announced and
    then asked. *)
Lemma ask_invalid_index_asks_from_pool :
  forced_question (questions (bot Demo.bank_asked)) ["7"] = None
  /\ isOp "alice" Demo.chan = true
  /\ currentQuestion (bot Demo.bank_asked) = Some Demo.q1
  /\ run [Message 1000 "alice" Demo.chan "!ask 7"] Demo.bank_asked
       = Alive Demo.seven_asked
  /\ running (bot Demo.seven_asked) = true
  /\ timers (world Demo.seven_asked) =
       [mkTimer 3%nat 31000
          (NextQuestion (Some "alice") Demo.chan "!ask 7" Demo.q2)]
  /\ run [Expire 3%nat] Demo.seven_asked = Alive Demo.seven_expired
  /\ running (bot Demo.seven_expired) = true
  /\ currentQuestion (bot Demo.seven_expired) = Some Demo.q2
  /\ last (sent (world Demo.seven_expired)) = Some (AskQuestion Demo.q2 Demo.chan).
Proof. vm_compute. repeat split. Qed.

Section Ask.

Context {Sel : Type} `{E : Env Sel}.

Lemma start_without_game (s : Session Sel) (u to message : string) :
  running (bot s) = false ->
  exists s1, startCommand (Some u) to message true s = Ret tt s1
    /\ bot s1 = set_continuousNoAnswerCount 0 (set_running true (bot s))
    /\ timers (world s1) = timers (world s)
    /\ clock (world s1) = clock (world s)
    /\ nextTimerId (world s1) = nextTimerId (world s)
    /\ sel (world s1) = sel (world s).
Proof.
  intros Hidle. destruct s as [b w]. destruct b, w. cbn in Hidle. subst.
  unfold startCommand, deref, the_user, user_update. monad. cbn.
  eexists. split; [reflexivity|]. cbn. repeat split.
Qed.

(** The session in which an operator's ask re-enters the cycle: started
    when it was idle, and cleared of the current question. *)
Lemma ask_prepares (s : Session Sel) (u to message : string) :
  exists s2,
    ((if negb (running (bot s)) then startCommand (Some u) to message true
      else mret tt) ;; clearGame) s = Ret tt s2
    /\ questions (bot s2) = questions (bot s)
    /\ options (bot s2) = options (bot s)
    /\ (running (bot s) = true ->
        bot s2 = set_currentQuestion None (bot s)
        /\ timers (world s2) = after_clearGame (bot s) (timers (world s))
        /\ sent (world s2) = sent (world s)
        /\ clock (world s2) = clock (world s)
        /\ nextTimerId (world s2) = nextTimerId (world s)
        /\ sel (world s2) = sel (world s)).
Proof.
  destruct (running (bot s)) eqn:Hrun; monad; cbn [negb].
  - destruct (clearGame_returns s)
      as (s2 & Hclear & Hbot & Htimers & Hclock & Hid & _ & Hsel & Hsent).
    exists s2. rewrite Hclear, Hbot. repeat split; assumption.
  - destruct (start_without_game s u to message Hrun) as (s1 & Hstart & Hbot1 & _).
    rewrite Hstart.
    destruct (clearGame_returns s1) as (s2 & Hclear & Hbot & _).
    exists s2. rewrite Hclear, Hbot, Hbot1.
    repeat split; discriminate.
Qed.

(** C5, amended: an index that denotes no question of the pool makes the
    ask of an operator an unforced cycle: the session is started if it was
    idle, the current question and its two timers are cleared, and the cycle
    asks the selection policy for the next question of the pool; in a
    running session that question is scheduled after timeBetweenQuestion
    when the policy returns one and the limit is not reached, and the
    session stops only when the policy returns none or the limit is
    reached. *)
Theorem ask_invalid_index_is_unforced (s : Session Sel) (u to message : string)
    (args : list string) :
  isOp u to = true ->
  forced_question (questions (bot s)) args = None ->
  askQuestionCommand (Some u) to message args s
    = ((if negb (running (bot s)) then startCommand (Some u) to message true
        else mret tt) ;;
       clearGame ;;
       game (Some u) to message None) s
  /\ (running (bot s) = true ->
      (forall next,
         fst (getNextQuestion (questions (bot s)) (sel (world s))) = Some next ->
         continuousNoAnswerCount (bot s) < continuousNoAnswer (options (bot s)) ->
         exists s', askQuestionCommand (Some u) to message args s = Ret tt s'
           /\ running (bot s') = true
           /\ currentQuestion (bot s') = None
           /\ timers (world s') =
                (after_clearGame (bot s) (timers (world s)) ++
                   [mkTimer (nextTimerId (world s))
                      (clock (world s)
                       + timer_delay (timeBetweenQuestion (options (bot s))))
                      (NextQuestion (Some u) to message next)])%list
           /\ sent (world s') =
                (sent (world s) ++
                   [Say to (nextQuestionIn (timeBetweenQuestion (options (bot s))))])%list)
      /\ (fst (getNextQuestion (questions (bot s)) (sel (world s))) = None
          \/ continuousNoAnswer (options (bot s)) <= continuousNoAnswerCount (bot s) ->
          exists s', askQuestionCommand (Some u) to message args s = Ret tt s'
            /\ running (bot s') = false)).
Proof.
  intros Hop Hforced.
  assert (Hask : askQuestionCommand (Some u) to message args s
            = ((if negb (running (bot s)) then startCommand (Some u) to message true
                else mret tt) ;;
               clearGame ;;
               game (Some u) to message None) s).
  { unfold askQuestionCommand, not_an_operator. rewrite Hop. cbn [negb].
    destruct (ask_prepares s u to message) as (s2 & Hprep & Hqs & _).
    monad. monad_in Hprep.
    destruct ((if negb (running (bot s))
               then startCommand (Some u) to message true
               else fun s0 => Ret tt s0) s) as [[] s1 | e s1]; [|reflexivity].
    rewrite Hprep, Hqs, Hforced. reflexivity. }
  split; [exact Hask|].
  intros Hrun.
  destruct (ask_prepares s u to message)
    as (s2 & Hprep & Hqs & Hopts & Hrunning).
  destruct (Hrunning Hrun) as (Hbot & Htimers & Hsent & Hclock & Hid & Hsel).
  assert (Hgame : askQuestionCommand (Some u) to message args s
                  = game (Some u) to message None s2).
  { rewrite Hask. monad. monad_in Hprep.
    destruct ((if negb (running (bot s))
               then startCommand (Some u) to message true
               else fun s0 => Ret tt s0) s) as [[] s1 | e s1]; [|discriminate].
    rewrite Hprep. reflexivity. }
  split.
  - intros next Hnext Hlt.
    destruct (game_arms s2 (Some u) to message None next)
      as (s' & Hg & Hbot' & Htimers' & Hsent' & _).
    + unfold selected. rewrite Hqs, Hsel. exact Hnext.
    + rewrite Hbot. exact Hlt.
    + exists s'. rewrite Hgame, Hg, Hbot', Htimers', Hsent', Hbot, Htimers,
        Hsent, Hclock, Hid.
      cbn. repeat split. exact Hrun.
  - intros Hcond.
    assert (Hcond2 : selected None s2 = None
                     \/ continuousNoAnswer (options (bot s2))
                        <= continuousNoAnswerCount (bot s2)).
    { unfold selected. rewrite Hqs, Hsel, Hbot. exact Hcond. }
    rewrite Hgame, (game_as_stop s2 (Some u) to message None Hcond2). monad.
    destruct (select_returns None s2) as (s3 & Hselect & Hbot3 & _).
    rewrite Hselect.
    destruct (stop_by_the_session s3 to message) as (s' & Hstop & Hbot' & _).
    + rewrite Hbot3, Hbot. exact Hrun.
    + exists s'. rewrite Hstop, Hbot'. split; reflexivity.
Qed.

End Ask.

(** alice asks for question 7 of a pool of three while question 1 is
    current: question 2, the policy's next, is scheduled. *)
Lemma ask_invalid_index_is_unforced_witness :
  exists s',
    askQuestionCommand (Some "alice") Demo.chan "!ask 7" ["7"] Demo.bank_asked
      = Ret tt s'
    /\ running (bot s') = true
    /\ currentQuestion (bot s') = None
    /\ timers (world s') =
         (after_clearGame (bot Demo.bank_asked) (timers (world Demo.bank_asked)) ++
            [mkTimer (nextTimerId (world Demo.bank_asked))
               (clock (world Demo.bank_asked)
                + timer_delay (timeBetweenQuestion (options (bot Demo.bank_asked))))
               (NextQuestion (Some "alice") Demo.chan "!ask 7" Demo.q2)])%list
    /\ sent (world s') =
         (sent (world Demo.bank_asked) ++
            [Say Demo.chan
               (nextQuestionIn (timeBetweenQuestion (options (bot Demo.bank_asked))))])%list.
Proof.
  destruct (ask_invalid_index_is_unforced Demo.bank_asked "alice" Demo.chan
              "!ask 7" ["7"]) as [_ Hrunning].
  - reflexivity.
  - vm_compute. reflexivity.
  - destruct Hrunning as [Harms _]; [vm_compute; reflexivity|].
    apply (Harms Demo.q2).
    + vm_compute. reflexivity.
    + vm_compute. reflexivity.
Defined.

(** ** A correct answer *)

(** C6, as stated, fails: the pool has one question, it is current, and
    alice gives its answer. She is credited and the answer is revealed, but
    no next cycle is scheduled: the policy has no question left and the
    session stops. *)
Lemma correct_answer_on_exhausted_pool :
  currentQuestion (bot Demo.one_asked) = Some Demo.q1
  /\ isGoodAnswer Demo.q1 " 4 " = true
  /\ run [Message 1000 "alice" Demo.chan " 4 "] Demo.one_asked
       = Alive Demo.one_answered
  /\ users (world Demo.one_answered) !! "alice" = Some (mkUser "alice" 1 1 1 0 0)
  /\ timers (world Demo.one_answered) = []
  /\ running (bot Demo.one_answered) = false
  /\ sent (world Demo.one_answered) =
       (sent (world Demo.one_asked) ++
          [Say Demo.chan (goodAnswer "alice" 1);
           DisplayAnswer Demo.q1 Demo.chan;
           SaveUserlist;
           Say Demo.chan stoppingQuizz;
           SaveUserlist])%list.
Proof. vm_compute. repeat split. Qed.

Section Answer.

Context {Sel : Type} `{E : Env Sel}.

(** What a correct answer does before it re-enters the cycle. *)
Lemma answer_scores (s : Session Sel) (u to message : string) (q : Question) :
  currentQuestion (bot s) = Some q ->
  isGoodAnswer q message = true ->
  let r := default (new_User u) (users (world s) !! u) in
  exists s1,
    handleAnswer (Some u) to message s = game (Some u) to message None s1
    /\ bot s1 = set_currentQuestion None (set_continuousNoAnswerCount 0 (bot s))
    /\ users (world s1) !! u = Some (plusGoodAnswer (incrementPoints r))
    /\ sent (world s1) =
         (sent (world s) ++
            [Say to (goodAnswer (name r) (points r + 1));
             DisplayAnswer q to;
             SaveUserlist])%list
    /\ timers (world s1) = after_clearGame (bot s) (timers (world s))
    /\ clock (world s1) = clock (world s)
    /\ nextTimerId (world s1) = nextTimerId (world s)
    /\ sel (world s1) = sel (world s).
Proof.
  intros Hq Hgood r. subst r. destruct s as [b w]. destruct b, w.
  cbn in Hq. subst.
  unfold handleAnswer, deref, user_update, the_user, current_question,
    clearGame, clearTimeout.
  monad. cbn. rewrite Hgood. monad. cbn.
  rewrite !lookup_insert_eq. cbn.
  destruct currentEndingSoonTimer0, currentTotalTimer0; monad; cbn;
    eexists; (split; [reflexivity|]); cbn; rewrite ?lookup_insert_eq;
    rewrite <- ?app_assoc; repeat split.
Qed.

(** C6, amended: an answer that matches the current question gives the
    answering user one point, one correct answer and one answer more,
    announces the success with the new total of points, reveals the answer,
    resets the count of unanswered questions to 0, clears the current
    question and cancels its two timers, saves the scores and re-enters the
    question cycle; the cycle schedules exactly one next question after
    timeBetweenQuestion when the selection policy returns a question and the
    limit is above 0, and otherwise stops the session instead. *)
Theorem correct_answer_resolves (s : Session Sel) (u to message : string)
    (q : Question) :
  currentQuestion (bot s) = Some q ->
  isGoodAnswer q message = true ->
  let r := default (new_User u) (users (world s) !! u) in
  let r' := plusGoodAnswer (incrementPoints r) in
  exists s1,
    handleAnswer (Some u) to message s = game (Some u) to message None s1
    /\ users (world s1) !! u = Some r'
    /\ points r' = points r + 1
    /\ goodAnswers r' = goodAnswers r + 1
    /\ answers_given r' = answers_given r + 1
    /\ sent (world s1) =
         (sent (world s) ++
            [Say to (goodAnswer (name r) (points r + 1));
             DisplayAnswer q to;
             SaveUserlist])%list
    /\ continuousNoAnswerCount (bot s1) = 0
    /\ currentQuestion (bot s1) = None
    /\ timers (world s1) = after_clearGame (bot s) (timers (world s))
    /\ (forall next,
          fst (getNextQuestion (questions (bot s)) (sel (world s))) = Some next ->
          0 < continuousNoAnswer (options (bot s)) ->
          exists s', handleAnswer (Some u) to message s = Ret tt s'
            /\ timers (world s') =
                 (after_clearGame (bot s) (timers (world s)) ++
                    [mkTimer (nextTimerId (world s))
                       (clock (world s)
                        + timer_delay (timeBetweenQuestion (options (bot s))))
                       (NextQuestion (Some u) to message next)])%list
            /\ nextQuestionTimer (bot s') = Some (nextTimerId (world s))
            /\ currentQuestion (bot s') = None
            /\ continuousNoAnswerCount (bot s') = 0
            /\ running (bot s') = running (bot s)
            /\ users (world s') !! u = Some r'
            /\ sent (world s') =
                 (sent (world s1) ++
                    [Say to (nextQuestionIn (timeBetweenQuestion (options (bot s))))])%list)
    /\ (fst (getNextQuestion (questions (bot s)) (sel (world s))) = None
        \/ continuousNoAnswer (options (bot s)) <= 0 ->
        handleAnswer (Some u) to message s
          = (select None ;; stopCommand None to message) s1).
Proof.
  intros Hq Hgood r r'.
  destruct (answer_scores s u to message q Hq Hgood)
    as (s1 & Hans & Hbot & Husers & Hsent & Htimers & Hclock & Hid & Hsel).
  fold r in Husers, Hsent. fold r' in Husers.
  exists s1. split; [exact Hans|]. split; [exact Husers|].
  split; [reflexivity|]. split; [reflexivity|]. split; [reflexivity|].
  split; [exact Hsent|].
  split; [rewrite Hbot; reflexivity|]. split; [rewrite Hbot; reflexivity|].
  split; [exact Htimers|].
  split.
  - intros next Hnext Hlimit.
    destruct (game_arms s1 (Some u) to message None next)
      as (s' & Hg & Hbot' & Htimers' & Hsent' & _ & _ & Husers').
    + unfold selected. rewrite Hbot, Hsel. exact Hnext.
    + rewrite Hbot. exact Hlimit.
    + exists s'. rewrite Hans, Hg, Hbot', Htimers', Hsent', Husers', Hbot,
        Htimers, Hclock, Hid.
      cbn. repeat split. exact Husers.
  - intros Hcond. rewrite Hans. apply game_as_stop.
    unfold selected. rewrite Hbot, Hsel. exact Hcond.
Qed.

End Answer.

(** alice answers question 1 of the bank of three: she has one point, and
    question 2 is scheduled. *)
Lemma correct_answer_resolves_witness :
  exists s1,
    handleAnswer (Some "alice") Demo.chan "4" Demo.bank_asked
      = game (Some "alice") Demo.chan "4" None s1
    /\ users (world s1) !! "alice" = Some (mkUser "alice" 1 1 1 0 0)
    /\ continuousNoAnswerCount (bot s1) = 0
    /\ currentQuestion (bot s1) = None
    /\ exists s', handleAnswer (Some "alice") Demo.chan "4" Demo.bank_asked = Ret tt s'
         /\ timers (world s') =
              [mkTimer 3%nat 30000
                 (NextQuestion (Some "alice") Demo.chan "4" Demo.q2)].
Proof.
  destruct (correct_answer_resolves Demo.bank_asked "alice" Demo.chan "4" Demo.q1)
    as (s1 & Hans & Husers & _ & _ & _ & _ & Hcount & Hcur & _ & Harms & _).
  - reflexivity.
  - reflexivity.
  - exists s1. split; [exact Hans|]. split; [exact Husers|].
    split; [exact Hcount|]. split; [exact Hcur|].
    destruct (Harms Demo.q2) as (s' & Hret & Htimers & _).
    + reflexivity.
    + reflexivity.
    + exists s'. split; [exact Hret|]. exact Htimers.
Defined.

(** ** Loading a text bank *)

(** C9, as stated, fails: the second line of bank.txt has no backslash, and
    loading puts a question for it into the pool, between the questions of
    the first and the third line. *)
Lemma line_without_delimiter_is_loaded :
  Js.split_lines Demo.bank_txt = ["2+2?\4"; "no delimiter here"; "3+3?\ 6 "]
  /\ connected (Demo.boot ["bank.txt"] Demo.defaults) = Ret tt Demo.text_loaded
  /\ questions (bot Demo.text_loaded) =
       [mkQuestion "2+2?" [Some "4"] None;
        mkQuestion "no delimiter here" [None] None;
        mkQuestion "3+3?" [Some "6"] None].
Proof. vm_compute. repeat split. Qed.

Lemma split_chars_without_separator (sep : ascii) (l : list ascii) :
  ~ In sep l -> Js.split_chars sep l = [l].
Proof.
  induction l as [|c l IH]; intros Hnot; [reflexivity|].
  cbn [Js.split_chars].
  destruct (Ascii.eqb_spec c sep) as [-> | Hne].
  - exfalso. apply Hnot. left. reflexivity.
  - rewrite IH; [reflexivity|]. intros Hin. apply Hnot. right. exact Hin.
Qed.

Section Loading.

Context {Sel : Type} `{E : Env Sel}.

(** A line without a backslash becomes a question whose prompt is the whole
    line and whose only answer is undefined. *)
Lemma question_of_line_without_delimiter (line : string) :
  ~ In "\"%char (Js.chars line) ->
  question_of_line line = mkQuestion line [None] None.
Proof.
  intros Hnot. unfold question_of_line, Js.split, new_Question.
  rewrite (split_chars_without_separator _ _ Hnot). cbn.
  unfold Js.str, Js.chars. rewrite string_of_list_ascii_of_string.
  reflexivity.
Qed.

Lemma forEach_push {A} (f : A -> Question) (l : list A) (s : Session Sel) :
  exists s', forEach l (fun x => push_question (f x)) s = Ret tt s'
    /\ bot s' = set_questions (questions (bot s) ++ map f l) (bot s)
    /\ world s' = world s.
Proof.
  revert s. induction l as [|x l IH]; intros s.
  - exists s. split; [reflexivity|]. split; [|reflexivity].
    cbn. rewrite app_nil_r. destruct s as [b w]. destruct b. reflexivity.
  - cbn [forEach]. unfold push_question at 1. monad.
    destruct (IH (mkSession
                    (set_questions (questions (bot s) ++ [f x]) (bot s))
                    (world s))) as (s' & Hrest & Hbot & Hworld).
    exists s'. split; [exact Hrest|]. split; [|exact Hworld].
    rewrite Hbot. cbn. rewrite <- app_assoc. reflexivity.
Qed.

(** C9, amended: loading a text bank puts one question into the pool for
    every line of the file, in the order of the lines, and goes on to the end
    of the file; no line is skipped, and a line without the backslash
    delimiter contributes a question whose prompt is the whole line and
    whose single answer is undefined. *)
Theorem text_bank_loads_every_line (s : Session Sel) (file content : string) :
  extension file = "txt" ->
  readFileSync file = Some content ->
  exists s', load_file file s = Ret tt s'
    /\ questions (bot s') =
         (questions (bot s) ++ map question_of_line (Js.split_lines content))%list
    /\ length (questions (bot s')) =
         (length (questions (bot s)) + length (Js.split_lines content))%nat
    /\ world s' = world s
    /\ (forall line,
          In line (Js.split_lines content) ->
          ~ In "\"%char (Js.chars line) ->
          In (mkQuestion line [None] None) (questions (bot s'))).
Proof.
  intros Hext Hread. unfold load_file. rewrite Hext, Hread. cbn.
  destruct (forEach_push question_of_line (Js.split_lines content) s)
    as (s' & Hload & Hbot & Hworld).
  exists s'. split; [exact Hload|]. rewrite Hbot. cbn.
  split; [reflexivity|].
  split; [rewrite length_app, length_map; reflexivity|].
  split; [exact Hworld|].
  intros line Hin Hnot. apply in_or_app. right.
  rewrite <- (question_of_line_without_delimiter line Hnot).
  apply in_map. exact Hin.
Qed.

End Loading.

(** bank.txt: three lines, three questions, the one of the second line
    among them. *)
Lemma text_bank_loads_every_line_witness :
  exists s', load_file "bank.txt" (Demo.boot ["bank.txt"] Demo.defaults) = Ret tt s'
    /\ length (questions (bot s')) = 3%nat
    /\ In (mkQuestion "no delimiter here" [None] None) (questions (bot s')).
Proof.
  destruct (text_bank_loads_every_line (Demo.boot ["bank.txt"] Demo.defaults)
              "bank.txt" Demo.bank_txt)
    as (s' & Hload & _ & Hlen & _ & Hkept).
  - reflexivity.
  - reflexivity.
  - exists s'. split; [exact Hload|]. split; [exact Hlen|].
    apply Hkept.
    + right. left. reflexivity.
    + intros Hin. cbn in Hin.
      repeat (destruct Hin as [Hin | Hin]; [discriminate Hin|]).
      exact Hin.
Defined.

(** ** An ask while the next question is awaited *)

Section Reach.

Context {Sel : Type} `{E : Env Sel}.

Lemma reaches_run (evs : list Event) (s0 s s' : Session Sel) :
  reaches s0 s -> run evs s = Alive s' -> reaches s0 s'.
Proof.
  revert s. induction evs as [|ev evs IH]; intros s Hreach Hrun.
  - cbn in Hrun. injection Hrun as <-. exact Hreach.
  - cbn [run] in Hrun.
    destruct (step ev s) as [[[] s1 | e s1]|] eqn:Hstep; try discriminate.
    apply (IH s1); [|exact Hrun].
    apply (reaches_step s0 ev s s1); assumption.
Qed.

End Reach.

(** C1 at a failing input: bob starts the quizz and alice, an operator,
    asks for question 3 before the first question has been asked. The ask
    calls clearGame, which cancels the two timers of the current question
    only, so the next-question timer of the start stays armed beside the one
    of the ask. Both expire: question 1 is asked and superseded by question 3
    with its two timers still armed and no handle left to cancel them. If
    nobody answers, question 3 gets the tip twice and is resolved by the
    timer armed for question 1, 20000 ms after it was asked; if carol
    answers question 3, the timers of question 1 survive the answer and the
    tip timer then runs with no current question and throws. *)
Theorem ask_while_awaiting_leaves_timers :
  run [Message 1000 "bob" Demo.chan "!start";
       Message 5000 "alice" Demo.chan "!ask 3"] Demo.idle
    = Alive Demo.asked_early
  /\ map callback (timers (world Demo.asked_early)) =
       [NextQuestion (Some "bob") Demo.chan "!start" Demo.q1;
        NextQuestion (Some "alice") Demo.chan "!ask 3" Demo.q3]
  /\ run [Expire 0%nat; Expire 1%nat] Demo.asked_early = Alive Demo.asked_twice
  /\ currentQuestion (bot Demo.asked_twice) = Some Demo.q3
  /\ clock (world Demo.asked_twice) = 21000
  /\ map tid (timers (world Demo.asked_twice)) = [2; 3; 4; 5]%nat
  /\ currentTotalTimer (bot Demo.asked_twice) = Some 4%nat
  /\ currentEndingSoonTimer (bot Demo.asked_twice) = Some 5%nat
  /\ run [Expire 3%nat; Expire 5%nat; Expire 2%nat] Demo.asked_twice
       = Alive Demo.resolved_early
  /\ clock (world Demo.resolved_early) = 41000
  /\ sent (world Demo.resolved_early) =
       (sent (world Demo.asked_twice) ++
          [Say Demo.chan (questionEndingIn 10000);
           DisplayTip Demo.q3 Demo.chan;
           Say Demo.chan (questionEndingIn 10000);
           DisplayTip Demo.q3 Demo.chan;
           Say Demo.chan noGoodAnswer;
           DisplayAnswer Demo.q3 Demo.chan;
           SaveUserlist;
           Say Demo.chan (nextQuestionIn 15000)])%list
  /\ run [Message 1000 "carol" Demo.chan "6"] Demo.asked_twice
       = Alive Demo.carol_answered
  /\ currentQuestion (bot Demo.carol_answered) = None
  /\ map tid (timers (world Demo.carol_answered)) = [2; 3; 6]%nat
  /\ run [Expire 3%nat] Demo.carol_answered
       = Crashed (TypeError "displayTip") Demo.tip_after_answer
  /\ sent (world Demo.tip_after_answer) =
       (sent (world Demo.carol_answered) ++
          [Say Demo.chan (questionEndingIn 10000)])%list.
Proof. vm_compute. repeat split. Qed.

(** C2 at a failing input: bob starts the quizz, alice asks for question 3
    before the first question has been asked and then stops the quizz. The
    stop cancels the next-question timer of the ask, the one the field
    names; the timer of the start is still pending, and when it expires
    question 1 becomes current in a session that is not running. *)
Theorem question_current_while_not_running :
  run [Message 1000 "alice" Demo.chan "!stop"] Demo.asked_early
    = Alive Demo.stopped_early
  /\ running (bot Demo.stopped_early) = false
  /\ map tid (timers (world Demo.stopped_early)) = [0%nat]
  /\ run [Expire 0%nat] Demo.stopped_early = Alive Demo.asked_while_stopped
  /\ reaches Demo.idle Demo.asked_while_stopped
  /\ running (bot Demo.asked_while_stopped) = false
  /\ currentQuestion (bot Demo.asked_while_stopped) = Some Demo.q1
  /\ last (sent (world Demo.asked_while_stopped))
       = Some (AskQuestion Demo.q1 Demo.chan).
Proof.
  assert (Hrun : run [Message 1000 "bob" Demo.chan "!start";
                      Message 5000 "alice" Demo.chan "!ask 3";
                      Message 1000 "alice" Demo.chan "!stop";
                      Expire 0%nat] Demo.idle
                 = Alive Demo.asked_while_stopped)
    by (vm_compute; reflexivity).
  pose proof (reaches_run _ Demo.idle Demo.idle _ (reaches_here _) Hrun) as Hreach.
  split; [vm_compute; reflexivity|].
  split; [vm_compute; reflexivity|].
  split; [vm_compute; reflexivity|].
  split; [vm_compute; reflexivity|].
  split; [exact Hreach|].
  split; [vm_compute; reflexivity|].
  split; vm_compute; reflexivity.
Qed.

(** ** The shape of the session is kept *)

Section Frames.

Context {Sel : Type} `{E : Env Sel}.

Lemma keeps_ret {A} (a : A) : keeps (Sel:=Sel) (mret a).
Proof. intros s a' s' H. injection H as <- <-. split; reflexivity. Qed.

Lemma keeps_throw {A} (e : JsError) : keeps (Sel:=Sel) (throw e : M A).
Proof. intros s a s' H. discriminate H. Qed.

Lemma keeps_bind {A B} (m : M (Sel:=Sel) A) (f : A -> M B) :
  keeps m -> (forall a, keeps (f a)) -> keeps (m ≫= f).
Proof.
  intros Hm Hf s b s' H. unfold mbind, M_bind in H.
  destruct (m s) as [a s1 | e s1] eqn:Hms; [|discriminate].
  destruct (Hm _ _ _ Hms) as [Hb Ht].
  destruct (Hf a _ _ _ H) as [Hb' Ht'].
  split; congruence.
Qed.

Lemma keeps_self : keeps (Sel:=Sel) self.
Proof. intros s a s' H. injection H as <- <-. split; reflexivity. Qed.

Lemma keeps_the_world : keeps (Sel:=Sel) the_world.
Proof. intros s a s' H. injection H as <- <-. split; reflexivity. Qed.

Lemma keeps_update_world (f : World Sel -> World Sel) :
  (forall w, timers (f w) = timers w) -> keeps (update_world f).
Proof.
  intros Hf s a s' H. injection H as <- <-. cbn. split; [reflexivity | apply Hf].
Qed.

Lemma keeps_emit (e : Effect) : keeps (Sel:=Sel) (emit e).
Proof. apply keeps_update_world. reflexivity. Qed.

Lemma keeps_say (target : string) (t : Text) :
  keeps (Sel:=Sel) (ircBot_say target t).
Proof. apply keeps_emit. Qed.

Lemma keeps_user_update (u : string) (f : User -> User) :
  keeps (Sel:=Sel) (user_update u f).
Proof. apply keeps_update_world. reflexivity. Qed.

Lemma keeps_deref (user : option string) (property : string) :
  keeps (Sel:=Sel) (deref user property).
Proof. destruct user; [apply keeps_ret | apply keeps_throw]. Qed.

Lemma keeps_the_user (u : string) : keeps (Sel:=Sel) (the_user u).
Proof.
  apply keeps_bind; [apply keeps_the_world | intros; apply keeps_ret].
Qed.

Lemma keeps_getUser (from to : string) :
  keeps (Sel:=Sel) (User_getUser from to).
Proof.
  apply keeps_bind; [|intros; apply keeps_ret].
  apply keeps_update_world. intros w.
  destruct (users w !! from); reflexivity.
Qed.

Lemma keeps_forEach {A} (l : list A) (f : A -> M (Sel:=Sel) unit) :
  (forall x, keeps (f x)) -> keeps (forEach l f).
Proof.
  intros Hf. induction l as [|x l IH]; cbn [forEach].
  - apply keeps_ret.
  - apply keeps_bind; [apply Hf | intros; exact IH].
Qed.

End Frames.

Ltac keeps_step :=
  first
    [ apply keeps_ret | apply keeps_throw | apply keeps_self
    | apply keeps_the_world | apply keeps_say | apply keeps_emit
    | apply keeps_user_update | apply keeps_deref | apply keeps_the_user
    | apply keeps_getUser
    | apply keeps_forEach; intros
    | apply keeps_bind; [|intros]
    | match goal with
      | |- keeps (match ?x with _ => _ end) => destruct x
      end ].

Section Commands.

Context {Sel : Type} `{E : Env Sel}.

Lemma keeps_langCommand (user : option string) (to message : string)
    (args : list string) : keeps (Sel:=Sel) (langCommand user to message args).
Proof. unfold langCommand, setLang. repeat keeps_step. Qed.

Lemma keeps_statsCommand (user : option string) (to message : string)
    (args : list string) : keeps (Sel:=Sel) (statsCommand user to message args).
Proof. unfold statsCommand. repeat keeps_step. Qed.

Lemma keeps_topCommand (user : option string) (to message : string)
    (args : list string) : keeps (Sel:=Sel) (topCommand user to message args).
Proof. unfold topCommand. cbn zeta. repeat keeps_step. Qed.

Lemma keeps_helpCommand (user : option string) (to message : string)
    (args : list string) : keeps (Sel:=Sel) (helpCommand user to message args).
Proof. unfold helpCommand. cbn zeta. repeat keeps_step. Qed.

Lemma keeps_sayCommand (user : option string) (to message : string)
    (args : list string) : keeps (Sel:=Sel) (sayCommand user to message args).
Proof. unfold sayCommand. repeat keeps_step. Qed.

Lemma keeps_testCommand (user : option string) (to message : string)
    (args : list string) : keeps (Sel:=Sel) (testCommand user to message args).
Proof. unfold testCommand. repeat keeps_step. Qed.

End Commands.

Section Invariant.

Context {Sel : Type} `{E : Env Sel}.

Lemma kept_consistent {A} (m : M A) (s s' : Session Sel) (a : A) :
  keeps m -> m s = Ret a s' -> consistent s -> consistent s'.
Proof.
  intros Hkeeps Hm Hs. destruct (Hkeeps _ _ _ Hm) as [Hb Ht].
  unfold consistent. rewrite Hb, Ht. exact Hs.
Qed.

Lemma without_one_same (t : Timer) : without (tid t) [t] = [].
Proof.
  unfold without. rewrite filter_cons. destruct (decide (tid t <> tid t)) as [Hne|_].
  - exfalso. apply Hne. reflexivity.
  - reflexivity.
Qed.

Lemma without_one (id : TimerId) (t : Timer) :
  without id [t] = [] \/ without id [t] = [t].
Proof.
  unfold without. rewrite filter_cons. destruct (decide (tid t <> id)).
  - right. reflexivity.
  - left. reflexivity.
Qed.

Lemma cancel_nil (h : option TimerId) : cancel h [] = [].
Proof. destruct h; reflexivity. Qed.

Lemma cancel_one (h : option TimerId) (t : Timer) :
  cancel h [t] = [] \/ cancel h [t] = [t].
Proof. destruct h; [apply without_one | right; reflexivity]. Qed.

Lemma cancel_one_same (h : option TimerId) (t : Timer) :
  h = Some (tid t) -> cancel h [t] = [].
Proof. intros ->. apply without_one_same. Qed.

Lemma without_second (a b : Timer) :
  tid a <> tid b -> without (tid b) [a; b] = [a].
Proof.
  intros Hne. unfold without. rewrite !filter_cons. cbn.
  destruct (decide (tid a <> tid b)) as [_|Heq]; [|contradiction].
  destruct (decide (tid b <> tid b)) as [Hbb|_]; [|reflexivity].
  exfalso. apply Hbb. reflexivity.
Qed.

Lemma without_first (a b : Timer) :
  tid a <> tid b -> without (tid a) [a; b] = [b].
Proof.
  intros Hne. unfold without. rewrite !filter_cons. cbn.
  destruct (decide (tid a <> tid a)) as [Haa|_];
    [exfalso; apply Haa; reflexivity|].
  destruct (decide (tid b <> tid a)) as [_|Heq]; [reflexivity|].
  exfalso. apply Heq. intros Hba. apply Hne. symmetry. exact Hba.
Qed.

(** clearGame leaves no timer of a current question pending. *)
Lemma after_clearGame_current (b : Bot) (l : list Timer) :
  shape b l -> running b = false \/ currentQuestion b <> None ->
  after_clearGame b l = [].
Proof.
  intros Hshape Hcur. unfold after_clearGame.
  destruct Hshape as [Hrun Hq | t u to m q Hrun Hq Hnext Hcb
                     | T S q u to m to' Hrun Hq HT HS Hne HcT HcS
                     | T q u to m Hrun Hq HT HcT].
  - rewrite !cancel_nil. reflexivity.
  - destruct Hcur as [Hidle | Hcur]; congruence.
  - rewrite HS, HT. cbn [cancel].
    rewrite (without_second T S Hne). apply without_one_same.
  - rewrite HT.
    destruct (cancel_one (currentEndingSoonTimer b) T) as [-> | ->].
    + reflexivity.
    + apply without_one_same.
Qed.

(** A stop leaves no timer pending. *)
Lemma after_stop_nothing (b : Bot) (l : list Timer) :
  shape b l -> after_stop b l = [].
Proof.
  intros Hshape. unfold after_stop.
  destruct Hshape as [Hrun Hq | t u to m q Hrun Hq Hnext Hcb
                     | T S q u to m to' Hrun Hq HT HS Hne HcT HcS
                     | T q u to m Hrun Hq HT HcT].
  - unfold after_clearGame. rewrite !cancel_nil. reflexivity.
  - unfold after_clearGame.
    destruct (cancel_one (currentEndingSoonTimer b) t) as [-> | ->].
    + rewrite !cancel_nil. reflexivity.
    + destruct (cancel_one (currentTotalTimer b) t) as [-> | ->].
      * apply cancel_nil.
      * apply cancel_one_same. exact Hnext.
  - rewrite (after_clearGame_current b [T; S]).
    + apply cancel_nil.
    + eapply shape_active; eassumption.
    + right. congruence.
  - rewrite (after_clearGame_current b [T]).
    + apply cancel_nil.
    + eapply shape_tipped; eassumption.
    + right. congruence.
Qed.

Lemma stop_returns (s : Session Sel) (user : option string) (to message : string) :
  running (bot s) = true ->
  not_an_operator user to = false ->
  exists s', stopCommand user to message s = Ret tt s'
    /\ bot s' = set_currentQuestion None (set_running false (bot s))
    /\ timers (world s') = after_stop (bot s) (timers (world s)).
Proof.
  destruct s as [b w]. destruct b, w. cbn. intros -> Hop.
  unfold stopCommand, clearGame, clearTimeout, user_update, the_user.
  monad. cbn. rewrite Hop.
  destruct currentEndingSoonTimer0, currentTotalTimer0, nextQuestionTimer0,
    user; monad; cbn;
    destruct (continuousNoAnswer options0 <=? continuousNoAnswerCount0);
    monad; cbn; eexists; (split; [reflexivity|]); cbn; repeat split.
Qed.

(** The cycle, entered with no question current and no timer pending,
    leaves the session awaiting the next question or idle. *)
Lemma game_consistent (s s' : Session Sel) (user : option string)
    (to message : string) (forced : option Question) :
  running (bot s) = true ->
  currentQuestion (bot s) = None ->
  timers (world s) = [] ->
  game user to message forced s = Ret tt s' ->
  consistent s'.
Proof.
  intros Hrun Hq Htimers Hgame. unfold consistent.
  destruct (selected forced s) as [q|] eqn:Hsel.
  - destruct (Z_lt_le_dec (continuousNoAnswerCount (bot s))
                (continuousNoAnswer (options (bot s)))) as [Hlt | Hle].
    + destruct (game_arms s user to message forced q Hsel Hlt)
        as (s2 & Hg & Hbot & Ht & _).
      rewrite Hg in Hgame. injection Hgame as <-.
      rewrite Hbot, Ht, Htimers. cbn.
      eapply shape_awaiting; cbn; try eassumption; reflexivity.
    + rewrite (game_as_stop s user to message forced (or_intror Hle)) in Hgame.
      monad_in Hgame.
      destruct (select_returns forced s) as (s1 & Hs1 & Hbot1 & Ht1 & _).
      rewrite Hs1 in Hgame.
      destruct (stop_returns s1 None to message) as (s2 & Hstop & Hbot2 & Ht2);
        [rewrite Hbot1; exact Hrun | reflexivity |].
      rewrite Hstop in Hgame. injection Hgame as <-.
      rewrite Hbot2, Ht2, Ht1, Htimers. unfold after_stop, after_clearGame.
      rewrite !cancel_nil. apply shape_idle; reflexivity.
  - rewrite (game_as_stop s user to message forced (or_introl Hsel)) in Hgame.
    monad_in Hgame.
    destruct (select_returns forced s) as (s1 & Hs1 & Hbot1 & Ht1 & _).
    rewrite Hs1 in Hgame.
    destruct (stop_returns s1 None to message) as (s2 & Hstop & Hbot2 & Ht2);
      [rewrite Hbot1; exact Hrun | reflexivity |].
    rewrite Hstop in Hgame. injection Hgame as <-.
    rewrite Hbot2, Ht2, Ht1, Htimers. unfold after_stop, after_clearGame.
    rewrite !cancel_nil. apply shape_idle; reflexivity.
Qed.

Lemma handleAnswer_consistent (s s' : Session Sel) (u to message : string) :
  consistent s ->
  handleAnswer (Some u) to message s = Ret tt s' ->
  consistent s'.
Proof.
  intros Hs Hans.
  destruct (currentQuestion (bot s)) as [q|] eqn:Hq.
  - destruct (isGoodAnswer q message) eqn:Hgood.
    + destruct (answer_scores s u to message q Hq Hgood)
        as (s1 & Heq & Hbot & _ & _ & Ht & _).
      rewrite Heq in Hans.
      assert (Hrun : running (bot s) = true).
      { unfold consistent in Hs. destruct Hs; congruence. }
      apply (game_consistent s1 s' (Some u) to message None);
        [rewrite Hbot; exact Hrun | rewrite Hbot; reflexivity | | exact Hans].
      rewrite Ht. apply after_clearGame_current; [exact Hs|].
      right. congruence.
    + unfold handleAnswer, deref, user_update in Hans. monad_in Hans.
      rewrite Hq, Hgood in Hans. monad_in Hans.
      injection Hans as <-. exact Hs.
  - unfold handleAnswer in Hans. monad_in Hans. rewrite Hq in Hans.
    injection Hans as <-. exact Hs.
Qed.

Lemma start_enters (s : Session Sel) (u to message : string) (noGame : bool) :
  running (bot s) = false ->
  exists s1,
    startCommand (Some u) to message noGame s
      = (if noGame then mret tt else game (Some u) to message None) s1
    /\ bot s1 = set_continuousNoAnswerCount 0 (set_running true (bot s))
    /\ timers (world s1) = timers (world s).
Proof.
  intros Hidle. destruct s as [b w]. destruct b, w. cbn in Hidle. subst.
  unfold startCommand, deref, the_user, user_update. monad. cbn.
  eexists. split; [reflexivity|]. cbn. repeat split.
Qed.

Lemma startCommand_consistent (s s' : Session Sel) (u to message : string) :
  consistent s ->
  startCommand (Some u) to message false s = Ret tt s' ->
  consistent s'.
Proof.
  intros Hs Hstart.
  destruct (running (bot s)) eqn:Hrun.
  - unfold startCommand in Hstart. monad_in Hstart. rewrite Hrun in Hstart.
    injection Hstart as <-. exact Hs.
  - destruct (start_enters s u to message false Hrun) as (s1 & Heq & Hbot & Ht).
    rewrite Heq in Hstart.
    apply (game_consistent s1 s' (Some u) to message None);
      [rewrite Hbot; reflexivity | rewrite Hbot; cbn | rewrite Ht | exact Hstart];
      unfold consistent in Hs; destruct Hs; congruence.
Qed.

Lemma stopCommand_consistent (s s' : Session Sel) (user : option string)
    (to message : string) :
  consistent s ->
  stopCommand user to message s = Ret tt s' ->
  consistent s'.
Proof.
  intros Hs Hstop.
  destruct (running (bot s)) eqn:Hrun.
  - destruct (not_an_operator user to) eqn:Hop.
    + unfold stopCommand in Hstop. monad_in Hstop. rewrite Hrun, Hop in Hstop.
      injection Hstop as <-. exact Hs.
    + destruct (stop_returns s user to message Hrun Hop) as (s2 & Heq & Hbot & Ht).
      rewrite Heq in Hstop. injection Hstop as <-.
      unfold consistent. rewrite Hbot, Ht, (after_stop_nothing _ _ Hs).
      apply shape_idle; reflexivity.
  - unfold stopCommand in Hstop. monad_in Hstop. rewrite Hrun in Hstop.
    injection Hstop as <-. exact Hs.
Qed.

(** An ask keeps the shape unless it comes from an operator while the next
    question is awaited. *)
Lemma askQuestionCommand_consistent (s s' : Session Sel) (u to message : string)
    (args : list string) :
  consistent s ->
  isOp u to && running (bot s) && negb (not_null (currentQuestion (bot s))) = false ->
  askQuestionCommand (Some u) to message args s = Ret tt s' ->
  consistent s'.
Proof.
  intros Hs Hearly Hask. unfold askQuestionCommand, not_an_operator in Hask.
  destruct (isOp u to) eqn:Hop; cbn [negb] in Hask.
  2:{ injection Hask as <-. exact Hs. }
  monad_in Hask. cbn [andb] in Hearly.
  destruct (running (bot s)) eqn:Hrun; cbn [negb andb] in Hask, Hearly.
  - destruct (currentQuestion (bot s)) as [q|] eqn:Hq; [|discriminate].
    destruct (clearGame_returns s) as (s2 & Hclear & Hbot & Ht & _).
    rewrite Hclear in Hask.
    apply (game_consistent s2 s' (Some u) to message
             (forced_question (questions (bot s2)) args));
      [rewrite Hbot; exact Hrun | rewrite Hbot; reflexivity | | exact Hask].
    rewrite Ht. apply after_clearGame_current; [exact Hs|]. right. congruence.
  - destruct (start_enters s u to message true Hrun) as (s1 & Heq & Hbot1 & Ht1).
    rewrite Heq in Hask. monad_in Hask.
    destruct (clearGame_returns s1) as (s2 & Hclear & Hbot & Ht & _).
    rewrite Hclear in Hask.
    assert (Hnil : timers (world s) = []).
    { unfold consistent in Hs. destruct Hs; congruence. }
    apply (game_consistent s2 s' (Some u) to message
             (forced_question (questions (bot s2)) args));
      [rewrite Hbot, Hbot1; reflexivity | rewrite Hbot; reflexivity |
      | exact Hask].
    rewrite Ht, Ht1, Hnil. unfold after_clearGame. rewrite !cancel_nil.
    reflexivity.
Qed.

Lemma handleCommand_consistent (s s' : Session Sel) (u to message : string) :
  consistent s ->
  String.eqb (default "" (head (Js.split " " message))) "!ask"
  && isOp u to && running (bot s) && negb (not_null (currentQuestion (bot s)))
    = false ->
  handleCommand (Some u) to message s = Ret tt s' ->
  consistent s'.
Proof.
  intros Hs Hearly Hcmd. unfold handleCommand in Hcmd. cbn zeta in Hcmd.
  destruct (String.eqb (default "" (head (Js.split " " message))) "!start").
  { exact (startCommand_consistent s s' u to message Hs Hcmd). }
  destruct (String.eqb (default "" (head (Js.split " " message))) "!stop").
  { exact (stopCommand_consistent s s' (Some u) to message Hs Hcmd). }
  destruct (String.eqb (default "" (head (Js.split " " message))) "!lang").
  { exact (kept_consistent _ s s' tt (keeps_langCommand _ _ _ _) Hcmd Hs). }
  destruct (String.eqb (default "" (head (Js.split " " message))) "!ask").
  { cbn [andb] in Hearly. rewrite <- !andb_assoc in Hearly.
    rewrite andb_assoc in Hearly.
    exact (askQuestionCommand_consistent s s' u to message _ Hs Hearly Hcmd). }
  destruct (String.eqb (default "" (head (Js.split " " message))) "!stats").
  { exact (kept_consistent _ s s' tt (keeps_statsCommand _ _ _ _) Hcmd Hs). }
  destruct (String.eqb (default "" (head (Js.split " " message))) "!top").
  { exact (kept_consistent _ s s' tt (keeps_topCommand _ _ _ _) Hcmd Hs). }
  destruct (String.eqb (default "" (head (Js.split " " message))) "!help").
  { exact (kept_consistent _ s s' tt (keeps_helpCommand _ _ _ _) Hcmd Hs). }
  destruct (String.eqb (default "" (head (Js.split " " message))) "!say").
  { exact (kept_consistent _ s s' tt (keeps_sayCommand _ _ _ _) Hcmd Hs). }
  destruct (String.eqb (default "" (head (Js.split " " message))) "!test").
  { exact (kept_consistent _ s s' tt (keeps_testCommand _ _ _ _) Hcmd Hs). }
  injection Hcmd as <-. exact Hs.
Qed.

Lemma bind_returns {A B} (m : M A) (f : A -> M B) (s s1 : Session Sel) (a : A) :
  m s = Ret a s1 -> (m ≫= f) s = f a s1.
Proof. intros Hm. unfold mbind, M_bind. rewrite Hm. reflexivity. Qed.

Lemma getUser_returns (s : Session Sel) (from to : string) :
  exists s1, User_getUser from to s = Ret from s1
    /\ bot s1 = bot s /\ timers (world s1) = timers (world s).
Proof.
  unfold User_getUser. monad. eexists. split; [reflexivity|]. cbn.
  split; [reflexivity|]. destruct (users (world s) !! from); reflexivity.
Qed.

Lemma on_message_consistent (s s' : Session Sel) (from to message : string)
    (elapsed : Z) :
  consistent s ->
  early_ask (Message elapsed from to message) s = false ->
  on_message from to message s = Ret tt s' ->
  consistent s'.
Proof.
  intros Hs Hearly Hmsg. unfold on_message in Hmsg.
  destruct (getUser_returns s from to) as (s1 & Hget & Hbot & Ht).
  rewrite (bind_returns _ _ _ _ _ Hget) in Hmsg. monad_in Hmsg.
  assert (Hs1 : consistent s1) by (unfold consistent; rewrite Hbot, Ht; exact Hs).
  rewrite Hbot in Hmsg. unfold route in Hmsg. cbn [early_ask] in Hearly.
  destruct (negb (String.eqb from (botName (bot s))) && is_command message).
  - cbn [andb] in Hearly.
    apply (handleCommand_consistent s1 s' from to message Hs1);
      [rewrite Hbot; exact Hearly | exact Hmsg].
  - destruct (running (bot s) && not_null (currentQuestion (bot s))
              && negb (String.eqb from (botName (bot s)))).
    + exact (handleAnswer_consistent s1 s' from to message Hs1 Hmsg).
    + injection Hmsg as <-. exact Hs1.
Qed.

Lemma fire_next (s : Session Sel) (user : option string) (to message : string)
    (q : Question) :
  exists s' total soon,
    fire (NextQuestion user to message q) s = Ret tt s'
    /\ timers (world s') = (timers (world s) ++ [total; soon])%list
    /\ running (bot s') = running (bot s)
    /\ currentQuestion (bot s') = Some q
    /\ currentTotalTimer (bot s') = Some (tid total)
    /\ currentEndingSoonTimer (bot s') = Some (tid soon)
    /\ tid total <> tid soon
    /\ callback total = TotalTime user to message
    /\ callback soon = EndingSoon to.
Proof.
  destruct s as [b w]. destruct b, w.
  unfold fire, setTimeout. monad. cbn.
  eexists. eexists. eexists. split; [reflexivity|]. cbn.
  rewrite <- app_assoc. cbn. repeat split. apply n_Sn.
Qed.

Lemma fire_total (s : Session Sel) (user : option string) (to message : string)
    (q : Question) :
  currentQuestion (bot s) = Some q ->
  exists s1,
    fire (TotalTime user to message) s = game user to message None s1
    /\ bot s1 = set_currentQuestion None
                  (set_continuousNoAnswerCount (continuousNoAnswerCount (bot s) + 1)
                     (bot s))
    /\ timers (world s1) = after_clearGame (bot s) (timers (world s)).
Proof.
  destruct s as [b w]. destruct b, w. cbn. intros ->.
  unfold fire, current_question, clearGame, clearTimeout. monad. cbn.
  destruct currentEndingSoonTimer0, currentTotalTimer0; monad; cbn;
    eexists; (split; [reflexivity|]); cbn; repeat split.
Qed.

Lemma fire_soon (s s' : Session Sel) (to : string) :
  fire (EndingSoon to) s = Ret tt s' ->
  bot s' = bot s /\ timers (world s') = timers (world s).
Proof.
  unfold fire, current_question. monad. intros Hfire.
  destruct (currentQuestion (bot s)); [|discriminate].
  injection Hfire as <-. split; reflexivity.
Qed.

Lemma pending_one (id : TimerId) (w : World Sel) (t t0 : Timer) :
  timers w = [t0] -> pending id w = Some t -> t = t0 /\ id = tid t0.
Proof.
  unfold pending. intros ->. cbn.
  destruct (Nat.eqb_spec (tid t0) id); [|discriminate].
  intros H. injection H as <-. split; [reflexivity | congruence].
Qed.

Lemma expire_consistent (s s' : Session Sel) (id : TimerId) (t : Timer) (now : Z) :
  consistent s ->
  pending id (world s) = Some t ->
  fire (callback t)
    (mkSession (bot s)
       (set_clock now (set_timers (without id (timers (world s))) (world s))))
    = Ret tt s' ->
  consistent s'.
Proof.
  intros Hs Hpending Hfire. unfold consistent in *.
  remember (timers (world s)) as l eqn:Hl.
  destruct Hs as [Hrun Hq | t0 u to m q Hrun Hq Hnext Hcb
                 | T S q u to m to' Hrun Hq HT HS Hne HcT HcS
                 | T q u to m Hrun Hq HT HcT].
  - unfold pending in Hpending. rewrite <- Hl in Hpending. discriminate.
  - destruct (pending_one id (world s) t t0 (eq_sym Hl) Hpending) as [-> ->].
    rewrite without_one_same, Hcb in Hfire.
    destruct (fire_next
                (mkSession (bot s)
                   (set_clock now (set_timers [] (world s)))) u to m q)
      as (s2 & total & soon & Hf & Ht & Hr & Hc & Htot & Hsoon & Hdiff & Hct & Hcs).
    rewrite Hf in Hfire. injection Hfire as <-. rewrite Ht. cbn.
    eapply shape_active; try eassumption. cbn in Hr. congruence.
  - unfold pending in Hpending. rewrite <- Hl in Hpending. cbn in Hpending.
    destruct (Nat.eqb_spec (tid T) id) as [HidT | HidT].
    + injection Hpending as <-. subst id.
      rewrite (without_first T S Hne), HcT in Hfire.
      destruct (fire_total
                  (mkSession (bot s)
                     (set_clock now (set_timers [S] (world s)))) u to m q Hq)
        as (s1 & Heq & Hbot & Ht).
      rewrite Heq in Hfire.
      apply (game_consistent s1 s' u to m None);
        [rewrite Hbot; exact Hrun | rewrite Hbot; reflexivity | | exact Hfire].
      rewrite Ht. cbn. unfold after_clearGame.
      rewrite (cancel_one_same _ S HS). apply cancel_nil.
    + destruct (Nat.eqb_spec (tid S) id) as [HidS | HidS]; [|discriminate].
      injection Hpending as <-. subst id.
      rewrite (without_second T S Hne), HcS in Hfire.
      destruct (fire_soon _ _ _ Hfire) as [Hbot Ht].
      rewrite Hbot, Ht. cbn.
      eapply shape_tipped; eassumption.
  - destruct (pending_one id (world s) t T (eq_sym Hl) Hpending) as [-> ->].
    rewrite without_one_same, HcT in Hfire.
    destruct (fire_total
                (mkSession (bot s)
                   (set_clock now (set_timers [] (world s)))) u to m q Hq)
      as (s1 & Heq & Hbot & Ht).
    rewrite Heq in Hfire.
    apply (game_consistent s1 s' u to m None);
      [rewrite Hbot; exact Hrun | rewrite Hbot; reflexivity | | exact Hfire].
    rewrite Ht. cbn. unfold after_clearGame. rewrite !cancel_nil. reflexivity.
Qed.

Lemma step_consistent (s s' : Session Sel) (ev : Event) :
  consistent s ->
  early_ask ev s = false ->
  step ev s = Some (Ret tt s') ->
  consistent s'.
Proof.
  intros Hs Hearly Hstep. destruct ev as [elapsed from to message | id].
  - unfold step in Hstep.
    destruct ((0 <=? elapsed)
              && none_due_before (clock (world s) + elapsed) (world s));
      [|discriminate].
    injection Hstep as Hstep. monad_in Hstep.
    apply (on_message_consistent
             (mkSession (bot s)
                (set_clock (clock (world s) + elapsed) (world s)))
             s' from to message elapsed); [exact Hs | exact Hearly | exact Hstep].
  - unfold step in Hstep.
    destruct (pending id (world s)) as [t|] eqn:Hpending; [|discriminate].
    destruct (none_due_before (deadline t) (world s)); [|discriminate].
    injection Hstep as Hstep. monad_in Hstep.
    exact (expire_consistent s s' id t _ Hs Hpending Hstep).
Qed.

(** The session keeps its shape along every run of the event loop in which
    no operator asks for a question while the next one is awaited: then a
    question is current only while the session is running, an idle session
    has no timer pending, and the pending timers are those of the state the
    fields describe. *)
Theorem shape_kept_without_early_ask (s s' : Session Sel) :
  consistent s ->
  reaches_without_early_ask s s' ->
  consistent s'
  /\ (currentQuestion (bot s') <> None -> running (bot s') = true)
  /\ (running (bot s') = false -> timers (world s') = []).
Proof.
  intros Hs Hreach.
  assert (Hs' : consistent s').
  { induction Hreach as [|ev s1 s2 Hreach IH Hearly Hstep]; [exact Hs|].
    exact (step_consistent s1 s2 ev IH Hearly Hstep). }
  split; [exact Hs'|].
  unfold consistent in Hs'. split.
  - intros Hq. destruct Hs'; congruence.
  - intros Hrun. destruct Hs'; congruence.
Qed.

End Invariant.

(** From the idle session of the bank of three questions, a start and the
    expiry of the next-question timer: question 1 is current, the session is
    running. *)
Lemma shape_kept_without_early_ask_witness :
  consistent Demo.bank_asked
  /\ (currentQuestion (bot Demo.bank_asked) <> None ->
      running (bot Demo.bank_asked) = true)
  /\ (running (bot Demo.bank_asked) = false ->
      timers (world Demo.bank_asked) = []).
Proof.
  apply (shape_kept_without_early_ask Demo.idle Demo.bank_asked).
  - apply shape_idle; reflexivity.
  - apply (without_early_ask_step Demo.idle (Expire 0%nat) Demo.bob_started).
    + apply (without_early_ask_step Demo.idle
               (Message 0 "bob" Demo.chan "!start") Demo.idle).
      * apply without_early_ask_here.
      * reflexivity.
      * vm_compute. reflexivity.
    + reflexivity.
    + vm_compute. reflexivity.
Defined.

(** ** stop and a wrong answer *)

Section Refusals.

Context {Sel : Type} `{E : Env Sel}.

(** A stop asked by a requester who is not an operator of the channel, and
    any stop while the session is not running, changes nothing and sends
    nothing; a stop by an operator, or by the session itself, in a running
    session of consistent shape leaves the session idle with no question
    current and no timer pending. *)
Theorem stop_needs_operator (s : Session Sel) (user : option string)
    (to message : string) :
  (running (bot s) = false \/ not_an_operator user to = true ->
     stopCommand user to message s = Ret tt s)
  /\ (running (bot s) = true -> not_an_operator user to = false ->
      consistent s ->
      exists s', stopCommand user to message s = Ret tt s'
        /\ running (bot s') = false
        /\ currentQuestion (bot s') = None
        /\ timers (world s') = []).
Proof.
  split.
  - intros Hcond. unfold stopCommand. monad.
    destruct (running (bot s)); [|reflexivity].
    destruct Hcond as [Hidle | Hop]; [discriminate|].
    rewrite Hop. reflexivity.
  - intros Hrun Hop Hs.
    destruct (stop_returns s user to message Hrun Hop) as (s' & Hstop & Hbot & Ht).
    exists s'. rewrite Hbot, Ht, (after_stop_nothing _ _ Hs).
    repeat split. exact Hstop.
Qed.

(** An answer that does not match the current question counts one answer
    more for the user and changes nothing else: no point, no message, the
    question stays current and its timers stay armed. *)
Theorem wrong_answer_counts_only (s : Session Sel) (u to message : string)
    (q : Question) :
  currentQuestion (bot s) = Some q ->
  isGoodAnswer q message = false ->
  let r := default (new_User u) (users (world s) !! u) in
  exists s', handleAnswer (Some u) to message s = Ret tt s'
    /\ bot s' = bot s
    /\ timers (world s') = timers (world s)
    /\ sent (world s') = sent (world s)
    /\ users (world s') = <[u := plusAnswer r]> (users (world s))
    /\ points (plusAnswer r) = points r
    /\ goodAnswers (plusAnswer r) = goodAnswers r
    /\ answers_given (plusAnswer r) = answers_given r + 1.
Proof.
  intros Hq Hbad r. unfold handleAnswer, deref, user_update. monad.
  rewrite Hq, Hbad. monad. eexists. split; [reflexivity|]. cbn.
  repeat split.
Qed.

End Refusals.

(** bob is no operator: his stop of the running session changes nothing;
    his wrong answer to question 1 counts as one answer. *)
Lemma stop_needs_operator_witness :
  stopCommand (Some "bob") Demo.chan "!stop" Demo.bank_asked
    = Ret tt Demo.bank_asked.
Proof.
  destruct (stop_needs_operator Demo.bank_asked (Some "bob") Demo.chan "!stop")
    as [Hrefused _].
  apply Hrefused. right. reflexivity.
Defined.

Lemma wrong_answer_counts_only_witness :
  exists s', handleAnswer (Some "bob") Demo.chan "5" Demo.bank_asked = Ret tt s'
    /\ bot s' = bot Demo.bank_asked
    /\ timers (world s') = timers (world Demo.bank_asked).
Proof.
  destruct (wrong_answer_counts_only Demo.bank_asked "bob" Demo.chan "5" Demo.q1)
    as (s' & Hans & Hbot & Ht & _).
  - reflexivity.
  - reflexivity.
  - exists s'. split; [exact Hans|]. split; [exact Hbot | exact Ht].
Defined.

(** ** File names *)

Lemma chars_append (a b : string) :
  Js.chars (a +:+ b) = (Js.chars a ++ Js.chars b)%list.
Proof.
  unfold Js.chars, String.app. induction a as [|c a IH]; [reflexivity|].
  cbn. rewrite IH. reflexivity.
Qed.

Lemma str_chars (s : string) : Js.str (Js.chars s) = s.
Proof. apply string_of_list_ascii_of_string. Qed.

Lemma chars_str (l : list ascii) : Js.chars (Js.str l) = l.
Proof. apply list_ascii_of_string_of_list_ascii. Qed.

Lemma lastIndexOf_from_absent (c : ascii) (l : list ascii) (i found : Z) :
  ~ In c l -> Js.lastIndexOf_from c l i found = found.
Proof.
  revert i found. induction l as [|d l IH]; intros i found Hnot; [reflexivity|].
  cbn [Js.lastIndexOf_from].
  destruct (Ascii.eqb_spec d c) as [-> | Hne].
  - exfalso. apply Hnot. left. reflexivity.
  - apply IH. intros Hin. apply Hnot. right. exact Hin.
Qed.

Lemma lastIndexOf_from_last (c : ascii) (before after : list ascii) (i found : Z) :
  ~ In c after ->
  Js.lastIndexOf_from c (before ++ c :: after) i found
    = i + Z.of_nat (length before).
Proof.
  intros Hnot. revert i found.
  induction before as [|d before IH]; intros i found.
  - cbn [app Js.lastIndexOf_from length]. rewrite Ascii.eqb_refl.
    rewrite (lastIndexOf_from_absent c after (i + 1) i Hnot). lia.
  - cbn [app Js.lastIndexOf_from]. rewrite IH. cbn [length]. lia.
Qed.

(** The extension that loadQuestions reads off a file name, for names
    shorter than 2^32 characters: what follows the last dot; the empty
    string for a name without a dot, and also for a name that starts with
    its only dot, so that a file named [.txt] or [.json] is not taken for a
    bank. *)
Theorem extension_follows_last_dot :
  (forall file,
     Z.of_nat (length (Js.chars file)) < 2 ^ 32 ->
     ~ In "."%char (Js.chars file) ->
     extension file = "")
  /\ (forall base ext,
        Z.of_nat (length (Js.chars (base +:+ "." +:+ ext))) < 2 ^ 32 ->
        ~ In "."%char (Js.chars ext) ->
        extension (base +:+ "." +:+ ext)
          = if String.eqb base "" then "" else ext).
Proof.
  split.
  - intros file Hlen Hnot. unfold extension, Js.lastIndexOf.
    rewrite (lastIndexOf_from_absent _ _ _ _ Hnot).
    change (Js.to_uint32 (Z.lnot (- -1))) with 4294967294.
    change (2 ^ 32) with 4294967296 in Hlen.
    unfold Js.substr. rewrite drop_ge by lia. reflexivity.
  - intros base ext Hlen Hnot.
    assert (Hchars : Js.chars (base +:+ "." +:+ ext)
                     = (Js.chars base ++ "."%char :: Js.chars ext)%list).
    { rewrite !chars_append. reflexivity. }
    unfold extension, Js.lastIndexOf, Js.substr, Js.to_uint32.
    rewrite Hchars in *. rewrite (lastIndexOf_from_last _ _ _ _ _ Hnot).
    rewrite length_app in Hlen. cbn [length] in Hlen.
    change (2 ^ 32) with 4294967296 in *.
    replace (Z.lnot (- (0 + Z.of_nat (length (Js.chars base)))))
      with (Z.of_nat (length (Js.chars base)) - 1)
      by (unfold Z.lnot, Z.pred; lia).
    destruct (String.eqb_spec base "") as [-> | Hbase].
    + change (Z.of_nat (length (Js.chars "")) - 1) with (-1).
      change (-1 mod 4294967296) with 4294967295.
      rewrite drop_ge; [reflexivity|].
      rewrite length_app. cbn [length] in *. lia.
    + assert (Hpos : 0 < Z.of_nat (length (Js.chars base))).
      { destruct base as [|c base]; [congruence|]. cbn. lia. }
      rewrite Z.mod_small by lia.
      replace (Z.to_nat (Z.of_nat (length (Js.chars base)) - 1 + 2))
        with (length (Js.chars base) + 1)%nat by lia.
      rewrite <- drop_drop. rewrite drop_app_length. cbn [drop].
      apply str_chars.
Qed.

Ltac not_among :=
  let H := fresh "H" in
  intros H; cbn in H;
  repeat (destruct H as [H | H]; [discriminate H|]); exact H.

(** A name without a dot, a name with an extension, and a name that is
    nothing but a dot and an extension. *)
Lemma extension_follows_last_dot_witness :
  extension "README" = ""
  /\ extension ("bank" +:+ "." +:+ "txt") = "txt"
  /\ extension ("" +:+ "." +:+ "txt") = "".
Proof.
  destruct extension_follows_last_dot as [Hnone Hlast].
  split; [|split].
  - apply Hnone; [reflexivity | not_among].
  - apply (Hlast "bank" "txt"); [reflexivity | not_among].
  - apply (Hlast "" "txt"); [reflexivity | not_among].
Defined.

(** ** The pool that loadQuestions builds *)

Section Banks.

Context {Sel : Type} `{E : Env Sel}.

Lemma set_questions_same (b : Bot) : set_questions (questions b) b = b.
Proof. destruct b. reflexivity. Qed.

(** One file: its bank is appended to the pool, or the load throws and the
    pool is as it was. *)
Lemma load_file_bank (file : string) (s : Session Sel) :
  match bank_of file with
  | Some bank =>
      exists s', load_file file s = Ret tt s'
        /\ bot s' = set_questions (questions (bot s) ++ bank) (bot s)
        /\ world s' = world s
  | None => load_file file s = Throw (CannotRead file) s
  end.
Proof.
  unfold bank_of, load_file.
  destruct (String.eqb (extension file) "json").
  - destruct (require file) as [db|]; cbn [option_map]; [|reflexivity].
    apply (forEach_push new_Question db s).
  - destruct (String.eqb (extension file) "txt").
    + destruct (readFileSync file) as [content|]; cbn [option_map];
        [|reflexivity].
      apply (forEach_push question_of_line (Js.split_lines content) s).
    + exists s. split; [reflexivity|]. split; [|reflexivity].
      rewrite app_nil_r, set_questions_same. reflexivity.
Qed.

Lemma load_files_pool (files : list string) (pool : list Question)
    (s : Session Sel) :
  pool_of files = Some pool ->
  exists s', forEach files load_file s = Ret tt s'
    /\ bot s' = set_questions (questions (bot s) ++ pool) (bot s)
    /\ world s' = world s.
Proof.
  revert pool s. induction files as [|file files IH]; intros pool s Hpool.
  - injection Hpool as <-. exists s. split; [reflexivity|].
    split; [|reflexivity]. rewrite app_nil_r, set_questions_same. reflexivity.
  - cbn [pool_of] in Hpool. pose proof (load_file_bank file s) as Hfile.
    destruct (bank_of file) as [bank|]; [|discriminate].
    destruct (pool_of files) as [others|]; [|discriminate].
    injection Hpool as <-.
    destruct Hfile as (s1 & Hload & Hbot1 & Hworld1).
    destruct (IH others s1 eq_refl) as (s' & Hrest & Hbot & Hworld).
    exists s'. cbn [forEach]. rewrite (bind_returns _ _ _ _ _ Hload).
    split; [exact Hrest|]. rewrite Hbot, Hworld, Hbot1, Hworld1. cbn.
    rewrite <- app_assoc. split; reflexivity.
Qed.

Lemma load_files_unreadable (good rest : list string) (bad : string)
    (pool : list Question) (s : Session Sel) :
  pool_of good = Some pool ->
  bank_of bad = None ->
  exists s', forEach (good ++ bad :: rest) load_file s = Throw (CannotRead bad) s'
    /\ bot s' = set_questions (questions (bot s) ++ pool) (bot s)
    /\ world s' = world s.
Proof.
  revert pool s. induction good as [|file good IH]; intros pool s Hpool Hbad.
  - injection Hpool as <-. exists s. cbn [app forEach].
    pose proof (load_file_bank bad s) as Hfile. rewrite Hbad in Hfile.
    unfold mbind, M_bind. rewrite Hfile.
    split; [reflexivity|]. split; [|reflexivity].
    rewrite app_nil_r, set_questions_same. reflexivity.
  - cbn [pool_of] in Hpool. pose proof (load_file_bank file s) as Hfile.
    destruct (bank_of file) as [bank|]; [|discriminate].
    destruct (pool_of good) as [others|]; [|discriminate].
    injection Hpool as <-.
    destruct Hfile as (s1 & Hload & Hbot1 & Hworld1).
    destruct (IH others s1 eq_refl Hbad) as (s' & Hrest & Hbot & Hworld).
    exists s'. cbn [app forEach]. rewrite (bind_returns _ _ _ _ _ Hload).
    split; [exact Hrest|]. rewrite Hbot, Hworld, Hbot1, Hworld1. cbn.
    rewrite <- app_assoc. split; reflexivity.
Qed.

Lemma loadQuestions_pool (s : Session Sel) (pool : list Question) :
  pool_of (questionFiles (bot s)) = Some pool ->
  exists s', loadQuestions s = Ret tt s'
    /\ bot s' = set_questions pool (bot s)
    /\ world s' = world s.
Proof.
  intros Hpool. unfold loadQuestions. monad. cbn.
  destruct (load_files_pool (questionFiles (bot s)) pool
              (mkSession (set_questions [] (bot s)) (world s)) Hpool)
    as (s' & Hret & Hbot & Hworld).
  exists s'. split; [exact Hret|]. rewrite Hbot, Hworld. cbn.
  split; reflexivity.
Qed.

(** loadQuestions rebuilds the pool from the files alone: when every file
    can be read, the pool it leaves is the banks of the files in the order of
    the files, whatever the pool was before, so that loading twice gives the
    pool of loading once; a file whose extension is neither json nor txt
    contributes nothing; no other field of the bot and nothing outside it
    changes. *)
Theorem loadQuestions_rebuilds_pool (s : Session Sel) (pool : list Question) :
  pool_of (questionFiles (bot s)) = Some pool ->
  exists s', loadQuestions s = Ret tt s'
    /\ bot s' = set_questions pool (bot s)
    /\ world s' = world s
    /\ (loadQuestions ;; loadQuestions) s = Ret tt s'
    /\ (forall file,
          extension file <> "json" -> extension file <> "txt" ->
          bank_of file = Some []).
Proof.
  intros Hpool.
  destruct (loadQuestions_pool s pool Hpool) as (s' & Hret & Hbot & Hworld).
  exists s'. split; [exact Hret|]. split; [exact Hbot|]. split; [exact Hworld|].
  split.
  - rewrite (bind_returns _ _ _ _ _ Hret).
    destruct (loadQuestions_pool s' pool) as (s'' & Hret' & Hbot' & Hworld').
    { rewrite Hbot. exact Hpool. }
    rewrite Hret'. f_equal.
    destruct s' as [b' w'], s'' as [b'' w'']. cbn in *. subst. reflexivity.
  - intros file Hjson Htxt. unfold bank_of.
    destruct (String.eqb_spec (extension file) "json"); [contradiction|].
    destruct (String.eqb_spec (extension file) "txt"); [contradiction|].
    reflexivity.
Qed.

(** A file that cannot be read stops the load with an error: the pool then
    holds the banks of the files before it, and the files after it are not
    loaded. *)
Theorem loadQuestions_stops_at_unreadable (s : Session Sel)
    (good rest : list string) (bad : string) (pool : list Question) :
  questionFiles (bot s) = (good ++ bad :: rest)%list ->
  pool_of good = Some pool ->
  bank_of bad = None ->
  exists s', loadQuestions s = Throw (CannotRead bad) s'
    /\ bot s' = set_questions pool (bot s)
    /\ world s' = world s.
Proof.
  intros Hfiles Hpool Hbad. unfold loadQuestions. monad. cbn. rewrite Hfiles.
  destruct (load_files_unreadable good rest bad pool
              (mkSession (set_questions [] (bot s)) (world s)) Hpool Hbad)
    as (s' & Hthrow & Hbot & Hworld).
  exists s'. split; [exact Hthrow|]. rewrite Hbot, Hworld. cbn.
  split; reflexivity.
Qed.

(** addFile loads the banks of the files the bot had and then the bank of
    the new file, and changeFiles loads the banks of the new files only. *)
Theorem addFile_appends_bank (s : Session Sel) (file : string)
    (old bank : list Question) :
  pool_of (questionFiles (bot s)) = Some old ->
  bank_of file = Some bank ->
  exists s', addFile file s = Ret tt s'
    /\ questions (bot s') = (old ++ bank)%list
    /\ questionFiles (bot s') = (questionFiles (bot s) ++ [file])%list
    /\ world s' = world s
    /\ forall files pool,
         pool_of files = Some pool ->
         exists s'', changeFiles files s' = Ret tt s''
           /\ questions (bot s'') = pool
           /\ questionFiles (bot s'') = files.
Proof.
  intros Hold Hbank.
  assert (Hpool : pool_of (questionFiles (bot s) ++ [file]) = Some (old ++ bank)%list).
  { revert old Hold. induction (questionFiles (bot s)) as [|f files IH];
      intros old Hold.
    - injection Hold as <-. cbn. rewrite Hbank, app_nil_r. reflexivity.
    - cbn [app pool_of] in *. destruct (bank_of f) as [b|]; [|discriminate].
      destruct (pool_of files) as [others|]; [|discriminate].
      injection Hold as <-. rewrite (IH others eq_refl).
      rewrite app_assoc. reflexivity. }
  unfold addFile. monad.
  destruct (loadQuestions_pool
              (mkSession (set_questionFiles (questionFiles (bot s) ++ [file]) (bot s))
                 (world s)) (old ++ bank)%list Hpool)
    as (s' & Hret & Hbot & Hworld).
  exists s'. split; [exact Hret|]. rewrite Hbot, Hworld. cbn.
  repeat split.
  intros files pool Hfiles. unfold changeFiles. monad.
  destruct (loadQuestions_pool
              (mkSession (set_questionFiles files (bot s')) (world s')) pool Hfiles)
    as (s'' & Hret' & Hbot' & _).
  exists s''. split; [exact Hret'|]. rewrite Hbot'. cbn. split; reflexivity.
Qed.

End Banks.

(** A json bank, a file of another kind and a text bank. *)
Lemma loadQuestions_rebuilds_pool_witness :
  exists s',
    loadQuestions (Demo.boot ["bank.json"; "notes.md"; "bank.txt"] Demo.defaults)
      = Ret tt s'
    /\ questions (bot s') =
         [Demo.q1; Demo.q2; Demo.q3;
          mkQuestion "2+2?" [Some "4"] None;
          mkQuestion "no delimiter here" [None] None;
          mkQuestion "3+3?" [Some "6"] None].
Proof.
  destruct (loadQuestions_rebuilds_pool
              (Demo.boot ["bank.json"; "notes.md"; "bank.txt"] Demo.defaults)
              [Demo.q1; Demo.q2; Demo.q3;
               mkQuestion "2+2?" [Some "4"] None;
               mkQuestion "no delimiter here" [None] None;
               mkQuestion "3+3?" [Some "6"] None])
    as (s' & Hret & Hbot & _).
  - vm_compute. reflexivity.
  - exists s'. split; [exact Hret|]. rewrite Hbot. reflexivity.
Defined.

(** The second of three files does not exist. *)
Lemma loadQuestions_stops_at_unreadable_witness :
  exists s',
    loadQuestions (Demo.boot ["bank.json"; "missing.json"; "bank.txt"] Demo.defaults)
      = Throw (CannotRead "missing.json") s'
    /\ questions (bot s') = [Demo.q1; Demo.q2; Demo.q3].
Proof.
  destruct (loadQuestions_stops_at_unreadable
              (Demo.boot ["bank.json"; "missing.json"; "bank.txt"] Demo.defaults)
              ["bank.json"] ["bank.txt"] "missing.json"
              [Demo.q1; Demo.q2; Demo.q3])
    as (s' & Hthrow & Hbot & _).
  - reflexivity.
  - vm_compute. reflexivity.
  - vm_compute. reflexivity.
  - exists s'. split; [exact Hthrow|]. rewrite Hbot. reflexivity.
Defined.

(** one.json is added to the session of bank.json. *)
Lemma addFile_appends_bank_witness :
  exists s', addFile "one.json" Demo.idle = Ret tt s'
    /\ questions (bot s') = [Demo.q1; Demo.q2; Demo.q3; Demo.q1].
Proof.
  destruct (addFile_appends_bank Demo.idle "one.json"
              [Demo.q1; Demo.q2; Demo.q3] [Demo.q1])
    as (s' & Hret & Hqs & _).
  - vm_compute. reflexivity.
  - vm_compute. reflexivity.
  - exists s'. split; [exact Hret | exact Hqs].
Defined.

(** ** The lines of a text bank *)

Lemma split_chars_at_separator (sep : ascii) (piece rest : list ascii) :
  ~ In sep piece ->
  Js.split_chars sep (piece ++ sep :: rest) = piece :: Js.split_chars sep rest.
Proof.
  intros Hnot. induction piece as [|c piece IH].
  - cbn [app Js.split_chars]. rewrite Ascii.eqb_refl. reflexivity.
  - cbn [app Js.split_chars].
    destruct (Ascii.eqb_spec c sep) as [-> | Hne].
    + exfalso. apply Hnot. left. reflexivity.
    + rewrite IH; [reflexivity|]. intros Hin. apply Hnot. right. exact Hin.
Qed.

(** A line of a text bank, [prompt\answer]: the question has that prompt and
    one accepted answer, the text between the first backslash and the second
    one or the end of the line, trimmed; what follows a second backslash is
    dropped. *)
Theorem question_of_well_formed_line (prompt answer rest : string) :
  ~ In "\"%char (Js.chars prompt) ->
  ~ In "\"%char (Js.chars answer) ->
  question_of_line (prompt +:+ "\" +:+ answer)
    = mkQuestion prompt [Some (Js.trim answer)] None
  /\ question_of_line (prompt +:+ "\" +:+ answer +:+ "\" +:+ rest)
     = mkQuestion prompt [Some (Js.trim answer)] None.
Proof.
  intros Hprompt Hanswer. unfold question_of_line, Js.split, new_Question.
  rewrite !chars_append. change (Js.chars "\") with ["\"%char]. cbn [app].
  rewrite !(split_chars_at_separator _ _ _ Hprompt).
  rewrite (split_chars_at_separator _ _ _ Hanswer).
  rewrite (split_chars_without_separator _ _ Hanswer).
  cbn. rewrite !str_chars. split; reflexivity.
Qed.

Lemma question_of_well_formed_line_witness :
  question_of_line ("2+2?" +:+ "\" +:+ " 4 ") = mkQuestion "2+2?" [Some "4"] None
  /\ question_of_line ("2+2?" +:+ "\" +:+ " 4 " +:+ "\" +:+ "four")
     = mkQuestion "2+2?" [Some "4"] None.
Proof.
  apply (question_of_well_formed_line "2+2?" " 4 " "four");
    not_among.
Defined.

Lemma split_chars_not_empty (sep : ascii) (l : list ascii) :
  Js.split_chars sep l <> [].
Proof.
  destruct l as [|c l]; cbn [Js.split_chars]; [discriminate|].
  destruct (Ascii.eqb c sep); [discriminate|].
  destruct (Js.split_chars sep l); discriminate.
Qed.

Lemma chop_all_but_last_cons (piece : list ascii) (pieces : list (list ascii)) :
  pieces <> [] ->
  Js.chop_all_but_last (piece :: pieces)
    = Js.chop_cr piece :: Js.chop_all_but_last pieces.
Proof. destruct pieces; [congruence | reflexivity]. Qed.

Lemma chop_cr_after_line (l : list ascii) : Js.chop_cr (l ++ [Js.CR]) = l.
Proof.
  induction l as [|c l IH]; [reflexivity|].
  cbn [app Js.chop_cr]. destruct (l ++ [Js.CR])%list eqn:Hl.
  - destruct l; discriminate.
  - rewrite IH. reflexivity.
Qed.

Lemma chop_cr_keeps (l : list ascii) : last l <> Some Js.CR -> Js.chop_cr l = l.
Proof.
  induction l as [|c l IH]; intros Hlast; [reflexivity|].
  destruct l as [|d l].
  - cbn in *. destruct (Ascii.eqb_spec c Js.CR) as [-> | _]; congruence.
  - change (Js.chop_cr (c :: d :: l)) with (c :: Js.chop_cr (d :: l)).
    rewrite IH; [reflexivity|]. exact Hlast.
Qed.

Lemma lines_of_text (eol_before : list ascii) (lines : list (list ascii)) :
  lines <> [] ->
  Forall (fun l => ~ In Js.LF (l ++ eol_before)) lines ->
  Forall (fun l => Js.chop_cr (l ++ eol_before) = l) lines ->
  Js.chop_all_but_last
    (Js.split_chars Js.LF (unlines (eol_before ++ [Js.LF]) lines)) = lines.
Proof.
  intros Hne Hlf Hchop. induction lines as [|line rest IH]; [congruence|].
  destruct rest as [|next rest].
  - cbn [unlines]. apply Forall_inv in Hlf.
    rewrite split_chars_without_separator; [reflexivity|].
    intros Hin. apply Hlf. apply in_or_app. left. exact Hin.
  - change (unlines (eol_before ++ [Js.LF]) (line :: next :: rest))
      with (line ++ (eol_before ++ [Js.LF])
              ++ unlines (eol_before ++ [Js.LF]) (next :: rest))%list.
    rewrite <- app_assoc, app_assoc. cbn [app].
    rewrite split_chars_at_separator by (exact (Forall_inv Hlf)).
    rewrite chop_all_but_last_cons by apply split_chars_not_empty.
    rewrite (Forall_inv Hchop).
    rewrite IH; [reflexivity | discriminate | |].
    + exact (Forall_inv_tail Hlf).
    + exact (Forall_inv_tail Hchop).
Qed.

(** A text bank gives the same lines, hence the same questions, whether its
    lines end with a line feed or with a carriage return and a line feed:
    the lines of the file are the lines that were written, for lines that
    contain no line feed and, in a file of line feeds alone, do not end
    with a carriage return. *)
Theorem lines_of_unix_and_windows_files (lines : list (list ascii)) :
  lines <> [] ->
  Forall (fun l => ~ In Js.LF l) lines ->
  Js.split_lines (Js.str (unlines [Js.CR; Js.LF] lines)) = map Js.str lines
  /\ (Forall (fun l => last l <> Some Js.CR) lines ->
      Js.split_lines (Js.str (unlines [Js.LF] lines)) = map Js.str lines).
Proof.
  intros Hne Hlf. unfold Js.split_lines. rewrite !chars_str. split.
  - change [Js.CR; Js.LF] with ([Js.CR] ++ [Js.LF])%list.
    rewrite (lines_of_text [Js.CR] lines Hne); [reflexivity | |].
    + apply Forall_forall. intros l Hin Hl.
      apply in_app_or in Hl. destruct Hl as [Hl | Hl].
      * rewrite Forall_forall in Hlf. exact (Hlf l Hin Hl).
      * cbn in Hl. destruct Hl as [Hl | []]. discriminate Hl.
    + apply Forall_forall. intros l _. apply chop_cr_after_line.
  - intros Hcr. change [Js.LF] with ([] ++ [Js.LF])%list.
    rewrite (lines_of_text [] lines Hne); [reflexivity | |].
    + apply Forall_forall. intros l Hin. rewrite app_nil_r.
      rewrite Forall_forall in Hlf. exact (Hlf l Hin).
    + apply Forall_forall. intros l Hin. rewrite app_nil_r.
      rewrite Forall_forall in Hcr. exact (chop_cr_keeps l (Hcr l Hin)).
Qed.

Lemma lines_of_unix_and_windows_files_witness :
  Js.split_lines
    (Js.str (unlines [Js.CR; Js.LF] [Js.chars "2+2?\4"; Js.chars "3+3?\6"]))
    = ["2+2?\4"; "3+3?\6"]
  /\ Js.split_lines
       (Js.str (unlines [Js.LF] [Js.chars "2+2?\4"; Js.chars "3+3?\6"]))
     = ["2+2?\4"; "3+3?\6"].
Proof.
  destruct (lines_of_unix_and_windows_files [Js.chars "2+2?\4"; Js.chars "3+3?\6"])
    as [Hwindows Hunix].
  - discriminate.
  - repeat constructor; not_among.
  - split; [exact Hwindows|]. apply Hunix. repeat constructor; discriminate.
Defined.

(** ** The dispatcher *)

Lemma join_split_chars (l : list ascii) :
  join (map Js.str (Js.split_chars " " l)) = Js.str l.
Proof.
  induction l as [|c l IH]; [reflexivity|].
  cbn [Js.split_chars].
  pose proof (split_chars_not_empty " " l) as Hne.
  destruct (Ascii.eqb_spec c " ") as [-> | Hc].
  - destruct (Js.split_chars " " l) as [|seg rest]; [congruence|].
    change (join (map Js.str ([] :: seg :: rest)))
      with ("" +:+ " " +:+ join (map Js.str (seg :: rest))).
    rewrite IH. reflexivity.
  - destruct (Js.split_chars " " l) as [|seg rest]; [congruence|].
    destruct rest as [|seg' rest].
    + change (join (map Js.str [seg])) with (Js.str seg) in IH.
      change (String c (Js.str seg) = String c (Js.str l)).
      rewrite IH. reflexivity.
    + change (join (map Js.str ((c :: seg) :: seg' :: rest)))
        with (String c (Js.str seg +:+ " " +:+ join (map Js.str (seg' :: rest)))).
      change (join (map Js.str (seg :: seg' :: rest)))
        with (Js.str seg +:+ " " +:+ join (map Js.str (seg' :: rest))) in IH.
      rewrite IH. reflexivity.
Qed.

Section Dispatch.

Context {Sel : Type} `{E : Env Sel}.

(** The command word of a message, as handleCommand reads it. *)
Lemma command_word (word rest : string) :
  ~ In " "%char (Js.chars word) ->
  Js.split " " (word +:+ " " +:+ rest) = word :: Js.split " " rest.
Proof.
  intros Hword. unfold Js.split. rewrite !chars_append.
  change (Js.chars " ") with [" "%char]. cbn [app].
  rewrite (split_chars_at_separator _ _ _ Hword). cbn [map].
  rewrite str_chars. reflexivity.
Qed.

(** An operator's say sends to the channel the text that follows the
    command word and its space, character for character, spaces included,
    and does nothing else. *)
Theorem say_relays_text_verbatim (s : Session Sel) (u to text : string) :
  isOp u to = true ->
  handleCommand (Some u) to ("!say " +:+ text) s
    = Ret tt
        (mkSession (bot s)
           (set_sent (sent (world s) ++ [Say to (verbatim text)]) (world s))).
Proof.
  intros Hop. unfold handleCommand. cbn zeta.
  change ("!say " +:+ text) with ("!say" +:+ " " +:+ text).
  rewrite command_word by not_among.
  cbn [head tail default String.eqb Ascii.eqb Bool.eqb].
  unfold sayCommand, not_an_operator. rewrite Hop. cbn [negb].
  unfold Js.split. rewrite join_split_chars, str_chars. reflexivity.
Qed.

(** The commands stop, lang, ask, say and test of a requester who is not an
    operator of the channel change nothing and send nothing. *)
Theorem privileged_commands_refused (s : Session Sel) (u to message : string) :
  isOp u to = false ->
  In (default "" (head (Js.split " " message)))
     ["!stop"; "!lang"; "!ask"; "!say"; "!test"] ->
  handleCommand (Some u) to message s = Ret tt s.
Proof.
  intros Hop Hcmd. unfold handleCommand. cbn zeta.
  remember (default "" (head (Js.split " " message))) as command eqn:Hword.
  clear Hword.
  assert (Hrefused : not_an_operator (Some u) to = true)
    by (cbn; rewrite Hop; reflexivity).
  cbn in Hcmd.
  destruct Hcmd as [<- | [<- | [<- | [<- | [<- | []]]]]];
    cbn [String.eqb Ascii.eqb Bool.eqb];
    unfold stopCommand, langCommand, askQuestionCommand, sayCommand, testCommand;
    rewrite ?Hrefused; try reflexivity.
  monad. destruct (running (bot s)); reflexivity.
Qed.

(** Every command but start, stop and ask leaves the fields of the bot and
    the pending timers as they were, and a word that is no command at all
    is ignored: nothing changes and nothing is sent. *)
Theorem other_commands_keep_session (s : Session Sel) (user : option string)
    (to message : string) :
  let command := default "" (head (Js.split " " message)) in
  command <> "!start" -> command <> "!stop" -> command <> "!ask" ->
  (forall s', handleCommand user to message s = Ret tt s' ->
     bot s' = bot s /\ timers (world s') = timers (world s))
  /\ (~ In command ["!lang"; "!stats"; "!top"; "!help"; "!say"; "!test"] ->
      handleCommand user to message s = Ret tt s).
Proof.
  intros command Hstart Hstop Hask. unfold handleCommand. cbn zeta.
  fold command.
  destruct (String.eqb_spec command "!start"); [contradiction|].
  destruct (String.eqb_spec command "!stop"); [contradiction|].
  destruct (String.eqb_spec command "!ask"); [contradiction|].
  split.
  - intros s' Hcmd.
    destruct (String.eqb command "!lang");
      [exact (keeps_langCommand _ _ _ _ _ _ _ Hcmd)|].
    destruct (String.eqb command "!stats");
      [exact (keeps_statsCommand _ _ _ _ _ _ _ Hcmd)|].
    destruct (String.eqb command "!top");
      [exact (keeps_topCommand _ _ _ _ _ _ _ Hcmd)|].
    destruct (String.eqb command "!help");
      [exact (keeps_helpCommand _ _ _ _ _ _ _ Hcmd)|].
    destruct (String.eqb command "!say");
      [exact (keeps_sayCommand _ _ _ _ _ _ _ Hcmd)|].
    destruct (String.eqb command "!test");
      [exact (keeps_testCommand _ _ _ _ _ _ _ Hcmd)|].
    injection Hcmd as <-. split; reflexivity.
  - intros Hnone.
    destruct (String.eqb_spec command "!lang") as [Heq|_];
      [exfalso; apply Hnone; rewrite Heq; cbn; tauto|].
    destruct (String.eqb_spec command "!stats") as [Heq|_];
      [exfalso; apply Hnone; rewrite Heq; cbn; tauto|].
    destruct (String.eqb_spec command "!top") as [Heq|_];
      [exfalso; apply Hnone; rewrite Heq; cbn; tauto|].
    destruct (String.eqb_spec command "!help") as [Heq|_];
      [exfalso; apply Hnone; rewrite Heq; cbn; tauto|].
    destruct (String.eqb_spec command "!say") as [Heq|_];
      [exfalso; apply Hnone; rewrite Heq; cbn; tauto|].
    destruct (String.eqb_spec command "!test") as [Heq|_];
      [exfalso; apply Hnone; rewrite Heq; cbn; tauto|].
    reflexivity.
Qed.

End Dispatch.

(** alice, an operator, has two spaces relayed. *)
Lemma say_relays_text_verbatim_witness :
  handleCommand (Some "alice") Demo.chan ("!say " +:+ "hello  there") Demo.idle
    = Ret tt
        (mkSession (bot Demo.idle)
           (set_sent
              (sent (world Demo.idle) ++ [Say Demo.chan (verbatim "hello  there")])
              (world Demo.idle))).
Proof.
  apply (say_relays_text_verbatim Demo.idle "alice" Demo.chan "hello  there").
  reflexivity.
Defined.

(** bob, who is no operator, asks for question 2. *)
Lemma privileged_commands_refused_witness :
  handleCommand (Some "bob") Demo.chan "!ask 2" Demo.bank_asked
    = Ret tt Demo.bank_asked.
Proof.
  apply (privileged_commands_refused Demo.bank_asked "bob" Demo.chan "!ask 2").
  - reflexivity.
  - right. right. left. reflexivity.
Defined.

(** A word that is no command. *)
Lemma other_commands_keep_session_witness :
  handleCommand (Some "bob") Demo.chan "!dance now" Demo.bank_asked
    = Ret tt Demo.bank_asked.
Proof.
  destruct (other_commands_keep_session Demo.bank_asked (Some "bob") Demo.chan
              "!dance now") as [_ Hignored].
  - discriminate.
  - discriminate.
  - discriminate.
  - apply Hignored. not_among.
Defined.

(** ** Start-up *)

Section StartUp.

Context {Sel : Type} `{E : Env Sel}.

Lemma stand_by_says (n : nat) (chans : list string) (s : Session Sel) :
  exists s',
    forEach chans
      (fun chan =>
         ircBot_say chan standBy ;;
         ircBot_say chan (questionInQuizz n) ;;
         ircBot_say chan startCommandMessage) s = Ret tt s'
    /\ bot s' = bot s
    /\ sent (world s') = (sent (world s) ++ flat_map (stand_by_on n) chans)%list
    /\ timers (world s') = timers (world s).
Proof.
  revert s. induction chans as [|chan chans IH]; intros s.
  - exists s. cbn. rewrite app_nil_r. repeat split.
  - cbn [forEach]. monad.
    destruct (IH (mkSession (bot s)
                    (set_sent
                       (sent
                          (set_sent
                             (sent (set_sent (sent (world s) ++ [Say chan standBy])
                                      (world s))
                              ++ [Say chan (questionInQuizz n)])
                             (set_sent (sent (world s) ++ [Say chan standBy])
                                (world s)))
                        ++ [Say chan startCommandMessage])
                       (set_sent
                          (sent (set_sent (sent (world s) ++ [Say chan standBy])
                                   (world s))
                           ++ [Say chan (questionInQuizz n)])
                          (set_sent (sent (world s) ++ [Say chan standBy])
                             (world s))))))
      as (s' & Hrest & Hbot & Hsent & Htimers).
    monad_in Hrest. exists s'. split; [exact Hrest|].
    rewrite Hbot, Hsent, Htimers. cbn. rewrite <- !app_assoc.
    repeat split.
Qed.

(** Once connected, the bot identifies itself when it has a password, loads
    the pool from its files and stands by on every channel with the number
    of questions it has loaded; it is then idle, with no question current,
    and no timer is armed. *)
Theorem connected_stands_by (name : string) (chans files : list string)
    (raw : RawOptions) (w : World Sel) (pool : list Question) :
  pool_of files = Some pool ->
  exists s',
    connected (mkSession (new_QuizzBot name chans files raw) w) = Ret tt s'
    /\ bot s' = set_questions pool (new_QuizzBot name chans files raw)
    /\ running (bot s') = false
    /\ sent (world s') =
         (sent w
          ++ match nickServPassword (effective_options raw) with
             | Some pw => [Say "NickServ" (identify pw)]
             | None => []
             end
          ++ [ConsoleLog name]
          ++ flat_map (stand_by_on (length pool)) chans)%list
    /\ timers (world s') = timers w
    /\ (timers w = [] -> consistent s').
Proof.
  intros Hpool. unfold connected, standByMessage. monad.
  change (options (new_QuizzBot name chans files raw)) with (effective_options raw).
  change (botName (new_QuizzBot name chans files raw)) with name.
  destruct (nickServPassword (effective_options raw)) as [pw|];
    cbn beta iota delta [bot world];
    match goal with
    | |- context [loadQuestions ?s0] =>
        destruct (loadQuestions_pool s0 pool Hpool)
          as (s2 & Hload & Hbot2 & Hworld2)
    end;
    rewrite Hload;
    destruct (stand_by_says (length (questions (bot s2))) (channels (bot s2)) s2)
      as (s' & Hstand & Hbot & Hsent & Htimers);
    monad_in Hstand; rewrite Hstand;
    exists s'; (split; [reflexivity|]);
    rewrite Hbot, Hsent, Htimers, Hbot2, Hworld2; cbn;
    rewrite <- ?app_assoc;
    (split; [reflexivity|]); (split; [reflexivity|]); (split; [reflexivity|]);
    (split; [reflexivity|]);
    intros Hnone; unfold consistent;
    rewrite Hbot, Htimers, Hbot2, Hworld2; cbn;
    rewrite Hnone; apply shape_idle; reflexivity.
Qed.

End StartUp.

Lemma connected_stands_by_witness :
  exists s',
    connected (Demo.boot ["bank.json"] Demo.defaults) = Ret tt s'
    /\ questions (bot s') = [Demo.q1; Demo.q2; Demo.q3]
    /\ sent (world s') =
         [ConsoleLog "QuizzBot"; Say Demo.chan standBy;
          Say Demo.chan (questionInQuizz 3); Say Demo.chan startCommandMessage]
    /\ consistent s'.
Proof.
  destruct (connected_stands_by "QuizzBot" [Demo.chan] ["bank.json"] Demo.defaults
              (mkWorld 0 [] 0%nat ∅ 0%nat []) [Demo.q1; Demo.q2; Demo.q3])
    as (s' & Hret & Hbot & _ & Hsent & _ & Hshape).
  - vm_compute. reflexivity.
  - exists s'. split; [exact Hret|]. rewrite Hbot.
    split; [reflexivity|]. split; [exact Hsent|]. apply Hshape. reflexivity.
Defined.

(** ** The end of a question that nobody answered *)

Section Timeout.

Context {Sel : Type} `{E : Env Sel}.

Lemma without_without (a b : TimerId) (l : list Timer) :
  without a (without b l) = without b (without a l).
Proof.
  unfold without. induction l as [|t l IH]; [reflexivity|].
  rewrite !filter_cons.
  destruct (decide (tid t <> b)), (decide (tid t <> a));
    rewrite ?filter_cons; repeat case_decide; try contradiction;
    rewrite ?IH; reflexivity.
Qed.

Lemma without_twice (a : TimerId) (l : list Timer) :
  without a (without a l) = without a l.
Proof.
  unfold without. induction l as [|t l IH]; [reflexivity|].
  rewrite !filter_cons.
  destruct (decide (tid t <> a)); rewrite ?filter_cons; repeat case_decide;
    try contradiction; rewrite ?IH; reflexivity.
Qed.

Lemma cancel_cancel (h h' : option TimerId) (l : list Timer) :
  cancel h (cancel h' l) = cancel h' (cancel h l).
Proof. destruct h, h'; cbn; [apply without_without | | |]; reflexivity. Qed.

Lemma cancel_twice (h : option TimerId) (l : list Timer) :
  cancel h (cancel h l) = cancel h l.
Proof. destruct h; cbn; [apply without_twice | reflexivity]. Qed.

Lemma after_clearGame_twice (b : Bot) (l : list Timer) :
  after_clearGame b (after_clearGame b l) = after_clearGame b l.
Proof.
  unfold after_clearGame.
  rewrite (cancel_cancel (currentEndingSoonTimer b) (currentTotalTimer b)
             (cancel (currentEndingSoonTimer b) l)).
  rewrite cancel_twice, cancel_twice. reflexivity.
Qed.

(** What the total timer's closure does before it re-enters the cycle. *)
Lemma total_time_reveals (s : Session Sel) (user : option string)
    (to message : string) (q : Question) :
  currentQuestion (bot s) = Some q ->
  exists s1,
    fire (TotalTime user to message) s = game user to message None s1
    /\ bot s1 = set_currentQuestion None
                  (set_continuousNoAnswerCount (continuousNoAnswerCount (bot s) + 1)
                     (bot s))
    /\ timers (world s1) = after_clearGame (bot s) (timers (world s))
    /\ sent (world s1) =
         (sent (world s) ++
            [Say to noGoodAnswer; DisplayAnswer q to; SaveUserlist])%list
    /\ clock (world s1) = clock (world s)
    /\ nextTimerId (world s1) = nextTimerId (world s)
    /\ sel (world s1) = sel (world s).
Proof.
  destruct s as [b w]. destruct b, w. cbn. intros ->.
  unfold fire, current_question, clearGame, clearTimeout. monad. cbn.
  destruct currentEndingSoonTimer0, currentTotalTimer0; monad; cbn;
    eexists; (split; [reflexivity|]); cbn; rewrite <- ?app_assoc; repeat split.
Qed.

(** When the total timer of the current question expires in a running
    session, the bot says that nobody answered, reveals the answer, counts
    one more unanswered question and saves; it then stops with the
    inactivity message when the count has reached the limit, stops with the
    normal message when the limit is not reached but the policy has no
    question left, and schedules the policy's next question otherwise. *)
Theorem unanswered_question_resolves (s : Session Sel) (user : option string)
    (to message : string) (q : Question) :
  currentQuestion (bot s) = Some q ->
  running (bot s) = true ->
  let count := continuousNoAnswerCount (bot s) + 1 in
  let limit := continuousNoAnswer (options (bot s)) in
  let next := fst (getNextQuestion (questions (bot s)) (sel (world s))) in
  let revealed :=
    (sent (world s) ++
       [Say to noGoodAnswer; DisplayAnswer q to; SaveUserlist])%list in
  exists s', fire (TotalTime user to message) s = Ret tt s'
    /\ continuousNoAnswerCount (bot s') = count
    /\ currentQuestion (bot s') = None
    /\ (limit <= count ->
        running (bot s') = false
        /\ timers (world s') = after_stop (bot s) (timers (world s))
        /\ sent (world s') =
             (revealed ++ [Say to stoppingQuizzForInactivity; SaveUserlist])%list)
    /\ (count < limit -> next = None ->
        running (bot s') = false
        /\ timers (world s') = after_stop (bot s) (timers (world s))
        /\ sent (world s') = (revealed ++ [Say to stoppingQuizz; SaveUserlist])%list)
    /\ (count < limit -> forall n, next = Some n ->
        running (bot s') = true
        /\ timers (world s') =
             (after_clearGame (bot s) (timers (world s)) ++
                [mkTimer (nextTimerId (world s))
                   (clock (world s)
                    + timer_delay (timeBetweenQuestion (options (bot s))))
                   (NextQuestion user to message n)])%list
        /\ sent (world s') =
             (revealed
              ++ [Say to (nextQuestionIn (timeBetweenQuestion (options (bot s))))])%list).
Proof.
  intros Hq Hrun count limit next revealed.
  destruct (total_time_reveals s user to message q Hq)
    as (s1 & Hfire & Hbot1 & Ht1 & Hsent1 & Hclock1 & Hid1 & Hsel1).
  assert (Hstops :
    selected None s1 = None
    \/ continuousNoAnswer (options (bot s1)) <= continuousNoAnswerCount (bot s1) ->
    exists s', fire (TotalTime user to message) s = Ret tt s'
      /\ bot s' = set_currentQuestion None (set_running false (bot s1))
      /\ timers (world s') = after_stop (bot s) (timers (world s))
      /\ sent (world s') =
           (revealed ++
              [Say to (if continuousNoAnswer (options (bot s1))
                            <=? continuousNoAnswerCount (bot s1)
                       then stoppingQuizzForInactivity else stoppingQuizz);
               SaveUserlist])%list).
  { intros Hcond. rewrite Hfire, (game_as_stop s1 user to message None Hcond).
    destruct (select_returns None s1) as (s2 & Hsel & Hbot2 & Ht2 & Hsent2 & _).
    rewrite (bind_returns _ _ _ _ _ Hsel).
    destruct (stop_by_the_session s2 to message)
      as (s' & Hstop & Hbot' & Ht' & Hsent' & _);
      [rewrite Hbot2, Hbot1; exact Hrun|].
    exists s'. split; [exact Hstop|].
    rewrite Hbot', Ht', Hsent', Hbot2, Ht2, Hsent2, Ht1, Hsent1.
    split; [reflexivity|]. split; [|reflexivity].
    rewrite Hbot1. unfold after_stop. cbn.
    change (after_clearGame
              (set_currentQuestion None
                 (set_continuousNoAnswerCount
                    (continuousNoAnswerCount (bot s) + 1) (bot s)))
              (after_clearGame (bot s) (timers (world s))))
      with (after_clearGame (bot s) (after_clearGame (bot s) (timers (world s)))).
    rewrite after_clearGame_twice. reflexivity. }
  assert (Hcount1 : continuousNoAnswerCount (bot s1) = count)
    by (rewrite Hbot1; reflexivity).
  assert (Hlimit1 : continuousNoAnswer (options (bot s1)) = limit)
    by (rewrite Hbot1; reflexivity).
  assert (Hnext1 : selected None s1 = next)
    by (unfold selected; rewrite Hbot1, Hsel1; reflexivity).
  destruct (Z_lt_le_dec count limit) as [Hlt | Hle].
  - destruct next as [n|] eqn:Hnext.
    + destruct (game_arms s1 user to message None n Hnext1)
        as (s' & Hg & Hbot' & Ht' & Hsent' & _).
      { rewrite Hcount1, Hlimit1. exact Hlt. }
      exists s'. rewrite Hfire. split; [exact Hg|].
      rewrite Hbot', Ht', Hsent', Hbot1, Ht1, Hsent1, Hclock1, Hid1. cbn.
      split; [reflexivity|]. split; [reflexivity|].
      split; [intros; lia|]. split; [intros _ Habs; discriminate Habs|].
      intros _ n' Hn'. injection Hn' as <-.
      split; [exact Hrun|]. split; reflexivity.
    + destruct (Hstops (or_introl Hnext1)) as (s' & Hret & Hbot' & Ht' & Hsent').
      exists s'. split; [exact Hret|]. rewrite Hbot', Ht', Hsent', Hbot1. cbn.
      split; [reflexivity|]. split; [reflexivity|].
      split; [intros; lia|].
      split; [|intros _ n Habs; discriminate Habs].
      intros _ _. fold limit. fold count.
      destruct (Z.leb_spec limit count); [lia|]. repeat split.
  - destruct Hstops as (s' & Hret & Hbot' & Ht' & Hsent').
    { right. rewrite Hcount1, Hlimit1. exact Hle. }
    exists s'. split; [exact Hret|]. rewrite Hbot', Ht', Hsent', Hbot1. cbn.
    split; [reflexivity|]. split; [reflexivity|].
    split; [|split; intros; lia].
    intros _. fold limit. fold count.
    destruct (Z.leb_spec limit count); [|lia]. repeat split.
Qed.

End Timeout.

(** Nobody answers question 1 of the bank of three: the count is 1 and
    question 2 is scheduled. *)
Lemma unanswered_question_resolves_witness :
  exists s',
    fire (TotalTime (Some "bob") Demo.chan "!start") Demo.bank_asked = Ret tt s'
    /\ continuousNoAnswerCount (bot s') = 1
    /\ currentQuestion (bot s') = None
    /\ running (bot s') = true.
Proof.
  destruct (unanswered_question_resolves Demo.bank_asked (Some "bob") Demo.chan
              "!start" Demo.q1)
    as (s' & Hret & Hcount & Hcur & _ & _ & Hnext).
  - reflexivity.
  - reflexivity.
  - exists s'. split; [exact Hret|]. split; [exact Hcount|].
    split; [exact Hcur|].
    destruct (Hnext ltac:(vm_compute; reflexivity) Demo.q2) as [Hrun _].
    + vm_compute. reflexivity.
    + exact Hrun.
Defined.

(** ** A forced question *)

Section Forced.

Context {Sel : Type} `{E : Env Sel}.

Lemma game_forced_arms (s : Session Sel) (user : option string)
    (to message : string) (q : Question) :
  continuousNoAnswerCount (bot s) < continuousNoAnswer (options (bot s)) ->
  game user to message (Some q) s
    = Ret tt
        (mkSession
           (set_nextQuestionTimer (Some (nextTimerId (world s))) (bot s))
           (set_nextTimerId (S (nextTimerId (world s)))
              (set_timers
                 (timers (world s) ++
                    [mkTimer (nextTimerId (world s))
                       (clock (world s)
                        + timer_delay (timeBetweenQuestion (options (bot s))))
                       (NextQuestion user to message q)])
                 (set_sent
                    (sent (world s) ++
                       [Say to (nextQuestionIn (timeBetweenQuestion (options (bot s))))])
                    (world s))))).
Proof.
  intros Hlt. apply Z.ltb_lt in Hlt. destruct s as [b w]. destruct b, w.
  unfold game, select, setTimeout. monad. cbn in *. rewrite Hlt. monad.
  reflexivity.
Qed.

Lemma start_announces (s : Session Sel) (u to message : string) :
  running (bot s) = false ->
  startCommand (Some u) to message true s
    = Ret tt
        (mkSession
           (set_continuousNoAnswerCount 0 (set_running true (bot s)))
           (set_users
              (<[u := started (default (new_User u) (users (world s) !! u))]>
                 (users (world s)))
              (set_sent
                 (sent (world s) ++
                    [Say to (requestedStartQuizz
                               (name (default (new_User u) (users (world s) !! u))));
                     Say to startingQuizz])
                 (world s)))).
Proof.
  intros Hidle. destruct s as [b w]. destruct b, w. cbn in Hidle. subst.
  unfold startCommand, deref, the_user, user_update. monad. cbn.
  rewrite <- app_assoc. reflexivity.
Qed.

Lemma game_forced_stops (s : Session Sel) (user : option string)
    (to message : string) (q : Question) :
  continuousNoAnswer (options (bot s)) <= continuousNoAnswerCount (bot s) ->
  game user to message (Some q) s = stopCommand None to message s.
Proof.
  intros Hle. unfold game, select. monad.
  destruct (Z.ltb_spec (continuousNoAnswerCount (bot s))
              (continuousNoAnswer (options (bot s)))); [lia | reflexivity].
Qed.

(** A stop that follows clearGame leaves the pending timers that the stop
    alone leaves: clearGame keeps the three handles. *)
Lemma after_stop_cleared (b b' : Bot) (l : list Timer) :
  currentEndingSoonTimer b' = currentEndingSoonTimer b ->
  currentTotalTimer b' = currentTotalTimer b ->
  nextQuestionTimer b' = nextQuestionTimer b ->
  after_stop b' (after_clearGame b l) = after_stop b l.
Proof.
  intros Hsoon Htotal Hnext. unfold after_stop.
  rewrite Hnext. f_equal.
  unfold after_clearGame at 1. rewrite Hsoon, Htotal.
  exact (after_clearGame_twice b l).
Qed.

(** An operator's ask with the number of a question of the pool, counted
    from 1, leaves the selection policy as it was. In a running session the
    current question and its two timers are cleared first; an idle session
    is started first, in the operator's name, and its count of unanswered
    questions reset to 0. Then, while the count is below the limit, the
    numbered question is scheduled after timeBetweenQuestion; once the
    count has reached the limit, as it has at once in an idle session whose
    limit is not above 0, the session stops with the inactivity message
    and no timer of the session is left pending. *)
Theorem ask_forces_numbered_question (s : Session Sel) (u to message a : string)
    (rest : list string) (n : Z) (q : Question) :
  isOp u to = true ->
  toNumber a = Js.Int n ->
  1 <= n ->
  questions (bot s) !! Z.to_nat (n - 1) = Some q ->
  let limit := continuousNoAnswer (options (bot s)) in
  let count := if running (bot s) then continuousNoAnswerCount (bot s) else 0 in
  let started :=
    if running (bot s) then []
    else [Say to (requestedStartQuizz
                    (name (default (new_User u) (users (world s) !! u))));
          Say to startingQuizz] in
  exists s', askQuestionCommand (Some u) to message (a :: rest) s = Ret tt s'
    /\ currentQuestion (bot s') = None
    /\ continuousNoAnswerCount (bot s') = count
    /\ sel (world s') = sel (world s)
    /\ (count < limit ->
        running (bot s') = true
        /\ timers (world s') =
             (after_clearGame (bot s) (timers (world s)) ++
                [mkTimer (nextTimerId (world s))
                   (clock (world s)
                    + timer_delay (timeBetweenQuestion (options (bot s))))
                   (NextQuestion (Some u) to message q)])%list
        /\ sent (world s') =
             (sent (world s) ++ started ++
                [Say to (nextQuestionIn (timeBetweenQuestion (options (bot s))))])%list)
    /\ (limit <= count ->
        running (bot s') = false
        /\ timers (world s') = after_stop (bot s) (timers (world s))
        /\ sent (world s') =
             (sent (world s) ++ started ++
                [Say to stoppingQuizzForInactivity; SaveUserlist])%list).
Proof.
  intros Hop Hnum Hn Hq limit count started.
  assert (Hforced : forall b : Bot,
            questions b = questions (bot s) ->
            forced_question (questions b) (a :: rest) = Some q).
  { intros b ->. unfold forced_question, Js.index_minus_one. rewrite Hnum.
    destruct (Z.leb_spec 0 (n - 1)); [exact Hq | lia]. }
  unfold askQuestionCommand, not_an_operator. rewrite Hop. cbn [negb].
  monad. subst limit count started.
  destruct (running (bot s)) eqn:Hrun; cbn [negb].
  - destruct (clearGame_returns s)
      as (s2 & Hclear & Hbot & Ht & Hclock & Hid & _ & Hsel & Hsent).
    rewrite Hclear, (Hforced (bot s2)) by (rewrite Hbot; reflexivity).
    destruct (Z.lt_ge_cases (continuousNoAnswerCount (bot s))
                (continuousNoAnswer (options (bot s)))) as [Hlt | Hge].
    + rewrite game_forced_arms by (rewrite Hbot; exact Hlt).
      eexists. split; [reflexivity|]. cbn.
      rewrite Hbot, Ht, Hclock, Hid, Hsel, Hsent. cbn.
      repeat split; try exact Hrun; lia.
    + rewrite game_forced_stops by (rewrite Hbot; exact Hge).
      destruct (stop_by_the_session s2 to message)
        as (s' & Hstop & Hbot' & Ht' & Hsent' & _ & _ & _ & Hsel');
        [rewrite Hbot; exact Hrun|].
      exists s'. split; [exact Hstop|].
      rewrite Hbot', Ht', Hsent', Hsel', Hbot, Ht, Hsent, Hsel. cbn.
      rewrite (after_stop_cleared (bot s)) by reflexivity.
      destruct (Z.leb_spec (continuousNoAnswer (options (bot s)))
                  (continuousNoAnswerCount (bot s))); [|lia].
      repeat split; lia.
  - rewrite (start_announces s u to message Hrun).
    match goal with
    | |- context [clearGame ?s1] =>
        destruct (clearGame_returns s1)
          as (s2 & Hclear & Hbot & Ht & Hclock & Hid & _ & Hsel & Hsent)
    end.
    rewrite Hclear, (Hforced (bot s2)) by (rewrite Hbot; reflexivity).
    cbn in Hbot, Ht, Hclock, Hid, Hsel, Hsent.
    destruct (Z.lt_ge_cases 0 (continuousNoAnswer (options (bot s))))
      as [Hlt | Hge].
    + rewrite game_forced_arms by (rewrite Hbot; exact Hlt).
      eexists. split; [reflexivity|]. cbn.
      rewrite Hbot, Ht, Hclock, Hid, Hsel, Hsent. cbn.
      rewrite <- app_assoc. repeat split; lia.
    + rewrite game_forced_stops by (rewrite Hbot; exact Hge).
      destruct (stop_by_the_session s2 to message)
        as (s' & Hstop & Hbot' & Ht' & Hsent' & _ & _ & _ & Hsel');
        [rewrite Hbot; reflexivity|].
      exists s'. split; [exact Hstop|].
      rewrite Hbot', Ht', Hsent', Hsel', Hbot, Ht, Hsent, Hsel. cbn.
      change (after_clearGame
                (set_continuousNoAnswerCount 0 (set_running true (bot s)))
                (timers (world s)))
        with (after_clearGame (bot s) (timers (world s))).
      rewrite (after_stop_cleared (bot s)) by reflexivity.
      destruct (Z.leb_spec (continuousNoAnswer (options (bot s))) 0); [|lia].
      rewrite <- app_assoc. repeat split; lia.
Qed.

End Forced.

(** alice asks for question 3 of three while question 1 is current: question
    3 is scheduled. With a limit of -1 her ask for question 2 starts the
    idle session and stops it at once. *)
Lemma ask_forces_numbered_question_witness :
  (exists s',
     askQuestionCommand (Some "alice") Demo.chan "!ask 3" ["3"] Demo.bank_asked
       = Ret tt s'
     /\ running (bot s') = true
     /\ timers (world s') =
          [mkTimer 3%nat 30000
             (NextQuestion (Some "alice") Demo.chan "!ask 3" Demo.q3)]
     /\ sel (world s') = sel (world Demo.bank_asked))
  /\ (exists s',
        askQuestionCommand (Some "alice") Demo.chan "!ask 2" ["2"] Demo.no_patience
          = Ret tt s'
        /\ running (bot s') = false
        /\ timers (world s') = []
        /\ sent (world s') =
             (sent (world Demo.no_patience) ++
                [Say Demo.chan (requestedStartQuizz "alice");
                 Say Demo.chan startingQuizz;
                 Say Demo.chan stoppingQuizzForInactivity; SaveUserlist])%list).
Proof.
  split.
  - destruct (ask_forces_numbered_question Demo.bank_asked "alice" Demo.chan
                "!ask 3" "3" [] 3 Demo.q3)
      as (s' & Hret & _ & _ & Hsel & Hbelow & _).
    + reflexivity.
    + reflexivity.
    + lia.
    + reflexivity.
    + destruct Hbelow as (Hrun & Ht & _); [reflexivity|].
      exists s'. repeat split; [exact Hret | exact Hrun | exact Ht | exact Hsel].
  - destruct (ask_forces_numbered_question Demo.no_patience "alice" Demo.chan
                "!ask 2" "2" [] 2 Demo.q2)
      as (s' & Hret & _ & _ & _ & _ & Hreached).
    + reflexivity.
    + reflexivity.
    + lia.
    + reflexivity.
    + destruct Hreached as (Hrun & Ht & Hsent); [vm_compute; discriminate|].
      exists s'. repeat split; [exact Hret | exact Hrun | exact Ht | exact Hsent].
Defined.

(** ** The two timers of a question *)

Lemma effective_timeBeforeTip_within (raw : RawOptions) :
  effective_timeBeforeTip raw <= effective_questionDuration raw.
Proof.
  pose proof (effective_questionDuration_floor raw) as Hqd.
  unfold effective_timeBeforeTip, gt_number, Js.or_default.
  set (qd := effective_questionDuration raw) in *.
  assert (Hhalf : 0 < qd / 2) by (apply Z.div_str_pos; lia).
  assert (Hle : 2 * (qd / 2) <= qd) by (apply Z.mul_div_le; lia).
  destruct (raw_timeBeforeTip raw) as [t|]; [|lia].
  destruct (Z.ltb_spec qd t).
  - destruct (Z.eqb_spec (qd / 2) 0); lia.
  - destruct (Z.eqb_spec t 0); lia.
Qed.

Section Tip.

Context {Sel : Type} `{E : Env Sel}.

Lemma next_question_arms (s : Session Sel) (user : option string)
    (to message : string) (q : Question) :
  fire (NextQuestion user to message q) s
    = Ret tt
        (mkSession
           (set_currentEndingSoonTimer (Some (S (nextTimerId (world s))))
              (set_currentTotalTimer (Some (nextTimerId (world s)))
                 (set_currentQuestion (Some q) (bot s))))
           (set_nextTimerId (S (S (nextTimerId (world s))))
              (set_timers
                 (timers (world s) ++
                    [mkTimer (nextTimerId (world s))
                       (clock (world s)
                        + timer_delay (questionDuration (options (bot s))))
                       (TotalTime user to message);
                     mkTimer (S (nextTimerId (world s)))
                       (clock (world s)
                        + timer_delay (questionDuration (options (bot s))
                                       - timeBeforeTip (options (bot s))))
                       (EndingSoon to)])
                 (set_sent (sent (world s) ++ [AskQuestion q to]) (world s))))).
Proof.
  destruct s as [b w]. destruct b, w.
  unfold fire, setTimeout. monad. cbn. rewrite <- app_assoc. reflexivity.
Qed.

(** When the next-question timer expires, the question becomes current, it
    is asked, and two timers are armed. With the options the constructor
    computed, a question duration of at most 2^31-1 ms and a tip lead above
    0, the total timer is due questionDuration after the question was asked
    and the tip timer strictly before it: timeBeforeTip before the end when
    the lead is shorter than the duration, and 1 ms after the question when
    the lead is the whole duration. *)
Theorem tip_comes_before_the_end (s : Session Sel) (raw : RawOptions)
    (user : option string) (to message : string) (q : Question) :
  options (bot s) = effective_options raw ->
  questionDuration (options (bot s)) <= 2147483647 ->
  0 < timeBeforeTip (options (bot s)) ->
  exists s' total soon,
    fire (NextQuestion user to message q) s = Ret tt s'
    /\ currentQuestion (bot s') = Some q
    /\ timers (world s') = (timers (world s) ++ [total; soon])%list
    /\ callback total = TotalTime user to message
    /\ callback soon = EndingSoon to
    /\ currentTotalTimer (bot s') = Some (tid total)
    /\ currentEndingSoonTimer (bot s') = Some (tid soon)
    /\ deadline total = clock (world s) + questionDuration (options (bot s))
    /\ clock (world s) < deadline soon < deadline total
    /\ (timeBeforeTip (options (bot s)) < questionDuration (options (bot s)) ->
        deadline soon = deadline total - timeBeforeTip (options (bot s)))
    /\ (timeBeforeTip (options (bot s)) = questionDuration (options (bot s)) ->
        deadline soon = clock (world s) + 1).
Proof.
  intros Hopts Hmax Htip.
  assert (Hqd : 10000 <= questionDuration (options (bot s)))
    by (rewrite Hopts; apply effective_questionDuration_floor).
  assert (Hle : timeBeforeTip (options (bot s)) <= questionDuration (options (bot s)))
    by (rewrite Hopts; apply effective_timeBeforeTip_within).
  rewrite next_question_arms.
  eexists. eexists. eexists. split; [reflexivity|]. cbn.
  set (qd := questionDuration (options (bot s))) in *.
  set (tbt := timeBeforeTip (options (bot s))) in *.
  assert (Htotal : timer_delay qd = qd).
  { unfold timer_delay.
    destruct (Z.leb_spec 1 qd); [|lia].
    destruct (Z.leb_spec qd 2147483647); [reflexivity | lia]. }
  assert (Hsoon : timer_delay (qd - tbt) = Z.max 1 (qd - tbt)).
  { unfold timer_delay.
    destruct (Z.leb_spec 1 (qd - tbt)); cbn [andb]; [|lia].
    destruct (Z.leb_spec (qd - tbt) 2147483647); lia. }
  rewrite Htotal, Hsoon.
  repeat split; try reflexivity; cbn [deadline]; fold qd; fold tbt; lia.
Qed.

End Tip.

(** The defaults: a question of 25000 ms, the tip 10000 ms before its end. *)
Lemma tip_comes_before_the_end_witness :
  exists s' total soon,
    fire (NextQuestion (Some "bob") Demo.chan "!start" Demo.q1) Demo.bob_started
      = Ret tt s'
    /\ timers (world s') = (timers (world Demo.bob_started) ++ [total; soon])%list
    /\ deadline total = 25000
    /\ deadline soon = 15000.
Proof.
  destruct (tip_comes_before_the_end Demo.bob_started Demo.defaults (Some "bob")
              Demo.chan "!start" Demo.q1)
    as (s' & total & soon & Hret & _ & Ht & _ & _ & _ & _ & Htotal & _ & Hsoon & _).
  - reflexivity.
  - vm_compute. discriminate.
  - reflexivity.
  - exists s', total, soon. split; [exact Hret|]. split; [exact Ht|].
    split; [exact Htotal|]. rewrite Hsoon, Htotal; reflexivity.
Defined.

(** ** The count of unanswered questions *)

Section Count.

Context {Sel : Type} `{E : Env Sel}.

Lemma stop_within (s s' : Session Sel) (user : option string) (to message : string) :
  within_limit (bot s) ->
  stopCommand user to message s = Ret tt s' ->
  within_limit (bot s').
Proof.
  intros Hs Hstop.
  destruct (running (bot s)) eqn:Hrun.
  - destruct (not_an_operator user to) eqn:Hop.
    + unfold stopCommand in Hstop. monad_in Hstop. rewrite Hrun, Hop in Hstop.
      injection Hstop as <-. exact Hs.
    + destruct (stop_returns s user to message Hrun Hop) as (s2 & Heq & Hbot & _).
      rewrite Heq in Hstop. injection Hstop as <-. rewrite Hbot.
      split; [exact (proj1 Hs) | discriminate].
  - unfold stopCommand in Hstop. monad_in Hstop. rewrite Hrun in Hstop.
    injection Hstop as <-. exact Hs.
Qed.

(** The cycle leaves the count as it was, and leaves the session running
    only when the count is below the limit. *)
Lemma game_within (s s' : Session Sel) (user : option string)
    (to message : string) (forced : option Question) :
  0 <= continuousNoAnswerCount (bot s) ->
  game user to message forced s = Ret tt s' ->
  within_limit (bot s').
Proof.
  intros Hcount Hgame.
  assert (Hstops : game user to message forced s
                   = (select forced ;; stopCommand None to message) s ->
                   within_limit (bot s')).
  { intros Heq. rewrite Heq in Hgame.
    destruct (select_returns forced s) as (s1 & Hs1 & Hbot1 & _).
    rewrite (bind_returns _ _ _ _ _ Hs1) in Hgame.
    destruct (running (bot s1)) eqn:Hrun.
    - destruct (stop_returns s1 None to message Hrun eq_refl)
        as (s2 & Hstop & Hbot2 & _).
      rewrite Hstop in Hgame. injection Hgame as <-.
      rewrite Hbot2, Hbot1. split; [exact Hcount | discriminate].
    - unfold stopCommand in Hgame. monad_in Hgame. rewrite Hrun in Hgame.
      injection Hgame as <-. rewrite Hbot1.
      rewrite Hbot1 in Hrun. split; [exact Hcount | congruence]. }
  destruct (selected forced s) as [q|] eqn:Hsel.
  - destruct (Z_lt_le_dec (continuousNoAnswerCount (bot s))
                (continuousNoAnswer (options (bot s)))) as [Hlt | Hle].
    + destruct (game_arms s user to message forced q Hsel Hlt)
        as (s2 & Hg & Hbot & _).
      rewrite Hg in Hgame. injection Hgame as <-. rewrite Hbot.
      split; [exact Hcount | intros _; exact Hlt].
    + apply Hstops. apply game_as_stop. right. exact Hle.
  - apply Hstops. apply game_as_stop. left. exact Hsel.
Qed.

Lemma handleAnswer_within (s s' : Session Sel) (u to message : string) :
  within_limit (bot s) ->
  handleAnswer (Some u) to message s = Ret tt s' ->
  within_limit (bot s').
Proof.
  intros Hs Hans.
  destruct (currentQuestion (bot s)) as [q|] eqn:Hq.
  - destruct (isGoodAnswer q message) eqn:Hgood.
    + destruct (answer_scores s u to message q Hq Hgood) as (s1 & Heq & Hbot & _).
      rewrite Heq in Hans.
      apply (game_within s1 s' (Some u) to message None); [|exact Hans].
      rewrite Hbot. cbn. lia.
    + unfold handleAnswer, deref, user_update in Hans. monad_in Hans.
      rewrite Hq, Hgood in Hans. monad_in Hans.
      injection Hans as <-. exact Hs.
  - unfold handleAnswer in Hans. monad_in Hans. rewrite Hq in Hans.
    injection Hans as <-. exact Hs.
Qed.

Lemma startCommand_within (s s' : Session Sel) (u to message : string) :
  within_limit (bot s) ->
  startCommand (Some u) to message false s = Ret tt s' ->
  within_limit (bot s').
Proof.
  intros Hs Hstart.
  destruct (running (bot s)) eqn:Hrun.
  - unfold startCommand in Hstart. monad_in Hstart. rewrite Hrun in Hstart.
    injection Hstart as <-. exact Hs.
  - destruct (start_enters s u to message false Hrun) as (s1 & Heq & Hbot & _).
    rewrite Heq in Hstart.
    apply (game_within s1 s' (Some u) to message None); [|exact Hstart].
    rewrite Hbot. cbn. lia.
Qed.

Lemma askQuestionCommand_within (s s' : Session Sel) (u to message : string)
    (args : list string) :
  within_limit (bot s) ->
  askQuestionCommand (Some u) to message args s = Ret tt s' ->
  within_limit (bot s').
Proof.
  intros Hs Hask. unfold askQuestionCommand, not_an_operator in Hask.
  destruct (isOp u to); cbn [negb] in Hask.
  2:{ injection Hask as <-. exact Hs. }
  monad_in Hask.
  destruct (running (bot s)) eqn:Hrun; cbn [negb] in Hask.
  - destruct (clearGame_returns s) as (s2 & Hclear & Hbot & _).
    rewrite Hclear in Hask.
    apply (game_within s2 s' (Some u) to message
             (forced_question (questions (bot s2)) args)); [|exact Hask].
    rewrite Hbot. exact (proj1 Hs).
  - destruct (start_enters s u to message true Hrun) as (s1 & Heq & Hbot1 & _).
    rewrite Heq in Hask. monad_in Hask.
    destruct (clearGame_returns s1) as (s2 & Hclear & Hbot & _).
    rewrite Hclear in Hask.
    apply (game_within s2 s' (Some u) to message
             (forced_question (questions (bot s2)) args)); [|exact Hask].
    rewrite Hbot, Hbot1. cbn. lia.
Qed.

Lemma kept_within {A} (m : M A) (s s' : Session Sel) (a : A) :
  keeps m -> m s = Ret a s' -> within_limit (bot s) -> within_limit (bot s').
Proof.
  intros Hkeeps Hm Hs. destruct (Hkeeps _ _ _ Hm) as [Hb _].
  rewrite Hb. exact Hs.
Qed.

Lemma handleCommand_within (s s' : Session Sel) (u to message : string) :
  within_limit (bot s) ->
  handleCommand (Some u) to message s = Ret tt s' ->
  within_limit (bot s').
Proof.
  intros Hs Hcmd. unfold handleCommand in Hcmd. cbn zeta in Hcmd.
  destruct (String.eqb (default "" (head (Js.split " " message))) "!start").
  { exact (startCommand_within s s' u to message Hs Hcmd). }
  destruct (String.eqb (default "" (head (Js.split " " message))) "!stop").
  { exact (stop_within s s' (Some u) to message Hs Hcmd). }
  destruct (String.eqb (default "" (head (Js.split " " message))) "!lang").
  { exact (kept_within _ s s' tt (keeps_langCommand _ _ _ _) Hcmd Hs). }
  destruct (String.eqb (default "" (head (Js.split " " message))) "!ask").
  { exact (askQuestionCommand_within s s' u to message _ Hs Hcmd). }
  destruct (String.eqb (default "" (head (Js.split " " message))) "!stats").
  { exact (kept_within _ s s' tt (keeps_statsCommand _ _ _ _) Hcmd Hs). }
  destruct (String.eqb (default "" (head (Js.split " " message))) "!top").
  { exact (kept_within _ s s' tt (keeps_topCommand _ _ _ _) Hcmd Hs). }
  destruct (String.eqb (default "" (head (Js.split " " message))) "!help").
  { exact (kept_within _ s s' tt (keeps_helpCommand _ _ _ _) Hcmd Hs). }
  destruct (String.eqb (default "" (head (Js.split " " message))) "!say").
  { exact (kept_within _ s s' tt (keeps_sayCommand _ _ _ _) Hcmd Hs). }
  destruct (String.eqb (default "" (head (Js.split " " message))) "!test").
  { exact (kept_within _ s s' tt (keeps_testCommand _ _ _ _) Hcmd Hs). }
  injection Hcmd as <-. exact Hs.
Qed.

Lemma on_message_within (s s' : Session Sel) (from to message : string) :
  within_limit (bot s) ->
  on_message from to message s = Ret tt s' ->
  within_limit (bot s').
Proof.
  intros Hs Hmsg. unfold on_message in Hmsg.
  destruct (getUser_returns s from to) as (s1 & Hget & Hbot & _).
  rewrite (bind_returns _ _ _ _ _ Hget) in Hmsg. monad_in Hmsg.
  assert (Hs1 : within_limit (bot s1)) by (rewrite Hbot; exact Hs).
  destruct (route (bot s1) from message).
  - exact (handleCommand_within s1 s' from to message Hs1 Hmsg).
  - exact (handleAnswer_within s1 s' from to message Hs1 Hmsg).
  - injection Hmsg as <-. exact Hs1.
Qed.

Lemma fire_within (s s' : Session Sel) (cb : Callback) :
  within_limit (bot s) ->
  fire cb s = Ret tt s' ->
  within_limit (bot s').
Proof.
  intros Hs Hfire. destruct cb as [user to message q | user to message | to].
  - rewrite next_question_arms in Hfire. injection Hfire as <-. exact Hs.
  - destruct (currentQuestion (bot s)) as [q|] eqn:Hq.
    + destruct (total_time_reveals s user to message q Hq) as (s1 & Heq & Hbot & _).
      rewrite Heq in Hfire.
      apply (game_within s1 s' user to message None); [|exact Hfire].
      rewrite Hbot. cbn. destruct Hs as [Hcount _]. lia.
    + unfold fire, current_question in Hfire. monad_in Hfire.
      rewrite Hq in Hfire. discriminate Hfire.
  - destruct (fire_soon s s' to Hfire) as [Hbot _]. rewrite Hbot. exact Hs.
Qed.

Lemma step_within (s s' : Session Sel) (ev : Event) :
  within_limit (bot s) ->
  step ev s = Some (Ret tt s') ->
  within_limit (bot s').
Proof.
  intros Hs Hstep. destruct ev as [elapsed from to message | id];
    unfold step in Hstep.
  - destruct ((0 <=? elapsed)
              && none_due_before (clock (world s) + elapsed) (world s));
      [|discriminate].
    injection Hstep as Hstep. monad_in Hstep.
    match type of Hstep with
    | _ ?s0 = _ => exact (on_message_within s0 s' from to message Hs Hstep)
    end.
  - destruct (pending id (world s)) as [t|]; [|discriminate].
    destruct (none_due_before (deadline t) (world s)); [|discriminate].
    injection Hstep as Hstep. monad_in Hstep.
    match type of Hstep with
    | _ ?s0 = _ => exact (fire_within s0 s' (callback t) Hs Hstep)
    end.
Qed.

(** In every state the event loop reaches, whatever the messages and the
    order of the timers, the count of unanswered questions is not negative,
    and it is below the limit while the session is running: the session
    never goes on running once the limit is reached. *)
Theorem count_stays_within_limit (s s' : Session Sel) :
  within_limit (bot s) ->
  reaches s s' ->
  0 <= continuousNoAnswerCount (bot s')
  /\ (running (bot s') = true ->
      continuousNoAnswerCount (bot s') < continuousNoAnswer (options (bot s'))).
Proof.
  intros Hs Hreach. change (within_limit (bot s')).
  induction Hreach as [|ev s1 s2 Hreach IH Hstep]; [exact Hs|].
  exact (step_within s1 s2 ev IH Hstep).
Qed.

End Count.

(** Nobody answers question 1 of the bank of three: the session goes on
    running with a count of 1, below the limit of 8. *)
Lemma count_stays_within_limit_witness :
  running (bot Demo.unanswered_once) = true
  /\ continuousNoAnswerCount (bot Demo.unanswered_once) = 1
  /\ 0 <= continuousNoAnswerCount (bot Demo.unanswered_once)
  /\ continuousNoAnswerCount (bot Demo.unanswered_once)
       < continuousNoAnswer (options (bot Demo.unanswered_once)).
Proof.
  destruct (count_stays_within_limit Demo.idle Demo.unanswered_once)
    as [Hpos Hbelow].
  - split; [discriminate | discriminate].
  - apply (reaches_run
             [Message 0 "bob" Demo.chan "!start";
              Expire 0%nat; Expire 2%nat; Expire 1%nat] Demo.idle Demo.idle).
    + apply reaches_here.
    + vm_compute. reflexivity.
  - split; [reflexivity|]. split; [reflexivity|].
    split; [exact Hpos | apply Hbelow; reflexivity].
Defined.

(** ** Private replies *)

Section Replies.

Context {Sel : Type} `{E : Env Sel}.

Ltac reply_sent :=
  cbn; rewrite <- ?app_assoc;
  eexists; split; [reflexivity|];
  split; [reflexivity|]; split; [reflexivity|];
  eexists; split; [reflexivity|];
  split; [discriminate|];
  repeat constructor; eexists; reflexivity.

(** help and stats always answer a requester, and they answer in private:
    whatever the arguments and the state of the session, each of them
    returns, every message it sends goes to the requester's name, none to
    the channel, and it changes no field of the bot and no timer. *)
Theorem help_and_stats_reply_privately (s : Session Sel)
    (u to message : string) (args : list string) :
  (exists s', helpCommand (Some u) to message args s = Ret tt s'
     /\ replied_in_private u s s')
  /\ (exists s', statsCommand (Some u) to message args s = Ret tt s'
        /\ replied_in_private u s s').
Proof.
  destruct s as [b w]. destruct w. unfold replied_in_private.
  split.
  - unfold helpCommand, deref, the_user. cbn zeta. monad. cbn.
    destruct args as [|a args]; [reply_sent|].
    destruct (String.eqb a "start"); [reply_sent|].
    destruct (String.eqb a "stop" || String.eqb a "ask" || String.eqb a "say");
      [reply_sent|].
    destruct (String.eqb a "lang"); [reply_sent|].
    destruct (String.eqb a "top" || String.eqb a "stats"); reply_sent.
  - unfold statsCommand, deref, the_user, User_getUser. monad. cbn.
    destruct args as [|a args]; [reply_sent|].
    destruct (String.eqb a ""); [reply_sent|].
    cbn [users world bot].
    destruct (users0 !! a) as [found|]; [|reply_sent].
    cbn [users world bot].
    destruct (users0 !! name found); reply_sent.
Qed.

End Replies.

(** ** What clearGame cancels *)

Section Clearing.

Context {Sel : Type} `{E : Env Sel}.

Lemma in_without (id : TimerId) (t : Timer) (l : list Timer) :
  In t (without id l) <-> In t l /\ tid t <> id.
Proof.
  unfold without. rewrite <- !list_elem_of_In, list_elem_of_filter. tauto.
Qed.

Lemma in_cancel (h : option TimerId) (t : Timer) (l : list Timer) :
  In t (cancel h l) <-> In t l /\ h <> Some (tid t).
Proof.
  destruct h as [id|]; cbn [cancel].
  - rewrite in_without. split; intros [Hin Hne]; (split; [exact Hin|]); congruence.
  - split; [intros Hin; split; [exact Hin | discriminate] | tauto].
Qed.

(** clearGame forgets the current question and cancels the two timers that
    currentTotalTimer and currentEndingSoonTimer name, and nothing else: a
    pending timer that neither field names, such as the next-question timer
    of a cycle that has not begun, stays armed; every other field keeps its
    value, nothing is sent, and clearing twice is clearing once. *)
Theorem clearGame_cancels_two_timers (s : Session Sel) :
  exists s', clearGame s = Ret tt s'
    /\ bot s' = set_currentQuestion None (bot s)
    /\ sent (world s') = sent (world s)
    /\ (forall t,
          In t (timers (world s')) <->
          In t (timers (world s))
          /\ currentTotalTimer (bot s) <> Some (tid t)
          /\ currentEndingSoonTimer (bot s) <> Some (tid t))
    /\ exists s'', clearGame s' = Ret tt s''
         /\ bot s'' = bot s'
         /\ timers (world s'') = timers (world s').
Proof.
  destruct (clearGame_returns s)
    as (s' & Hclear & Hbot & Ht & _ & _ & _ & _ & Hsent).
  exists s'. split; [exact Hclear|]. split; [exact Hbot|]. split; [exact Hsent|].
  split.
  - intros t. rewrite Ht. unfold after_clearGame. rewrite !in_cancel. tauto.
  - destruct (clearGame_returns s') as (s'' & Hclear' & Hbot' & Ht' & _).
    exists s''. split; [exact Hclear'|]. rewrite Hbot', Ht', Ht, Hbot.
    split; [reflexivity|].
    change (after_clearGame (set_currentQuestion None (bot s))
              (after_clearGame (bot s) (timers (world s))))
      with (after_clearGame (bot s) (after_clearGame (bot s) (timers (world s)))).
    apply after_clearGame_twice.
Qed.

End Clearing.

(** ** lang, and what a requester who is no operator can do *)

Section Operators.

Context {Sel : Type} `{E : Env Sel}.

Lemma langSet_on_channels (chans : list string) (s : Session Sel) :
  forEach chans (fun c => ircBot_say c langSet) s
    = Ret tt
        (mkSession (bot s)
           (set_sent (sent (world s) ++ map (fun c => Say c langSet) chans)
              (world s))).
Proof.
  revert s. induction chans as [|c chans IH]; intros s.
  - cbn. rewrite app_nil_r. destruct s as [b w]. destruct w. reflexivity.
  - cbn [forEach]. monad. rewrite IH. cbn. rewrite <- app_assoc. reflexivity.
Qed.

(** An operator's lang with a code sets the locale to the first word after
    the command, be it empty, and announces it on every channel of the bot,
    whatever the channel of the request; without any argument it changes no
    locale and answers on the channel of the request with the help and the
    list of languages. *)
Theorem lang_sets_locale_everywhere (s : Session Sel) (u to message : string)
    (args : list string) :
  isOp u to = true ->
  langCommand (Some u) to message args s
    = Ret tt
        (mkSession (bot s)
           (set_sent
              (sent (world s) ++
                 match args with
                 | code :: _ =>
                     SetLocale code
                     :: map (fun c => Say c langSet) (channels (bot s))
                 | [] => [Say to help_lang; Say to langList]
                 end)
              (world s))).
Proof.
  intros Hop. unfold langCommand, setLang, not_an_operator. rewrite Hop.
  cbn [negb]. destruct args as [|code args]; monad.
  - cbn. rewrite <- app_assoc. reflexivity.
  - rewrite langSet_on_channels. cbn. rewrite <- app_assoc. reflexivity.
Qed.

(** A requester who is not an operator of the channel can start the quizz
    and do nothing else to it: every other command of that requester leaves
    the fields of the bot and the pending timers as they were. *)
Theorem non_operator_can_only_start (s s' : Session Sel) (u to message : string) :
  isOp u to = false ->
  default "" (head (Js.split " " message)) <> "!start" ->
  handleCommand (Some u) to message s = Ret tt s' ->
  bot s' = bot s /\ timers (world s') = timers (world s).
Proof.
  intros Hop Hstart Hcmd. unfold handleCommand in Hcmd. cbn zeta in Hcmd.
  assert (Hrefused : not_an_operator (Some u) to = true)
    by (cbn; rewrite Hop; reflexivity).
  destruct (String.eqb_spec (default "" (head (Js.split " " message))) "!start");
    [contradiction|].
  destruct (String.eqb (default "" (head (Js.split " " message))) "!stop").
  { unfold stopCommand in Hcmd. monad_in Hcmd. rewrite Hrefused in Hcmd.
    destruct (running (bot s)); injection Hcmd as <-; split; reflexivity. }
  destruct (String.eqb (default "" (head (Js.split " " message))) "!lang");
    [exact (keeps_langCommand _ _ _ _ _ _ _ Hcmd)|].
  destruct (String.eqb (default "" (head (Js.split " " message))) "!ask").
  { unfold askQuestionCommand in Hcmd. rewrite Hrefused in Hcmd.
    injection Hcmd as <-. split; reflexivity. }
  destruct (String.eqb (default "" (head (Js.split " " message))) "!stats");
    [exact (keeps_statsCommand _ _ _ _ _ _ _ Hcmd)|].
  destruct (String.eqb (default "" (head (Js.split " " message))) "!top");
    [exact (keeps_topCommand _ _ _ _ _ _ _ Hcmd)|].
  destruct (String.eqb (default "" (head (Js.split " " message))) "!help");
    [exact (keeps_helpCommand _ _ _ _ _ _ _ Hcmd)|].
  destruct (String.eqb (default "" (head (Js.split " " message))) "!say");
    [exact (keeps_sayCommand _ _ _ _ _ _ _ Hcmd)|].
  destruct (String.eqb (default "" (head (Js.split " " message))) "!test");
    [exact (keeps_testCommand _ _ _ _ _ _ _ Hcmd)|].
  injection Hcmd as <-. split; reflexivity.
Qed.

End Operators.

(** alice sets the locale to fr from the channel of the quizz. *)
Lemma lang_sets_locale_everywhere_witness :
  langCommand (Some "alice") Demo.chan "!lang fr" ["fr"] Demo.idle
    = Ret tt
        (mkSession (bot Demo.idle)
           (set_sent
              (sent (world Demo.idle) ++ [SetLocale "fr"; Say Demo.chan langSet])
              (world Demo.idle))).
Proof.
  apply (lang_sets_locale_everywhere Demo.idle "alice" Demo.chan "!lang fr" ["fr"]).
  reflexivity.
Defined.

(** bob, who is no operator, asks for help about stop while question 1 is
    current. *)
Lemma non_operator_can_only_start_witness :
  bot Demo.bob_helped = bot Demo.bank_asked
  /\ timers (world Demo.bob_helped) = timers (world Demo.bank_asked).
Proof.
  apply (non_operator_can_only_start Demo.bank_asked Demo.bob_helped "bob"
           Demo.chan "!help stop").
  - reflexivity.
  - discriminate.
  - vm_compute. reflexivity.
Defined.
